(** * xchainer gradient checks: a shallow embedding of [check_backward.cc]

    The C++ code works on reference-counted [Array] handles whose bodies carry
    one graph node per differentiation graph; it throws exceptions, asserts,
    and calls collaborators of other translation units: the forward function
    under test, the backward engine, the numerical estimator, the closeness
    predicate and the leak tracker.  The embedding is a state and exception
    monad over an explicit store of array bodies.  The collaborators are the
    fields of a class, so every theorem holds for all of them. *)

From Stdlib Require Import QArith Qabs.
From stdpp Require Import gmap strings list fin_maps pretty.
Close Scope Q_scope.

Set Default Proof Using "Type".

(** ** Data model *)

(** Modelled from the spec: [GraphId] comes from a header that
    [check_backward.cc] includes; the code streams it into messages and
    passes it on. *)
Definition GraphId := string.

(** Modelled from the spec: the element type code and the dimensions of an
    array, which the code compares and prints. *)
Definition Dtype := nat.
Definition Shape := list nat.

(** Modelled from the spec: an [Array] is a reference-counted handle on an
    [ArrayBody]; [internal::GetArrayBody] gives the shared pointer, and the
    code compares two of them with [==], which is identity of the bodies. *)
Record Array := mkArray { GetArrayBody : nat }.

#[global] Instance Array_eq_dec : EqDecision Array.
Proof. solve_decision. Defined.

Inductive DoubleBackpropOption := kDisable | kEnable.
Inductive CopyKind := kCopy | kView.

(** Modelled from the spec: the graph node of a body under one graph.
    [next_op_node] is the producing operation ([None] is the null pointer: a
    leaf), [grad] the gradient slot. *)
Record ArrayNode := mkArrayNode {
  graph_id : GraphId;
  next_op_node : option nat;
  grad : option Array
}.

(** Modelled from the spec: the body a handle points to.  [data] names the
    element buffer, which views share; [default_graph_id] is the default
    graph of the context the array's device belongs to; [nodes] holds the
    graph attachments, in the order in which they were made. *)
Record ArrayBody := mkArrayBody {
  data : nat;
  shape : Shape;
  dtype : Dtype;
  default_graph_id : GraphId;
  nodes : list ArrayNode
}.

(** The store: the bodies that handles point to, the element buffers, the
    tracker the active leak detection scope points to with the bodies it has
    recorded, and the stack that backprop mode scopes push on. *)
Record World := mkWorld {
  bodies : gmap nat ArrayBody;
  buffers : gmap nat (list Q);
  leak_tracker : option (list nat);
  backprop_mode_stack : list (GraphId * bool)
}.

Definition set_bodies (f : gmap nat ArrayBody -> gmap nat ArrayBody) (w : World) : World :=
  mkWorld (f (bodies w)) (buffers w) (leak_tracker w) (backprop_mode_stack w).

Definition set_buffers (f : gmap nat (list Q) -> gmap nat (list Q)) (w : World) : World :=
  mkWorld (bodies w) (f (buffers w)) (leak_tracker w) (backprop_mode_stack w).

Definition set_leak_tracker (t : option (list nat)) (w : World) : World :=
  mkWorld (bodies w) (buffers w) t (backprop_mode_stack w).

Definition set_backprop_mode_stack (f : list (GraphId * bool) -> list (GraphId * bool)) (w : World) : World :=
  mkWorld (bodies w) (buffers w) (leak_tracker w) (f (backprop_mode_stack w)).

(** ** Errors *)

(** [GradientCheckError] derives from [XchainerError]; a handler tells them
    apart by the dynamic class. *)
Inductive ErrorClass := XchainerError | GradientCheckError.

(** What each [throw] site renders into its message. *)
Inductive Message :=
| MsgNotLeaf
| MsgIdentical (i j : nat)
| MsgGradOutputsSize (nout ngo : nat)
| MsgText (s : string)
| MsgInputGradsCount
| MsgShapeMismatch (i nin : nat) (sg si : Shape)
| MsgDtypeMismatch (i nin : nat) (dg di : Dtype)
| MsgNumericalError (double : bool) (nin : nat) (failed : list nat) (g : GraphId) (atol rtol : Q)
    (entries : list (nat * Array * Array * Array * Array))
| MsgLeak (survivors : list nat)
| MsgGradGradInputsCount
| MsgInputNotDifferentiable (i nin : nat) (g : GraphId)
| MsgGradOutputNotDifferentiable (i nout : nat) (g : GraphId)
| MsgFirstOrderCount (n nin : nat)
| MsgFirstOrderMissing (i nin : nat)
| MsgFirstOrderNotDifferentiable (i nin : nat) (g : GraphId)
| MsgSecondOrderMissing (missing : list nat) (nin nout : nat) (g : GraphId)
| MsgNoArrayNode (g : GraphId).

(** Ways to stop that are not exceptions: no handler runs, nothing unwinds. *)
Inductive Fatal :=
| AssertionFailure (expr : string)
| UndefinedBehaviour (what : string).

Inductive Outcome (A : Type) :=
| Ok (a : A)
| Throw (c : ErrorClass) (m : Message)
| Stop (f : Fatal).
Arguments Ok {A} a.
Arguments Throw {A} c m.
Arguments Stop {A} f.

(** ** The monad *)

Definition M (A : Type) : Type := World -> Outcome A * World.

Definition ret {A} (a : A) : M A := fun w => (Ok a, w).

Definition bind {A B} (m : M A) (k : A -> M B) : M B :=
  fun w =>
    match m w with
    | (Ok a, w') => k a w'
    | (Throw c e, w') => (Throw c e, w')
    | (Stop f, w') => (Stop f, w')
    end.

Definition throw {A} (c : ErrorClass) (e : Message) : M A := fun w => (Throw c e, w).
Definition stop {A} (f : Fatal) : M A := fun w => (Stop f, w).
Definition gets {A} (f : World -> A) : M A := fun w => (Ok (f w), w).
Definition modify (f : World -> World) : M unit := fun w => (Ok tt, f w).

Declare Scope xc_scope.
Delimit Scope xc_scope with xc.
Notation "x <- c1 ;; c2" := (bind c1 (fun x => c2))
  (at level 100, c1 at next level, right associativity) : xc_scope.
Notation "c1 ;; c2" := (bind c1 (fun _ => c2))
  (at level 100, right associativity) : xc_scope.
Open Scope xc_scope.

Definition assert (b : bool) (expr : string) : M unit :=
  if b then ret tt else stop (AssertionFailure expr).

(** [v[i]] on a vector: out of range is undefined. *)
Definition at_ {A} (v : list A) (i : nat) : M A :=
  match v !! i with
  | Some x => ret x
  | None => stop (UndefinedBehaviour "operator[] out of range")
  end.

(** [v.front()]: undefined on an empty vector. *)
Definition front {A} (v : list A) : M A :=
  match v with
  | x :: _ => ret x
  | [] => stop (UndefinedBehaviour "front() of an empty vector")
  end.

(** Range-based [for]. *)
Fixpoint for_each {A} (l : list A) (f : A -> M unit) : M unit :=
  match l with
  | [] => ret tt
  | x :: r => f x ;; for_each r f
  end.

(** [for (size_t i = from; i < from + count; ++i)]. *)
Fixpoint for_range (from count : nat) (f : nat -> M unit) : M unit :=
  match count with
  | 0 => ret tt
  | S c => f from ;; for_range (S from) c f
  end.

(** A loop that appends one result per element: [std::transform] with a
    back inserter, or a range-based [for] that ends in [emplace_back]. *)
Fixpoint transform {A B} (l : list A) (f : A -> M B) : M (list B) :=
  match l with
  | [] => ret []
  | x :: r => y <- f x ;; ys <- transform r f ;; ret (y :: ys)
  end.

(** A scope object: the constructor runs on entry, the destructor when the
    block is left, normally or by an exception. *)
Definition scoped {A} (enter leave : World -> World) (m : M A) : M A :=
  fun w =>
    match m (enter w) with
    | (Ok a, w') => (Ok a, leave w')
    | (Throw c e, w') => (Throw c e, leave w')
    | (Stop f, w') => (Stop f, w')
    end.

(** ** Array primitives

    The member functions of [Array] and [ArrayBody] that [check_backward.cc]
    calls are declared in [array.h] and [array_body.h] and defined outside
    this translation unit.  They follow the data model of the specification: a
    body owns, per graph identifier, a node with a producing operation and a
    gradient slot; a view is a new body on the same element buffer. *)

(** Modelled from the spec: [ArrayBody::GetArrayNode], the node of the body
    under the graph, the first one if there were several. *)
Definition GetArrayNode (b : ArrayBody) (g : GraphId) : option ArrayNode :=
  find (fun n => bool_decide (graph_id n = g)) (nodes b).

(** Modelled from the spec: [ArrayBody::HasArrayNode]. *)
Definition HasArrayNode (b : ArrayBody) (g : GraphId) : bool :=
  bool_decide (is_Some (GetArrayNode b g)).

(** Dereferencing a handle.  A C++ handle always has its body; a handle that
    the store does not know is outside the behaviour of the program. *)
Definition deref (a : Array) : M ArrayBody :=
  fun w =>
    match bodies w !! GetArrayBody a with
    | Some b => (Ok b, w)
    | None => (Stop (UndefinedBehaviour "dangling array handle"), w)
    end.

Definition store (a : Array) (b : ArrayBody) : M unit :=
  modify (set_bodies (insert (GetArrayBody a) b)).

(** Modelled from the spec: [Array::IsGradRequired], whether the body carries
    a node under the graph. *)
Definition IsGradRequired (a : Array) (g : GraphId) : M bool :=
  b <- deref a ;; ret (HasArrayNode b g).

Definition set_nodes (ns : list ArrayNode) (b : ArrayBody) : ArrayBody :=
  mkArrayBody (data b) (shape b) (dtype b) (default_graph_id b) ns.

(** Modelled from the spec: [Array::RequireGrad] attaches a new leaf node
    with an empty gradient slot, unless the body already has a node for the
    graph. *)
Definition require_grad_nodes (g : GraphId) (ns : list ArrayNode) : list ArrayNode :=
  if bool_decide (g ∈ graph_id <$> ns) then ns else ns ++ [mkArrayNode g None None].

Definition RequireGrad (a : Array) (g : GraphId) : M unit :=
  b <- deref a ;; store a (set_nodes (require_grad_nodes g (nodes b)) b).

Definition set_node_grad (g : GraphId) (v : option Array) (n : ArrayNode) : ArrayNode :=
  if bool_decide (graph_id n = g) then mkArrayNode (graph_id n) (next_op_node n) v else n.

(** Modelled from the spec: [Array::SetGrad] and [Array::ClearGrad] write the
    gradient slot of the node under the graph, and [Array::GetGrad] reads it;
    without a node under the graph they throw. *)
Definition update_grad (a : Array) (g : GraphId) (v : option Array) : M unit :=
  b <- deref a ;;
  if HasArrayNode b g
  then store a (set_nodes (set_node_grad g v <$> nodes b) b)
  else throw XchainerError (MsgNoArrayNode g).

Definition SetGrad (a : Array) (v : Array) (g : GraphId) : M unit := update_grad a g (Some v).
Definition ClearGrad (a : Array) (g : GraphId) : M unit := update_grad a g None.

Definition GetGrad (a : Array) (g : GraphId) : M (option Array) :=
  b <- deref a ;;
  match GetArrayNode b g with
  | Some n => ret (grad n)
  | None => throw XchainerError (MsgNoArrayNode g)
  end.

(** Modelled from the spec: creating a body registers it with the tracker of
    the active leak detection scope, if there is one. *)
Definition new_body (b : ArrayBody) : M Array :=
  fun w =>
    let id := fresh (dom (bodies w)) in
    (Ok (mkArray id),
     set_leak_tracker ((fun t => t ++ [id]) <$> leak_tracker w)
       (set_bodies (insert id b) w)).

Definition new_buffer (d : nat) : M nat :=
  fun w =>
    let id := fresh (dom (buffers w)) in
    (Ok id, set_buffers (insert id (default [] (buffers w !! d))) w).

(** Modelled from the spec: [Array::AsGradStopped] gives a new body without
    graph nodes, on the same buffer for [kView] and on a copy of it for
    [kCopy]. *)
Definition AsGradStopped (a : Array) (k : CopyKind) : M Array :=
  b <- deref a ;;
  d <- match k with
       | kView => ret (data b)
       | kCopy => new_buffer (data b)
       end ;;
  new_body (mkArrayBody d (shape b) (dtype b) (default_graph_id b) []).

(** Modelled from the spec: [internal::GetArrayGraphId] gives the graph that
    was passed or, without one, the default graph of the array's context. *)
Definition GetArrayGraphId (a : Array) (g : option GraphId) : M GraphId :=
  match g with
  | Some g => ret g
  | None => b <- deref a ;; ret (default_graph_id b)
  end.

(** ** [DisconnectInputArrays] *)

Definition DisconnectInputArrays (inputs : list Array) : M (list Array) :=
  transform inputs (fun input =>
    a <- AsGradStopped input kView ;;
    b <- deref input ;;
    for_each (nodes b) (fun arr_node => RequireGrad a (graph_id arr_node)) ;;
    ret a).

(** ** Collaborators

    Code of other translation units, reached through these signatures only.
    [AllClose] and [expired] read the store; the others may change it, throw
    or stop.  [Multiply] and [Subtract] are the array operators [*] and [-]:
    they make a new array, inside whatever leak detection scope is active.
    The tolerances of [AllClose] are doubles in the code and rationals here.
    [expired b] is what [std::weak_ptr::expired] answers for body [b]:
    whether every handle and graph node that owned it is gone. *)
Class Collaborators := {
  Backward : list Array -> GraphId -> DoubleBackpropOption -> M unit;
  CalculateNumericalGradient :
    (list Array -> M (list Array)) -> list Array -> list Array -> list Array -> M (list Array);
  AllClose : Array -> Array -> Q -> Q -> World -> bool;
  Multiply : Array -> Array -> M Array;
  Subtract : Array -> Array -> M Array;
  expired : nat -> World -> bool
}.

(** Loops that carry a local variable. *)
Fixpoint fold_range {St} (from count : nat) (f : nat -> St -> M St) (s : St) : M St :=
  match count with
  | 0 => ret s
  | S c => s' <- f from s ;; fold_range (S from) c f s'
  end.

(** [std::copy_if] with a back inserter; the predicate reads the store. *)
Fixpoint copy_if {A} (l : list A) (p : A -> M bool) : M (list A) :=
  match l with
  | [] => ret []
  | x :: r => b <- p x ;; ys <- copy_if r p ;; ret (if b then x :: ys else ys)
  end.

(** [*opt] on an optional. *)
Definition value {A} (o : option A) : M A :=
  match o with
  | Some x => ret x
  | None => stop (UndefinedBehaviour "value of an empty optional")
  end.

Definition has_next_op_node (b : ArrayBody) (g : GraphId) : bool :=
  match GetArrayNode b g with
  | Some n => bool_decide (is_Some (next_op_node n))
  | None => false
  end.

Definition Func := list Array -> M (list Array).

(** The nodes a body has after [RequireGrad] under each graph of [gs]. *)
Definition require_all (gs : list GraphId) (ns : list ArrayNode) : list ArrayNode :=
  foldl (fun ns g => require_grad_nodes g ns) ns gs.

(** A handle is valid in a store that holds its body. *)
Definition valid (w : World) (a : Array) : Prop := is_Some (bodies w !! GetArrayBody a).

(** [view], a handle that store [w] does not hold, is in [w'] a view of the
    buffer of [input], made of leaves, with a node under the graphs of [input]. *)
Definition disconnected_view (w w' : World) (input view : Array) : Prop :=
  exists b b',
    bodies w !! GetArrayBody input = Some b /\
    bodies w' !! GetArrayBody view = Some b' /\
    bodies w !! GetArrayBody view = None /\
    data b' = data b /\ shape b' = shape b /\ dtype b' = dtype b /\
    default_graph_id b' = default_graph_id b /\
    Forall (fun n => next_op_node n = None) (nodes b') /\
    forall g, HasArrayNode b' g = HasArrayNode b g.

(** [input_body->HasArrayNode(graph_id) &&
    input_body->GetArrayNode(graph_id)->next_op_node() != nullptr]. *)
Definition is_non_leaf (b : ArrayBody) (g : GraphId) : bool :=
  HasArrayNode b g && has_next_op_node b g.

(** Input [i] and output [j] are one body, and the input requires gradient. *)
Definition identical_pair (inputs outputs : list Array) (g : GraphId) (w : World)
    (i j : nat) : Prop :=
  exists a o b,
    inputs !! i = Some a /\ outputs !! j = Some o /\
    GetArrayBody a = GetArrayBody o /\
    bodies w !! GetArrayBody a = Some b /\ HasArrayNode b g = true.

Section CheckBackward.
Context `{Collaborators}.

(** ** [BackwardGradients] *)

Definition check_leaves (inputs : list Array) (graph_id : GraphId) : M unit :=
  for_each inputs (fun input =>
    input_body <- deref input ;;
    if is_non_leaf input_body graph_id
    then throw GradientCheckError MsgNotLeaf
    else ret tt).

Definition check_identical (inputs outputs : list Array) (graph_id : GraphId) : M unit :=
  for_range 0 (length inputs) (fun i =>
    for_range 0 (length outputs) (fun j =>
      input <- at_ inputs i ;;
      output <- at_ outputs j ;;
      if bool_decide (GetArrayBody input = GetArrayBody output)
      then r <- IsGradRequired input graph_id ;;
           if r then throw GradientCheckError (MsgIdentical i j) else ret tt
      else ret tt)).

Definition seed_outputs (outputs : list Array) (grad_outputs : option (list Array))
    (graph_id : GraphId) : M unit :=
  match grad_outputs with
  | Some gos =>
      let nout := length outputs in
      if bool_decide (nout ≠ length gos)
      then throw GradientCheckError (MsgGradOutputsSize nout (length gos))
      else for_range 0 nout (fun i =>
             output <- at_ outputs i ;;
             r <- IsGradRequired output graph_id ;;
             if r then g <- at_ gos i ;; SetGrad output g graph_id else ret tt)
  | None => ret tt
  end.

Definition clear_input_grads (inputs : list Array) (graph_id : GraphId) : M unit :=
  for_each inputs (fun input =>
    r <- IsGradRequired input graph_id ;;
    if r then ClearGrad input graph_id else ret tt).

Definition BackwardGradients (func : Func) (inputs : list Array)
    (grad_outputs : option (list Array)) (graph_id : GraphId)
    (double_backprop : DoubleBackpropOption) : M (list (option Array)) :=
  check_leaves inputs graph_id ;;
  outputs <- func inputs ;;
  check_identical inputs outputs graph_id ;;
  seed_outputs outputs grad_outputs graph_id ;;
  clear_input_grads inputs graph_id ;;
  outputs_requiring_grad <- copy_if outputs (fun a => IsGradRequired a graph_id) ;;
  Backward outputs_requiring_grad graph_id double_backprop ;;
  transform inputs (fun input =>
    r <- IsGradRequired input graph_id ;;
    if negb r then ret None else GetGrad input graph_id).

(** ** [CheckDoubleBackpropOption] *)

Definition nonlinear_func (func : Func) : Func :=
  fun func_inputs =>
    outputs <- func func_inputs ;;
    transform outputs (fun output => Multiply output output).

Definition msg_connected (i n : nat) (graph_id : GraphId) : string :=
  "Gradient " +:+ pretty i +:+ " / " +:+ pretty n +:+ " is connected to the graph '"
    +:+ graph_id +:+ "' even when double-backprop is disabled.".

Definition msg_not_connected (i n : nat) (graph_id : GraphId) : string :=
  "Gradient " +:+ pretty i +:+ " / " +:+ pretty n +:+ " is not connected to the graph '"
    +:+ graph_id +:+ "' even when double-backprop is enabled.".

(** The loop over [grads] of one run; [expect] is what [IsGradRequired] must
    answer for a gradient to pass. *)
Definition check_connectivity (grads : list (option Array)) (graph_id : GraphId)
    (expect : bool) (failure_os : string) : M string :=
  fold_range 0 (length grads) (fun i os =>
    g <- at_ grads i ;;
    match g with
    | Some a =>
        r <- IsGradRequired a graph_id ;;
        if expect
        then (if negb r then ret (os +:+ msg_not_connected i (length grads) graph_id) else ret os)
        else (if r then ret (os +:+ msg_connected i (length grads) graph_id) else ret os)
    | None => ret os
    end) failure_os.

Definition CheckDoubleBackpropOption (func : Func) (inputs : list Array)
    (graph_id : GraphId) : M unit :=
  let failure_os := "" in
  (* Disable double backprop *)
  inputs_disconnected <- DisconnectInputArrays inputs ;;
  grads <- BackwardGradients (nonlinear_func func) inputs_disconnected None graph_id kDisable ;;
  failure_os <- check_connectivity grads graph_id false failure_os ;;
  (* Enable double backprop *)
  inputs_disconnected <- DisconnectInputArrays inputs ;;
  grads <- BackwardGradients (nonlinear_func func) inputs_disconnected None graph_id kEnable ;;
  failure_os <- check_connectivity grads graph_id true failure_os ;;
  (* Do nothing unless failure *)
  let failure_message := failure_os in
  if negb (bool_decide (failure_message = ""))
  then throw GradientCheckError (MsgText failure_message)
  else ret tt.

(** ** [CheckBackwardComputation] *)

Definition check_grad_shapes (inputs : list Array) (backward_grads : list (option Array)) : M unit :=
  for_range 0 (length inputs) (fun i =>
    bg <- at_ backward_grads i ;;
    match bg with
    | None => ret tt
    | Some backward_grad =>
        input <- at_ inputs i ;;
        gb <- deref backward_grad ;;
        ib <- deref input ;;
        if bool_decide (shape gb ≠ shape ib)
        then throw GradientCheckError (MsgShapeMismatch i (length inputs) (shape gb) (shape ib))
        else if bool_decide (dtype gb ≠ dtype ib)
        then throw GradientCheckError (MsgDtypeMismatch i (length inputs) (dtype gb) (dtype ib))
        else ret tt
    end).

Definition assert_numerical_grads (inputs numerical_grads : list Array) : M unit :=
  assert (bool_decide (length numerical_grads = length inputs))
    "numerical_grads.size() == inputs.size()" ;;
  for_range 0 (length inputs) (fun i =>
    n <- at_ numerical_grads i ;;
    input <- at_ inputs i ;;
    nb <- deref n ;;
    ib <- deref input ;;
    assert (bool_decide (shape nb = shape ib)) "numerical_grads[i].shape() == inputs[i].shape()" ;;
    assert (bool_decide (dtype nb = dtype ib)) "numerical_grads[i].dtype() == inputs[i].dtype()").

(** The loop that fills [failed_input_indices]; a missing gradient is
    [continue]d over. *)
Definition collect_failed (backward_grads : list (option Array)) (numerical_grads : list Array)
    (atol rtol : Q) : M (list nat) :=
  fold_range 0 (length backward_grads) (fun i failed_input_indices =>
    bg <- at_ backward_grads i ;;
    match bg with
    | None => ret failed_input_indices
    | Some a =>
        n <- at_ numerical_grads i ;;
        c <- gets (AllClose a n atol rtol) ;;
        if negb c then ret (failed_input_indices ++ [i]) else ret failed_input_indices
    end) [].

(** The report: per failed index the text streams, in this order, the
    difference [*backward_grads[i] - numerical_grads[i]], which is computed
    then and there, the two gradients and the perturbation; the arrays stand
    for their rendering. *)
Definition report_entries (failed_input_indices : list nat) (backward_grads : list (option Array))
    (numerical_grads eps : list Array) : M (list (nat * Array * Array * Array * Array)) :=
  transform failed_input_indices (fun i =>
    bg <- at_ backward_grads i ;;
    a <- value bg ;;
    n <- at_ numerical_grads i ;;
    error <- Subtract a n ;;
    e <- at_ eps i ;;
    ret (i, error, a, n, e)).

Definition raise_numerical_error (double : bool) (nin : nat) (failed_input_indices : list nat)
    (backward_grads : list (option Array)) (numerical_grads eps : list Array)
    (graph_id : GraphId) (atol rtol : Q) : M unit :=
  if negb (bool_decide (failed_input_indices = []))
  then entries <- report_entries failed_input_indices backward_grads numerical_grads eps ;;
       throw GradientCheckError
         (MsgNumericalError double nin failed_input_indices graph_id atol rtol entries)
  else ret tt.

Definition CheckBackwardComputation (func : Func) (inputs grad_outputs eps : list Array)
    (atol rtol : Q) (graph_id : option GraphId) : M unit :=
  assert (negb (bool_decide (inputs = []))) "!inputs.empty()" ;;
  first <- front inputs ;;
  actual_graph_id <- GetArrayGraphId first graph_id ;;
  (* Compute backward gradients *)
  inputs_disconnected <- DisconnectInputArrays inputs ;;
  backward_grads <-
    BackwardGradients func inputs_disconnected (Some grad_outputs) actual_graph_id kDisable ;;
  (if bool_decide (length backward_grads ≠ length inputs)
   then throw GradientCheckError MsgInputGradsCount
   else ret tt) ;;
  check_grad_shapes inputs backward_grads ;;
  (* Compute numerical gradients *)
  numerical_grads <- CalculateNumericalGradient func inputs grad_outputs eps ;;
  assert_numerical_grads inputs numerical_grads ;;
  (* Check numerical consistency between numerical and backward gradients. *)
  failed_input_indices <- collect_failed backward_grads numerical_grads atol rtol ;;
  raise_numerical_error false (length inputs) failed_input_indices backward_grads
    numerical_grads eps actual_graph_id atol rtol.

(** ** Leak detection

    [ArrayBodyLeakTracker] and [ArrayBodyLeakDetectionScope] are declared in
    [array_body_leak_detection.h] and defined outside this translation unit. *)

(** Modelled from the spec: the scope makes [tracker] the active one on entry
    and stops the recording when the block is left, normally or by an
    exception; the caller then holds the tracker with what it recorded. *)
Definition ArrayBodyLeakDetectionScope {A} (tracker : list nat) (m : M A) : M (A * list nat) :=
  fun w =>
    match m (set_leak_tracker (Some tracker) w) with
    | (Ok a, w') => (Ok (a, default tracker (leak_tracker w')), set_leak_tracker None w')
    | (Throw c e, w') => (Throw c e, set_leak_tracker None w')
    | (Stop f, w') => (Stop f, w')
    end.

(** Modelled from the spec: the recorded bodies that are not released, and
    [ArrayBodyLeakTracker::IsAllArrayBodiesFreed], which answers whether
    there is none and writes them to the stream it is given. *)
Definition survivors (tracker : list nat) (w : World) : list nat :=
  filter (fun b => expired b w = false) tracker.

Definition IsAllArrayBodiesFreed (tracker : list nat) : M (bool * Message) :=
  gets (fun w => (bool_decide (survivors tracker w = []), MsgLeak (survivors tracker w))).

Definition CheckAllArrayBodiesFreed (tracker : list nat) : M unit :=
  r <- IsAllArrayBodiesFreed tracker ;;
  if negb (fst r) then throw GradientCheckError (snd r) else ret tt.

(** ** [CheckBackward] *)

Definition CheckBackward (func : Func) (inputs grad_outputs eps : list Array)
    (atol rtol : Q) (graph_id : option GraphId) : M unit :=
  assert (negb (bool_decide (inputs = []))) "!inputs.empty()" ;;
  first <- front inputs ;;
  actual_graph_id <- GetArrayGraphId first graph_id ;;
  r <- ArrayBodyLeakDetectionScope [] (CheckDoubleBackpropOption func inputs actual_graph_id) ;;
  CheckAllArrayBodiesFreed (snd r) ;;
  r <- ArrayBodyLeakDetectionScope []
         (CheckBackwardComputation func inputs grad_outputs eps atol rtol graph_id) ;;
  CheckAllArrayBodiesFreed (snd r).

(** ** [CheckDoubleBackwardComputationImpl] *)

(** Modelled from the spec: [ForceBackpropModeScope] pushes the forced mode of
    the graph and pops it when the block is left. *)
Definition ForceBackpropModeScope {A} (graph_id : GraphId) (m : M A) : M A :=
  scoped (set_backprop_mode_stack (cons (graph_id, true))) (set_backprop_mode_stack tail) m.

(** The lambda that maps (inputs ++ grad_outputs) to the first order
    gradients; [nin], [nout] and the graph are its captures. *)
Definition first_order_grad_func (func : Func) (nin nout : nat) (actual_graph_id : GraphId) : Func :=
  fun inputs_and_grad_outputs =>
    (if bool_decide (length inputs_and_grad_outputs < nin)
     then stop (UndefinedBehaviour "begin() + nin past end()")
     else ret tt) ;;
    let inputs := take nin inputs_and_grad_outputs in
    let grad_outputs := drop nin inputs_and_grad_outputs in
    ForceBackpropModeScope actual_graph_id (
      for_each inputs (fun input => RequireGrad input actual_graph_id) ;;
      (* Compute first order gradients *)
      optional_backward_grads <-
        BackwardGradients func inputs (Some grad_outputs) actual_graph_id kEnable ;;
      (* Check all the first order gradients are computed *)
      (if bool_decide (length optional_backward_grads ≠ nin)
       then throw GradientCheckError (MsgFirstOrderCount (length optional_backward_grads) nin)
       else ret tt) ;;
      for_range 0 nin (fun i =>
        g <- at_ optional_backward_grads i ;;
        if negb (bool_decide (is_Some g))
        then throw GradientCheckError (MsgFirstOrderMissing i nin)
        else ret tt) ;;
      for_range 0 nin (fun i =>
        g <- at_ optional_backward_grads i ;;
        a <- value g ;;
        r <- IsGradRequired a actual_graph_id ;;
        if negb r
        then throw GradientCheckError (MsgFirstOrderNotDifferentiable i nin actual_graph_id)
        else ret tt) ;;
      backward_grads <- transform optional_backward_grads value ;;
      assert (bool_decide (length backward_grads = nin)) "backward_grads.size() == nin" ;;
      ret backward_grads).

Definition check_inputs_differentiable (inputs : list Array) (nin : nat) (g : GraphId) : M unit :=
  for_range 0 nin (fun i =>
    input <- at_ inputs i ;;
    r <- IsGradRequired input g ;;
    if negb r then throw XchainerError (MsgInputNotDifferentiable i nin g) else ret tt).

Definition check_grad_outputs_differentiable (grad_outputs : list Array) (nout : nat)
    (g : GraphId) : M unit :=
  for_range 0 nout (fun i =>
    go <- at_ grad_outputs i ;;
    r <- IsGradRequired go g ;;
    if negb r then throw XchainerError (MsgGradOutputNotDifferentiable i nout g) else ret tt).

(** The block that checks that all the second order gradients exist:
    [has_error] is set at every index without a value, and the indices are
    what the text lists. *)
Definition check_second_order_exist (backward_grads : list (option Array)) (nin nout : nat)
    (g : GraphId) : M unit :=
  r <- fold_range 0 (length backward_grads) (fun i (st : list nat * bool) =>
         bg <- at_ backward_grads i ;;
         if negb (bool_decide (is_Some bg))
         then ret (fst st ++ [i], true)
         else ret st) ([], false) ;;
  if (snd r : bool)
  then throw GradientCheckError (MsgSecondOrderMissing (fst r) nin nout g)
  else ret tt.

Definition collect_failed_double (backward_grads : list (option Array))
    (numerical_grads : list Array) (atol rtol : Q) : M (list nat) :=
  fold_range 0 (length backward_grads) (fun i failed_input_indices =>
    bg <- at_ backward_grads i ;;
    a <- value bg ;;
    n <- at_ numerical_grads i ;;
    c <- gets (AllClose a n atol rtol) ;;
    if negb c then ret (failed_input_indices ++ [i]) else ret failed_input_indices) [].

Definition CheckDoubleBackwardComputationImpl (func : Func)
    (inputs grad_outputs grad_grad_inputs eps : list Array)
    (atol rtol : Q) (graph_id : option GraphId) : M unit :=
  first <- front inputs ;;
  actual_graph_id <- GetArrayGraphId first graph_id ;;
  let nin := length inputs in
  let nout := length grad_outputs in
  (if bool_decide (length grad_grad_inputs ≠ nin)
   then throw XchainerError MsgGradGradInputsCount
   else ret tt) ;;
  (* Check all the input arrays require gradients *)
  check_inputs_differentiable inputs nin actual_graph_id ;;
  (* Check all the output gradient arrays require gradients *)
  check_grad_outputs_differentiable grad_outputs nout actual_graph_id ;;
  (* Merge inputs and grad_outputs into inputs_and_grad_outputs. *)
  let inputs_and_grad_outputs := inputs ++ grad_outputs in
  (* Compute second order numerical gradients w.r.t. the first-order gradients. *)
  numerical_grads <-
    CalculateNumericalGradient (first_order_grad_func func nin nout actual_graph_id)
      inputs_and_grad_outputs grad_grad_inputs eps ;;
  assert (bool_decide (length numerical_grads = nin + nout))
    "numerical_grads.size() == nin + nout" ;;
  (* Compute second order backward gradients w.r.t. the first-order gradients. *)
  backward_grads <-
    BackwardGradients (first_order_grad_func func nin nout actual_graph_id)
      inputs_and_grad_outputs (Some grad_grad_inputs) actual_graph_id kEnable ;;
  assert (bool_decide (length backward_grads = nin + nout))
    "backward_grads.size() == nin + nout" ;;
  (* Check if all the second order gradients exist *)
  check_second_order_exist backward_grads nin nout actual_graph_id ;;
  (* Check numerical consistency between numerical and backward gradients. *)
  failed_input_indices <- collect_failed_double backward_grads numerical_grads atol rtol ;;
  raise_numerical_error true (length inputs) failed_input_indices backward_grads
    numerical_grads eps actual_graph_id atol rtol.

(** ** [CheckDoubleBackwardComputation]

    C++ leaves the order in which the two arguments are isolated open; the
    inputs are taken first here. *)

Definition CheckDoubleBackwardComputation (func : Func)
    (inputs grad_outputs grad_grad_inputs eps : list Array)
    (atol rtol : Q) (graph_id : option GraphId) : M unit :=
  r <- ArrayBodyLeakDetectionScope [] (
         inputs_disconnected <- DisconnectInputArrays inputs ;;
         grad_outputs_disconnected <- DisconnectInputArrays grad_outputs ;;
         CheckDoubleBackwardComputationImpl func inputs_disconnected grad_outputs_disconnected
           grad_grad_inputs eps atol rtol graph_id) ;;
  CheckAllArrayBodiesFreed (snd r).

End CheckBackward.

(** ** What the loops of the checks compute *)

(** Index [i] has an analytic gradient that is not close to the numerical one. *)
Definition fails_all_close `{Collaborators} (backward_grads : list (option Array))
    (numerical_grads : list Array) (atol rtol : Q) (w : World) (i : nat) : bool :=
  match backward_grads !! i, numerical_grads !! i with
  | Some (Some a), Some n => negb (AllClose a n atol rtol w)
  | _, _ => false
  end.

Definition failed_indices `{Collaborators} (backward_grads : list (option Array))
    (numerical_grads : list Array) (atol rtol : Q) (w : World) : list nat :=
  filter (fun i => fails_all_close backward_grads numerical_grads atol rtol w i = true)
    (seq 0 (length backward_grads)).

(** Index [i] has a gradient whose [IsGradRequired] is not [expect]. *)
Definition connectivity_failure (grads : list (option Array)) (g : GraphId) (expect : bool)
    (w : World) (i : nat) : bool :=
  match grads !! i with
  | Some (Some a) =>
      match bodies w !! GetArrayBody a with
      | Some b => negb (eqb (HasArrayNode b g) expect)
      | None => false
      end
  | _ => false
  end.

Definition connectivity_failures (grads : list (option Array)) (g : GraphId) (expect : bool)
    (w : World) : list nat :=
  filter (fun i => connectivity_failure grads g expect w i = true) (seq 0 (length grads)).

Definition connectivity_message (n : nat) (g : GraphId) (expect : bool) (os : string)
    (i : nat) : string :=
  os +:+ (if expect then msg_not_connected i n g else msg_connected i n g).

Definition valid_opt (w : World) (o : option Array) : Prop :=
  match o with
  | Some a => valid w a
  | None => True
  end.

(** The indices of the combined vector without a second order gradient. *)
Definition missing_indices (backward_grads : list (option Array)) : list nat :=
  filter (fun i => backward_grads !! i = Some None) (seq 0 (length backward_grads)).

(** [a] requires gradient under [g] in store [w]. *)
Definition requires_grad (w : World) (g : GraphId) (a : Array) : Prop :=
  exists b, bodies w !! GetArrayBody a = Some b /\ HasArrayNode b g = true.

#[global] Instance valid_dec w a : Decision (valid w a).
Proof. unfold valid. apply _. Defined.

#[global] Instance valid_opt_dec w o : Decision (valid_opt w o).
Proof. destruct o; simpl; apply _. Defined.

#[global] Instance requires_grad_dec w g a : Decision (requires_grad w g a).
Proof.
  unfold requires_grad. destruct (bodies w !! GetArrayBody a) as [b|] eqn:E.
  - destruct (HasArrayNode b g) eqn:E2.
    + left. eauto.
    + right. intros (b' & Hb' & Hn'). congruence.
  - right. intros (b' & Hb' & _). congruence.
Defined.

(** The class a handler sees, when the outcome is an exception. *)
Definition error_class {A} (r : Outcome A) : option ErrorClass :=
  match r with
  | Throw c _ => Some c
  | _ => None
  end.

(** The value a run returned, or [d] when it did not return. *)
Definition result_of {A} (d : A) (r : Outcome A * World) : A :=
  match fst r with
  | Ok a => a
  | _ => d
  end.

Ltac by_computation :=
  match goal with
  | |- ?P => apply (bool_decide_unpack P); vm_compute; exact I
  end.

(** ** A closeness predicate and test doubles

    The checks are exercised below against collaborators that are small
    enough to run: a backward engine that writes a prescribed gradient into
    every node of the graph, an estimator that answers a prescribed list, and
    a forward function that answers prescribed outputs. *)

(** Modelled from the spec: [AllClose] is declared in [numeric.h] and defined
    outside this translation unit.  Two arrays are close when they have as
    many elements and, elementwise, |a - b| <= atol + rtol * |b|. *)
Definition all_close_elements (xs ys : list Q) (atol rtol : Q) : bool :=
  bool_decide (length xs = length ys) &&
  forallb (fun p => Qle_bool (Qabs (fst p - snd p)) (atol + rtol * Qabs (snd p))) (zip xs ys).

Definition elements (a : Array) (w : World) : list Q :=
  match bodies w !! GetArrayBody a with
  | Some b => default [] (buffers w !! data b)
  | None => []
  end.

Definition AllCloseElements (a b : Array) (atol rtol : Q) (w : World) : bool :=
  all_close_elements (elements a w) (elements b w) atol rtol.

Definition stub_Backward (grad_of : DoubleBackpropOption -> nat -> option Array)
    (outputs : list Array) (g : GraphId) (o : DoubleBackpropOption) : M unit :=
  modify (set_bodies (map_imap (fun k b =>
            Some (set_nodes (set_node_grad g (grad_of o k) <$> nodes b) b)))).

(** The elementwise difference, in a new buffer behind a new body. *)
Definition stub_Subtract (a b : Array) : M Array :=
  ba <- deref a ;;
  bb <- deref b ;;
  d <- (fun w =>
          let id := fresh (dom (buffers w)) in
          (Ok id,
           set_buffers (insert id (zip_with Qminus (default [] (buffers w !! data ba))
                                     (default [] (buffers w !! data bb)))) w)) ;;
  new_body (mkArrayBody d (shape ba) (dtype ba) (default_graph_id ba) []).

Definition stub (grad_of : DoubleBackpropOption -> nat -> option Array) (numerical : list Array)
    (released : nat -> bool) : Collaborators :=
  {| Backward := stub_Backward grad_of;
     CalculateNumericalGradient := fun _ _ _ _ => ret numerical;
     AllClose := AllCloseElements;
     Multiply := fun a _ => AsGradStopped a kView;
     Subtract := stub_Subtract;
     expired := fun b _ => released b |}.

Definition stub_func (outputs : list Array) : Func := fun _ => ret outputs.

Definition float_body (d : nat) (ns : list ArrayNode) : ArrayBody :=
  mkArrayBody d [2] 7 "default" ns.

Definition leaf : ArrayNode := mkArrayNode "default" None None.

(** Body 0 is an input that requires gradient, 1 an array without graph, 2 a
    perturbation, 3 a gradient without graph, 4 a gradient that requires
    gradient, 5 the output of an operation, 6 a seed that requires gradient. *)
Definition sample_world : World :=
  mkWorld
    (list_to_map [(0, float_body 0 [leaf]); (1, float_body 1 []); (2, float_body 2 []);
                  (3, float_body 3 []); (4, float_body 4 [leaf]);
                  (5, float_body 5 [mkArrayNode "default" (Some 0) None]);
                  (6, float_body 6 [leaf])])
    (list_to_map [(0, [1; 2]%Q); (1, [1; 1]%Q); (2, [1 # 1000; 1 # 1000]%Q);
                  (3, [2; 4]%Q); (4, [2; 4]%Q); (5, [0; 0]%Q); (6, [1; 1]%Q)])
    None [].

Definition grads_first_order (o : DoubleBackpropOption) (k : nat) : option Array :=
  match o with
  | kDisable => Some (mkArray 3)
  | kEnable => Some (mkArray 4)
  end.

(** An engine that leaves the seed (body 6) without gradient. *)
Definition grads_without_seed (o : DoubleBackpropOption) (k : nat) : option Array :=
  if bool_decide (k = 6) then None else Some (mkArray 4).

(** ** What the remaining loops compute *)

(** The gradient slot of a body under a graph; none without a node. *)
Definition grad_slot (b : ArrayBody) (g : GraphId) : option Array :=
  match GetArrayNode b g with
  | Some n => grad n
  | None => None
  end.

(** The body after [ClearGrad] under [g]. *)
Definition clear_grad_body (g : GraphId) (b : ArrayBody) : ArrayBody :=
  set_nodes (set_node_grad g None <$> nodes b) b.

(** A store like [sample_world] in which the gradient without graph (body 3)
    has three elements, and one in which it has another dtype. *)
Definition shape_world : World :=
  set_bodies (insert 3 (mkArrayBody 3 [3] 7 "default" [])) sample_world.

Definition dtype_world : World :=
  set_bodies (insert 3 (mkArrayBody 3 [2] 8 "default" [])) sample_world.

(** The gradients before index [i] that exist have the shape and the dtype of
    their inputs. *)
Definition shapes_agree_before (inputs : list Array) (bgs : list (option Array)) (w : World)
    (i : nat) : Prop :=
  forall k bg input gb ib,
    k < i -> bgs !! k = Some (Some bg) -> inputs !! k = Some input ->
    bodies w !! GetArrayBody bg = Some gb -> bodies w !! GetArrayBody input = Some ib ->
    shape gb = shape ib /\ dtype gb = dtype ib.

(** A store like [sample_world] in which the input (body 0) still carries a
    gradient of an earlier backward pass, and body 5 is an output that
    requires gradient. *)
Definition stale_world : World :=
  set_bodies (insert 0 (float_body 0 [mkArrayNode "default" None (Some (mkArray 3))]))
    sample_world.

(** ** Reasoning about the monad *)

Lemma bind_ok {A B} (m : M A) (k : A -> M B) w a w' :
  m w = (Ok a, w') -> bind m k w = k a w'.
Proof. intros E. unfold bind. now rewrite E. Qed.

Lemma bind_throw {A B} (m : M A) (k : A -> M B) w c e w' :
  m w = (Throw c e, w') -> bind m k w = (Throw c e, w').
Proof. intros E. unfold bind. now rewrite E. Qed.

Lemma bind_stop {A B} (m : M A) (k : A -> M B) w f w' :
  m w = (Stop f, w') -> bind m k w = (Stop f, w').
Proof. intros E. unfold bind. now rewrite E. Qed.

Lemma bind_ret {A B} (a : A) (k : A -> M B) w : bind (ret a) k w = k a w.
Proof. reflexivity. Qed.

Lemma bind_inv_ok {A B} (m : M A) (k : A -> M B) w r w' :
  bind m k w = (Ok r, w') -> exists a w1, m w = (Ok a, w1) /\ k a w1 = (Ok r, w').
Proof.
  unfold bind. destruct (m w) as [[a| c e |f] w1]; try discriminate. eauto.
Qed.

Ltac step H := first [ rewrite (bind_ok _ _ _ _ _ H) | rewrite (bind_throw _ _ _ _ _ _ H)
                     | rewrite (bind_stop _ _ _ _ _ H) ].

Lemma deref_ok a b w : bodies w !! GetArrayBody a = Some b -> deref a w = (Ok b, w).
Proof. intros E. unfold deref. now rewrite E. Qed.

Lemma IsGradRequired_ok a b g w :
  bodies w !! GetArrayBody a = Some b -> IsGradRequired a g w = (Ok (HasArrayNode b g), w).
Proof. intros E. unfold IsGradRequired. now rewrite (bind_ok _ _ _ _ _ (deref_ok _ _ _ E)). Qed.

Lemma at_ok {A} (v : list A) i x w : v !! i = Some x -> at_ v i w = (Ok x, w).
Proof. intros E. unfold at_. now rewrite E. Qed.

(** ** Loops of checks that only read the store *)

(** A range-based loop of such checks returns when every check does, and
    otherwise raises what the first failing check raises. *)
Lemma for_each_checks {A} (P : Message -> Prop) (c : ErrorClass) (l : list A)
    (f : A -> M unit) (w : World) :
  (forall x, x ∈ l -> f x w = (Ok tt, w) \/ exists e, f x w = (Throw c e, w) /\ P e) ->
  (for_each l f w = (Ok tt, w) /\ Forall (fun x => f x w = (Ok tt, w)) l) \/
  (exists e, for_each l f w = (Throw c e, w) /\ P e /\ Exists (fun x => f x w = (Throw c e, w)) l).
Proof.
  induction l as [|x l IH]; intros Hf; simpl.
  - left. split; [reflexivity | constructor].
  - destruct (Hf x) as [Hx | (e & Hx & He)]; [left | | ].
    + destruct IH as [[IH1 IH2] | (e & IH1 & IH2 & IH3)].
      * intros y Hy. apply Hf. now right.
      * left. step Hx. split; [exact IH1 | now constructor].
      * right. exists e. step Hx. split; [exact IH1 | split; [exact IH2 | now apply Exists_cons_tl]].
    + right. exists e. step Hx. split; [reflexivity | split; [exact He | now apply Exists_cons_hd]].
Qed.

Lemma for_range_checks (P : Message -> Prop) (c : ErrorClass) (count from : nat)
    (f : nat -> M unit) (w : World) :
  (forall i, from <= i < from + count ->
     f i w = (Ok tt, w) \/ exists e, f i w = (Throw c e, w) /\ P e) ->
  (for_range from count f w = (Ok tt, w) /\
     forall i, from <= i < from + count -> f i w = (Ok tt, w)) \/
  (exists e, for_range from count f w = (Throw c e, w) /\ P e /\
     exists i, from <= i < from + count /\ f i w = (Throw c e, w)).
Proof.
  revert from. induction count as [|n IH]; intros from Hf; simpl.
  - left. split; [reflexivity | lia].
  - destruct (Hf from) as [Hx | (e & Hx & He)]; [lia | | ].
    + destruct (IH (S from)) as [[IH1 IH2] | (e & IH1 & IH2 & i & Hi & IH3)].
      * intros i Hi. apply Hf. lia.
      * left. step Hx. split; [exact IH1 |].
        intros i Hi. destruct (decide (i = from)) as [-> | Hne]; [exact Hx | apply IH2; lia].
      * right. exists e. step Hx. split; [exact IH1 | split; [exact IH2 |]].
        exists i. split; [lia | exact IH3].
    + right. exists e. step Hx. split; [reflexivity | split; [exact He |]].
      exists from. split; [lia | exact Hx].
Qed.

(** A loop that threads a local variable through steps that only read the
    store computes a left fold over the indices. *)
Lemma fold_range_pure {St} (step : nat -> St -> St) (count from : nat)
    (f : nat -> St -> M St) (s : St) (w : World) :
  (forall i s, from <= i < from + count -> f i s w = (Ok (step i s), w)) ->
  fold_range from count f s w = (Ok (foldl (fun s i => step i s) s (seq from count)), w).
Proof.
  revert from s. induction count as [|n IH]; intros from s Hf; simpl; [reflexivity |].
  rewrite (bind_ok _ _ _ _ _ (Hf from s ltac:(lia))).
  apply IH. intros i s' Hi. apply Hf. lia.
Qed.

Lemma foldl_filter {St A} (p : A -> bool) (h : St -> A -> St) (l : list A) (s : St) :
  foldl (fun s i => if p i then h s i else s) s l = foldl h s (filter (fun i => p i = true) l).
Proof.
  revert s. induction l as [|x l IH]; intros s; simpl; [reflexivity |].
  rewrite filter_cons. destruct (p x) eqn:E.
  - rewrite decide_True by reflexivity. simpl. apply IH.
  - rewrite decide_False by discriminate. apply IH.
Qed.

Lemma foldl_snoc {A} (l : list A) (s : list A) :
  foldl (fun s i => s ++ [i]) s l = s ++ l.
Proof.
  revert s. induction l as [|x l IH]; intros s; simpl; [now rewrite app_nil_r |].
  rewrite IH, <- app_assoc. reflexivity.
Qed.

Lemma transform_pure {A B} (g : A -> B) (l : list A) (f : A -> M B) (w : World) :
  (forall x, x ∈ l -> f x w = (Ok (g x), w)) ->
  transform l f w = (Ok (g <$> l), w).
Proof.
  induction l as [|x l IH]; intros Hf; simpl; [reflexivity |].
  rewrite (bind_ok _ _ _ _ _ (Hf x ltac:(now left))).
  rewrite (bind_ok _ _ _ _ _ (IH ltac:(intros y Hy; apply Hf; now right))).
  reflexivity.
Qed.

(** ** Graph nodes of a body *)

Lemma GetArrayNode_Some b g n :
  GetArrayNode b g = Some n -> n ∈ nodes b /\ graph_id n = g.
Proof.
  unfold GetArrayNode. intros E. apply find_some in E as [E1 E2].
  apply bool_decide_eq_true in E2. split; [now apply list_elem_of_In | exact E2].
Qed.

Lemma HasArrayNode_true b g : HasArrayNode b g = true <-> g ∈ graph_id <$> nodes b.
Proof.
  unfold HasArrayNode. rewrite bool_decide_eq_true. split.
  - intros [n E]. apply GetArrayNode_Some in E as [E1 <-]. now apply list_elem_of_fmap_2.
  - intros E. apply list_elem_of_fmap in E as (n & -> & E).
    unfold GetArrayNode. destruct (find _ (nodes b)) eqn:F; [eauto |].
    apply list_elem_of_In in E. eapply find_none in F; [| exact E].
    now rewrite bool_decide_eq_false in F.
Qed.

Lemma HasArrayNode_ext b b' g :
  (g ∈ graph_id <$> nodes b' <-> g ∈ graph_id <$> nodes b) ->
  HasArrayNode b' g = HasArrayNode b g.
Proof.
  intros E. destruct (HasArrayNode b g) eqn:Hb.
  - apply HasArrayNode_true, E, HasArrayNode_true, Hb.
  - destruct (HasArrayNode b' g) eqn:Hb'; [| reflexivity].
    apply HasArrayNode_true, E, HasArrayNode_true in Hb'. congruence.
Qed.

Lemma require_all_graphs gs ns g :
  g ∈ graph_id <$> require_all gs ns <-> g ∈ graph_id <$> ns \/ g ∈ gs.
Proof.
  revert ns. induction gs as [|h gs IH]; intros ns; simpl.
  - rewrite elem_of_nil. tauto.
  - rewrite IH, elem_of_cons. unfold require_grad_nodes. case_bool_decide as Hh.
    + split; [tauto |]. intros [E | [-> | E]]; tauto.
    + rewrite fmap_app, elem_of_app. simpl. rewrite list_elem_of_singleton. tauto.
Qed.

Lemma require_all_leaves gs ns :
  Forall (fun n => next_op_node n = None) ns ->
  Forall (fun n => next_op_node n = None) (require_all gs ns).
Proof.
  revert ns. induction gs as [|h gs IH]; intros ns Hns; simpl; [exact Hns |].
  apply IH. unfold require_grad_nodes. case_bool_decide; [exact Hns |].
  apply Forall_app. split; [exact Hns | now repeat constructor].
Qed.

Lemma set_nodes_id b : set_nodes (nodes b) b = b.
Proof. now destruct b. Qed.

(** ** [DisconnectInputArrays] *)

(** The inner loop attaches to the view a leaf node for every graph of the
    original and touches nothing else. *)
Lemma for_each_RequireGrad (ns : list ArrayNode) (id : nat) (b' : ArrayBody) (w : World) :
  bodies w !! id = Some b' ->
  exists w',
    for_each ns (fun arr_node => RequireGrad (mkArray id) (graph_id arr_node)) w = (Ok tt, w') /\
    bodies w' = <[id := set_nodes (require_all (graph_id <$> ns) (nodes b')) b']> (bodies w) /\
    buffers w' = buffers w /\ leak_tracker w' = leak_tracker w /\
    backprop_mode_stack w' = backprop_mode_stack w.
Proof.
  revert b' w. induction ns as [|n ns IH]; intros b' w Hb; simpl.
  - exists w. rewrite set_nodes_id, insert_id by exact Hb. tauto.
  - unfold RequireGrad at 1.
    rewrite (bind_ok _ _ _ _ _ (bind_ok _ _ _ _ _ (deref_ok (mkArray id) _ _ Hb))).
    unfold store, modify. simpl.
    set (b1 := set_nodes (require_grad_nodes (graph_id n) (nodes b')) b').
    destruct (IH b1 (set_bodies (insert id b1) w)) as (w' & E1 & E2 & E3 & E4 & E5).
    { simpl. apply lookup_insert_eq. }
    exists w'. split; [exact E1 |]. simpl in *.
    rewrite E2, insert_insert_eq. tauto.
Qed.

Lemma disconnect_one (input : Array) (b : ArrayBody) (w : World) :
  bodies w !! GetArrayBody input = Some b ->
  let id := fresh (dom (bodies w)) in
  exists w',
    (a <- AsGradStopped input kView ;;
     b <- deref input ;;
     for_each (nodes b) (fun arr_node => RequireGrad a (graph_id arr_node)) ;;
     ret a) w = (Ok (mkArray id), w') /\
    bodies w !! id = None /\
    bodies w' =
      <[id := mkArrayBody (data b) (shape b) (dtype b) (default_graph_id b)
                (require_all (graph_id <$> nodes b) [])]> (bodies w) /\
    buffers w' = buffers w /\
    leak_tracker w' = (fun t => t ++ [id]) <$> leak_tracker w /\
    backprop_mode_stack w' = backprop_mode_stack w.
Proof.
  intros Hb id.
  assert (Hfresh : bodies w !! id = None).
  { apply not_elem_of_dom. apply is_fresh. }
  assert (Hne : id <> GetArrayBody input) by (intros E; rewrite E in Hfresh; congruence).
  set (nb := mkArrayBody (data b) (shape b) (dtype b) (default_graph_id b) []).
  set (w1 := set_leak_tracker ((fun t => t ++ [id]) <$> leak_tracker w)
               (set_bodies (insert id nb) w)).
  assert (E1 : AsGradStopped input kView w = (Ok (mkArray id), w1)).
  { unfold AsGradStopped. rewrite (bind_ok _ _ _ _ _ (deref_ok _ _ _ Hb)). reflexivity. }
  assert (E2 : deref input w1 = (Ok b, w1)).
  { apply deref_ok. simpl. now rewrite lookup_insert_ne. }
  destruct (for_each_RequireGrad (nodes b) id nb w1) as (w' & E3 & E4 & E5 & E6 & E7).
  { simpl. apply lookup_insert_eq. }
  exists w'. rewrite (bind_ok _ _ _ _ _ E1), (bind_ok _ _ _ _ _ E2), (bind_ok _ _ _ _ _ E3).
  split; [reflexivity |]. split; [exact Hfresh |]. simpl in *.
  rewrite E4, insert_insert_eq. tauto.
Qed.

Lemma disconnected_view_weaken (w w1 w' : World) (input view : Array) :
  bodies w ⊆ bodies w1 -> bodies w1 ⊆ bodies w' -> valid w input ->
  disconnected_view w1 w' input view -> disconnected_view w w' input view.
Proof.
  intros S1 S2 [b0 Hb0] (b & b' & H1 & H2 & H3 & H4).
  exists b, b'. pose proof (lookup_weaken _ _ _ _ Hb0 S1) as Hb1.
  assert (b0 = b) as -> by congruence.
  split; [exact Hb0 |]. split; [exact H2 |]. split; [| exact H4].
  destruct (bodies w !! GetArrayBody view) eqn:E; [| reflexivity].
  pose proof (lookup_weaken _ _ _ _ E S1). congruence.
Qed.

Lemma disconnected_views_weaken (w w1 w' : World) (inputs views : list Array) :
  bodies w ⊆ bodies w1 -> bodies w1 ⊆ bodies w' -> Forall (valid w) inputs ->
  Forall2 (disconnected_view w1 w') inputs views ->
  Forall2 (disconnected_view w w') inputs views.
Proof.
  intros S1 S2 Hv HF. induction HF as [|a v l l' Hav HF IHF]; [constructor |].
  apply Forall_cons in Hv as [Ha Hv].
  constructor; [eapply disconnected_view_weaken; eauto | now apply IHF].
Qed.

Lemma disconnected_views_new (w w' : World) (inputs views : list Array) :
  Forall2 (disconnected_view w w') inputs views ->
  Forall (fun v => bodies w !! GetArrayBody v = None) views.
Proof.
  intros HF. induction HF as [|a v l l' Hav HF IHF]; constructor; [| exact IHF].
  destruct Hav as (b & b' & _ & _ & Hnew & _). exact Hnew.
Qed.

Lemma disconnected_views_valid (w w' : World) (inputs views : list Array) :
  Forall2 (disconnected_view w w') inputs views -> Forall (valid w') views.
Proof.
  intros HF. induction HF as [|a v l l' Hav HF IHF]; constructor; [| exact IHF].
  destruct Hav as (b & b' & _ & Hb' & _). now exists b'.
Qed.

Lemma DisconnectInputArrays_views (inputs : list Array) (w : World) :
  Forall (valid w) inputs ->
  exists views w',
    DisconnectInputArrays inputs w = (Ok views, w') /\
    Forall2 (disconnected_view w w') inputs views /\
    NoDup views /\
    bodies w ⊆ bodies w' /\
    buffers w' = buffers w /\
    backprop_mode_stack w' = backprop_mode_stack w.
Proof.
  revert w. induction inputs as [|x inputs IH]; intros w Hv.
  - exists [], w. repeat split; [constructor | constructor | reflexivity].
  - apply Forall_cons in Hv as [[b Hb] Hv].
    destruct (disconnect_one x b w Hb) as (w1 & E1 & Hfresh & Hb1 & Hbuf1 & _ & Hst1).
    set (id := fresh (dom (bodies w))) in *.
    assert (S1 : bodies w ⊆ bodies w1) by (rewrite Hb1; now apply insert_subseteq).
    destruct (IH w1) as (views & w' & E2 & HF & Hnd & S2 & Hbuf2 & Hst2).
    { eapply Forall_impl; [exact Hv |]. intros a [ba Ha]. exists ba. eapply lookup_weaken; eauto. }
    exists (mkArray id :: views), w'.
    unfold DisconnectInputArrays in *. simpl.
    rewrite (bind_ok _ _ _ _ _ E1), (bind_ok _ _ _ _ _ E2).
    split; [reflexivity |]. split; [| split; [| split; [| split]]].
    + constructor; [| eapply disconnected_views_weaken; eauto].
      exists b, (mkArrayBody (data b) (shape b) (dtype b) (default_graph_id b)
                   (require_all (graph_id <$> nodes b) [])).
      split; [exact Hb |]. split.
      { eapply lookup_weaken; [| exact S2]. rewrite Hb1. apply lookup_insert_eq. }
      split; [exact Hfresh |]. simpl. repeat split.
      { apply require_all_leaves. constructor. }
      { intros g. apply HasArrayNode_ext. simpl. rewrite require_all_graphs.
        rewrite fmap_nil, elem_of_nil. tauto. }
    + apply NoDup_cons. split; [| exact Hnd].
      intros Hin. apply disconnected_views_new in HF.
      rewrite Forall_forall in HF. specialize (HF _ Hin). simpl in HF.
      rewrite Hb1, lookup_insert_eq in HF. discriminate.
    + etrans; eauto.
    + congruence.
    + congruence.
Qed.

(** ** [BackwardGradients]: the checks before the backward pass *)

Lemma is_non_leaf_true b g n :
  GetArrayNode b g = Some n -> is_Some (next_op_node n) -> is_non_leaf b g = true.
Proof.
  intros E Hn. unfold is_non_leaf, HasArrayNode, has_next_op_node. rewrite E.
  rewrite !bool_decide_eq_true_2; eauto.
Qed.

Lemma check_leaves_spec (inputs : list Array) (g : GraphId) (w : World) :
  Forall (valid w) inputs ->
  (check_leaves inputs g w = (Ok tt, w) /\
   Forall (fun a => exists b, bodies w !! GetArrayBody a = Some b /\ is_non_leaf b g = false) inputs) \/
  (check_leaves inputs g w = (Throw GradientCheckError MsgNotLeaf, w) /\
   Exists (fun a => exists b, bodies w !! GetArrayBody a = Some b /\ is_non_leaf b g = true) inputs).
Proof.
  intros Hv. rewrite Forall_forall in Hv.
  assert (Hstep : forall a b, bodies w !! GetArrayBody a = Some b ->
    (input_body <- deref a ;;
     if is_non_leaf input_body g then throw GradientCheckError MsgNotLeaf else ret tt) w =
    if is_non_leaf b g then (Throw GradientCheckError MsgNotLeaf, w) else (Ok tt, w)).
  { intros a b Hb. rewrite (bind_ok _ _ _ _ _ (deref_ok _ _ _ Hb)). now destruct (is_non_leaf b g). }
  unfold check_leaves.
  destruct (for_each_checks (fun e => e = MsgNotLeaf) GradientCheckError inputs
              (fun input => input_body <- deref input ;;
                 if is_non_leaf input_body g then throw GradientCheckError MsgNotLeaf else ret tt) w)
    as [[E1 E2] | (e & E1 & -> & E2)].
  - intros a Ha. destruct (Hv a Ha) as [b Hb]. rewrite (Hstep a b Hb).
    destruct (is_non_leaf b g); eauto.
  - left. split; [exact E1 |]. rewrite Forall_forall in *. intros a Ha.
    destruct (Hv a Ha) as [b Hb]. exists b. split; [exact Hb |].
    specialize (E2 a Ha). rewrite (Hstep a b Hb) in E2. now destruct (is_non_leaf b g).
  - right. split; [exact E1 |]. rewrite Exists_exists in *. destruct E2 as (a & Ha & E2).
    exists a. split; [exact Ha |]. destruct (Hv a Ha) as [b Hb]. exists b. split; [exact Hb |].
    rewrite (Hstep a b Hb) in E2. now destruct (is_non_leaf b g).
Qed.

Lemma check_leaves_non_leaf (inputs : list Array) (g : GraphId) (w : World) :
  Forall (valid w) inputs ->
  Exists (fun a => exists b, bodies w !! GetArrayBody a = Some b /\ is_non_leaf b g = true) inputs ->
  check_leaves inputs g w = (Throw GradientCheckError MsgNotLeaf, w).
Proof.
  intros Hv Hex. destruct (check_leaves_spec inputs g w Hv) as [[_ E] | [E _]]; [| exact E].
  rewrite Exists_exists in Hex. destruct Hex as (a & Ha & b & Hb & Hn).
  rewrite Forall_forall in E. destruct (E a Ha) as (b' & Hb' & Hn'). congruence.
Qed.

Lemma check_leaves_leaves (inputs : list Array) (g : GraphId) (w : World) :
  Forall (fun a => exists b, bodies w !! GetArrayBody a = Some b /\ is_non_leaf b g = false) inputs ->
  check_leaves inputs g w = (Ok tt, w).
Proof.
  intros Hl. destruct (check_leaves_spec inputs g w) as [[E _] | [_ E]]; [| exact E |].
  - eapply Forall_impl; [exact Hl |]. intros a (b & Hb & _). now exists b.
  - rewrite Exists_exists in E. destruct E as (a & Ha & b & Hb & Hn).
    rewrite Forall_forall in Hl. destruct (Hl a Ha) as (b' & Hb' & Hn'). congruence.
Qed.

(** One body of the inner loop of the aliasing check. *)
Lemma identical_step (inputs outputs : list Array) (g : GraphId) (w : World) (i j : nat) a o b :
  inputs !! i = Some a -> outputs !! j = Some o -> bodies w !! GetArrayBody a = Some b ->
  (input <- at_ inputs i ;;
   output <- at_ outputs j ;;
   if bool_decide (GetArrayBody input = GetArrayBody output)
   then r <- IsGradRequired input g ;;
        if r then throw GradientCheckError (MsgIdentical i j) else ret tt
   else ret tt) w =
  if bool_decide (GetArrayBody a = GetArrayBody o) && HasArrayNode b g
  then (Throw GradientCheckError (MsgIdentical i j), w) else (Ok tt, w).
Proof.
  intros Ha Ho Hb.
  rewrite (bind_ok _ _ _ _ _ (at_ok _ _ _ _ Ha)), (bind_ok _ _ _ _ _ (at_ok _ _ _ _ Ho)).
  case_bool_decide; simpl; [| reflexivity].
  rewrite (bind_ok _ _ _ _ _ (IsGradRequired_ok _ _ g _ Hb)).
  now destruct (HasArrayNode b g).
Qed.

Lemma check_identical_spec (inputs outputs : list Array) (g : GraphId) (w : World) :
  Forall (valid w) inputs ->
  (check_identical inputs outputs g w = (Ok tt, w) /\
   forall i j, ~ identical_pair inputs outputs g w i j) \/
  (exists i j, check_identical inputs outputs g w = (Throw GradientCheckError (MsgIdentical i j), w) /\
   identical_pair inputs outputs g w i j).
Proof.
  intros Hv. rewrite Forall_forall in Hv. unfold check_identical.
  set (inner := fun i j =>
    (input <- at_ inputs i ;;
     output <- at_ outputs j ;;
     if bool_decide (GetArrayBody input = GetArrayBody output)
     then r <- IsGradRequired input g ;;
          if r then throw GradientCheckError (MsgIdentical i j) else ret tt
     else ret tt)).
  assert (Hinner : forall i j, i < length inputs -> j < length outputs ->
    (inner i j w = (Ok tt, w) /\ ~ identical_pair inputs outputs g w i j) \/
    (inner i j w = (Throw GradientCheckError (MsgIdentical i j), w) /\
     identical_pair inputs outputs g w i j)).
  { intros i j Hi Hj.
    destruct (lookup_lt_is_Some_2 inputs i Hi) as [a Ha].
    destruct (lookup_lt_is_Some_2 outputs j Hj) as [o Ho].
    destruct (Hv a ltac:(eapply list_elem_of_lookup_2; eauto)) as [b Hb].
    unfold inner. rewrite (identical_step inputs outputs g w i j a o b Ha Ho Hb).
    destruct (bool_decide (GetArrayBody a = GetArrayBody o) && HasArrayNode b g) eqn:E.
    - right. split; [reflexivity |]. apply andb_true_iff in E as [E1 E2].
      apply bool_decide_eq_true in E1. exists a, o, b. tauto.
    - left. split; [reflexivity |]. intros (a' & o' & b' & Ha' & Ho' & E1 & Hb' & E2).
      assert (a' = a) as -> by congruence. assert (o' = o) as -> by congruence.
      assert (b' = b) as -> by congruence.
      rewrite E2, bool_decide_eq_true_2 in E by exact E1. discriminate. }
  assert (Hrow : forall i, i < length inputs ->
    (for_range 0 (length outputs) (inner i) w = (Ok tt, w) /\
     forall j, ~ identical_pair inputs outputs g w i j) \/
    (exists j, for_range 0 (length outputs) (inner i) w =
                 (Throw GradientCheckError (MsgIdentical i j), w) /\
     identical_pair inputs outputs g w i j)).
  { intros i Hi.
    destruct (for_range_checks
                (fun e => exists j, e = MsgIdentical i j /\ identical_pair inputs outputs g w i j)
                GradientCheckError (length outputs) 0 (inner i) w)
      as [[E1 E2] | (e & E1 & (j & -> & Hp) & _)].
    - intros j Hj. destruct (Hinner i j Hi ltac:(lia)) as [[E _] | [E Hp]]; eauto 6.
    - left. split; [exact E1 |]. intros j Hp.
      assert (Hj : j < length outputs).
      { destruct Hp as (_ & o & _ & _ & Ho & _). eapply lookup_lt_Some; eauto. }
      destruct (Hinner i j Hi Hj) as [[_ Hn] | [E _]]; [tauto |].
      rewrite E2 in E by lia. discriminate.
    - right. eauto. }
  destruct (for_range_checks
              (fun e => exists i j, e = MsgIdentical i j /\ identical_pair inputs outputs g w i j)
              GradientCheckError (length inputs) 0
              (fun i => for_range 0 (length outputs) (inner i)) w)
    as [[E1 E2] | (e & E1 & (i & j & -> & Hp) & _)].
  - intros i Hi. destruct (Hrow i ltac:(lia)) as [[E _] | (j & E & Hp)]; eauto 7.
  - left. split; [exact E1 |]. intros i j Hp.
    assert (Hi : i < length inputs).
    { destruct Hp as (a & _ & _ & Ha & _). eapply lookup_lt_Some; eauto. }
    destruct (Hrow i Hi) as [[_ Hn] | (j' & E & _)]; [now apply (Hn j) |].
    rewrite E2 in E by lia. discriminate.
  - right. eauto.
Qed.

Lemma IsGradRequired_inv a g w r w' :
  IsGradRequired a g w = (Ok r, w') ->
  exists b, bodies w !! GetArrayBody a = Some b /\ r = HasArrayNode b g /\ w' = w.
Proof.
  unfold IsGradRequired, bind, deref. destruct (bodies w !! GetArrayBody a) as [b|] eqn:E.
  - intros [= <- <-]. eauto.
  - discriminate.
Qed.

Section BackwardGradientsChecks.
Context `{Collaborators}.

Lemma BackwardGradients_non_leaf (func : Func) inputs grad_outputs g double_backprop w :
  Forall (valid w) inputs ->
  Exists (fun a => exists b, bodies w !! GetArrayBody a = Some b /\ is_non_leaf b g = true) inputs ->
  BackwardGradients func inputs grad_outputs g double_backprop w =
    (Throw GradientCheckError MsgNotLeaf, w).
Proof.
  intros Hv Hex. unfold BackwardGradients.
  now rewrite (bind_throw _ _ _ _ _ _ (check_leaves_non_leaf inputs g w Hv Hex)).
Qed.

Lemma BackwardGradients_identical (func : Func) inputs grad_outputs g double_backprop w
    outputs w1 i j :
  Forall (fun a => exists b, bodies w !! GetArrayBody a = Some b /\ is_non_leaf b g = false) inputs ->
  func inputs w = (Ok outputs, w1) ->
  Forall (valid w1) inputs ->
  identical_pair inputs outputs g w1 i j ->
  exists i' j',
    BackwardGradients func inputs grad_outputs g double_backprop w =
      (Throw GradientCheckError (MsgIdentical i' j'), w1) /\
    identical_pair inputs outputs g w1 i' j'.
Proof.
  intros Hl Hf Hv Hp. unfold BackwardGradients.
  rewrite (bind_ok _ _ _ _ _ (check_leaves_leaves inputs g w Hl)), (bind_ok _ _ _ _ _ Hf).
  destruct (check_identical_spec inputs outputs g w1 Hv) as [[_ Hn] | (i' & j' & E & Hp')].
  - now destruct (Hn i j).
  - exists i', j'. now rewrite (bind_throw _ _ _ _ _ _ E).
Qed.

Lemma BackwardGradients_size_mismatch (func : Func) inputs gos g double_backprop w outputs w1 :
  Forall (fun a => exists b, bodies w !! GetArrayBody a = Some b /\ is_non_leaf b g = false) inputs ->
  func inputs w = (Ok outputs, w1) ->
  Forall (valid w1) inputs ->
  (forall i j, ~ identical_pair inputs outputs g w1 i j) ->
  length outputs <> length gos ->
  BackwardGradients func inputs (Some gos) g double_backprop w =
    (Throw GradientCheckError (MsgGradOutputsSize (length outputs) (length gos)), w1).
Proof.
  intros Hl Hf Hv Hn Hlen. unfold BackwardGradients.
  rewrite (bind_ok _ _ _ _ _ (check_leaves_leaves inputs g w Hl)), (bind_ok _ _ _ _ _ Hf).
  destruct (check_identical_spec inputs outputs g w1 Hv) as [[E _] | (i' & j' & _ & Hp')].
  - rewrite (bind_ok _ _ _ _ _ E). unfold seed_outputs.
    now rewrite bool_decide_eq_true_2 by exact Hlen.
  - now destruct (Hn i' j').
Qed.

End BackwardGradientsChecks.

(** ** The comparison with the numerical gradients *)

Lemma transform_Forall2 {A B} (R : A -> B -> Prop) (l : list A) (f : A -> M B) (w : World) :
  (forall x, x ∈ l -> exists y, f x w = (Ok y, w) /\ R x y) ->
  exists ys, transform l f w = (Ok ys, w) /\ Forall2 R l ys.
Proof.
  induction l as [|x l IH]; intros Hf; simpl.
  - exists []. split; [reflexivity | constructor].
  - destruct (Hf x ltac:(now left)) as (y & Hy & Ry).
    destruct IH as (ys & Hys & Rys); [intros z Hz; apply Hf; now right |].
    exists (y :: ys). rewrite (bind_ok _ _ _ _ _ Hy), (bind_ok _ _ _ _ _ Hys).
    split; [reflexivity | now constructor].
Qed.

Section NumericalCheck.
Context `{Collaborators}.

Lemma failed_indices_spec bgs ngs atol rtol w i :
  i ∈ failed_indices bgs ngs atol rtol w <->
  exists a n, bgs !! i = Some (Some a) /\ ngs !! i = Some n /\ AllClose a n atol rtol w = false.
Proof.
  unfold failed_indices. rewrite list_elem_of_filter, elem_of_seq. unfold fails_all_close. split.
  - intros [E _]. destruct (bgs !! i) as [[a|]|]; try discriminate.
    destruct (ngs !! i) as [n|]; try discriminate.
    exists a, n. apply negb_true_iff in E. tauto.
  - intros (a & n & Ha & Hn & E). rewrite Ha, Hn, E. split; [reflexivity |].
    apply lookup_lt_Some in Ha. lia.
Qed.

Lemma collect_failed_spec bgs ngs atol rtol w :
  length bgs <= length ngs ->
  collect_failed bgs ngs atol rtol w = (Ok (failed_indices bgs ngs atol rtol w), w).
Proof.
  intros Hlen. unfold collect_failed.
  rewrite (fold_range_pure
             (fun i s => if fails_all_close bgs ngs atol rtol w i then s ++ [i] else s)).
  - rewrite foldl_filter, foldl_snoc. reflexivity.
  - intros i s Hi. unfold fails_all_close.
    destruct (lookup_lt_is_Some_2 bgs i ltac:(lia)) as [bg Hbg].
    destruct (lookup_lt_is_Some_2 ngs i ltac:(lia)) as [n Hn].
    rewrite (bind_ok _ _ _ _ _ (at_ok _ _ _ _ Hbg)), Hbg, Hn.
    destruct bg as [a|]; [| reflexivity].
    rewrite (bind_ok _ _ _ _ _ (at_ok _ _ _ _ Hn)). unfold gets, bind.
    now destruct (AllClose a n atol rtol w).
Qed.

Lemma collect_failed_double_spec bgs ngs atol rtol w :
  length bgs <= length ngs -> Forall (fun o => is_Some o) bgs ->
  collect_failed_double bgs ngs atol rtol w = (Ok (failed_indices bgs ngs atol rtol w), w).
Proof.
  intros Hlen Hall. unfold collect_failed_double.
  rewrite (fold_range_pure
             (fun i s => if fails_all_close bgs ngs atol rtol w i then s ++ [i] else s)).
  - rewrite foldl_filter, foldl_snoc. reflexivity.
  - intros i s Hi. unfold fails_all_close.
    destruct (lookup_lt_is_Some_2 bgs i ltac:(lia)) as [bg Hbg].
    destruct (lookup_lt_is_Some_2 ngs i ltac:(lia)) as [n Hn].
    rewrite (bind_ok _ _ _ _ _ (at_ok _ _ _ _ Hbg)), Hbg, Hn.
    rewrite Forall_forall in Hall.
    destruct (Hall bg ltac:(eapply list_elem_of_lookup_2; eauto)) as [a ->].
    change (value (Some a)) with (ret a). rewrite bind_ret.
    rewrite (bind_ok _ _ _ _ _ (at_ok _ _ _ _ Hn)). unfold gets, bind.
    now destruct (AllClose a n atol rtol w).
Qed.

Lemma at_inv {A} (v : list A) i w x w' : at_ v i w = (Ok x, w') -> v !! i = Some x /\ w' = w.
Proof. unfold at_. destruct (v !! i); [intros [= <- <-]; tauto | discriminate]. Qed.

Lemma value_inv {A} (o : option A) w x w' : value o w = (Ok x, w') -> o = Some x /\ w' = w.
Proof. destruct o; [intros [= <- <-]; tauto | discriminate]. Qed.

(** What a report that was built holds: one entry per index, in the order
    of the indices, with the gradients and the perturbation of that index and
    a difference that [Subtract] returned for these two gradients. *)
Lemma report_entries_inv l bgs ngs eps w entries w' :
  report_entries l bgs ngs eps w = (Ok entries, w') ->
  Forall2 (fun i en => exists d a n p wa wb,
             en = (i, d, a, n, p) /\ bgs !! i = Some (Some a) /\
             ngs !! i = Some n /\ eps !! i = Some p /\ Subtract a n wa = (Ok d, wb))
    l entries.
Proof.
  unfold report_entries. revert w entries. induction l as [|i l IH]; intros w entries; simpl.
  - intros [= <- _]. constructor.
  - intros E. apply bind_inv_ok in E as (en & w1 & E1 & E).
    apply bind_inv_ok in E as (ens & w2 & E2 & [= <- <-]).
    constructor; [| eapply IH; exact E2].
    apply bind_inv_ok in E1 as (bg & ? & Hbg & E1). apply at_inv in Hbg as [Hbg ->].
    apply bind_inv_ok in E1 as (a & ? & Ha & E1). apply value_inv in Ha as [-> ->].
    apply bind_inv_ok in E1 as (n & ? & Hn & E1). apply at_inv in Hn as [Hn ->].
    apply bind_inv_ok in E1 as (d & wb & Hd & E1).
    apply bind_inv_ok in E1 as (p0 & ? & Hp & [= <- <-]). apply at_inv in Hp as [Hp ->].
    exists d, a, n, p0, w, wb. auto 10.
Qed.

(** The last step of both comparisons: nothing happens without a failed
    index; with one, the report is built, which computes the differences, and
    the error is thrown with it; an exception or a stop while the report is
    built is the outcome. *)
Lemma raise_numerical_error_spec double nin failed bgs ngs eps g atol rtol w :
  (failed = [] ->
   raise_numerical_error double nin failed bgs ngs eps g atol rtol w = (Ok tt, w)) /\
  (failed <> [] ->
   (forall w', raise_numerical_error double nin failed bgs ngs eps g atol rtol w <> (Ok tt, w')) /\
   (forall entries w', report_entries failed bgs ngs eps w = (Ok entries, w') ->
      raise_numerical_error double nin failed bgs ngs eps g atol rtol w =
        (Throw GradientCheckError (MsgNumericalError double nin failed g atol rtol entries), w')) /\
   (forall c e w', report_entries failed bgs ngs eps w = (Throw c e, w') ->
      raise_numerical_error double nin failed bgs ngs eps g atol rtol w = (Throw c e, w')) /\
   (forall f w', report_entries failed bgs ngs eps w = (Stop f, w') ->
      raise_numerical_error double nin failed bgs ngs eps g atol rtol w = (Stop f, w'))).
Proof.
  unfold raise_numerical_error. split; intros Hf.
  - now rewrite bool_decide_eq_true_2 by exact Hf.
  - rewrite bool_decide_eq_false_2 by exact Hf. simpl. split; [| split; [| split]].
    + intros w'. unfold bind.
      destruct (report_entries failed bgs ngs eps w) as [[ys| c e |f] w1]; discriminate.
    + intros entries w' E. now rewrite (bind_ok _ _ _ _ _ E).
    + intros c e w' E. now rewrite (bind_throw _ _ _ _ _ _ E).
    + intros f w' E. now rewrite (bind_stop _ _ _ _ _ E).
Qed.

End NumericalCheck.

Lemma assert_inv b expr w r w' : assert b expr w = (Ok r, w') -> b = true /\ w' = w.
Proof. unfold assert. destruct b; [intros [= _ <-]; tauto | discriminate]. Qed.

Lemma assert_numerical_grads_length inputs ngs w r w' :
  assert_numerical_grads inputs ngs w = (Ok r, w') -> length ngs = length inputs.
Proof.
  unfold assert_numerical_grads, bind.
  destruct (assert _ _ w) as [[[]| |] w1] eqn:E; try discriminate.
  intros _. apply assert_inv in E as [E _]. now apply bool_decide_eq_true in E.
Qed.

(** The closeness predicate of the test doubles is the tolerance formula. *)
Lemma all_close_elements_spec (xs ys : list Q) (atol rtol : Q) :
  all_close_elements xs ys atol rtol = true <->
  length xs = length ys /\
  forall i x y, xs !! i = Some x -> ys !! i = Some y ->
    (Qabs (x - y) <= atol + rtol * Qabs y)%Q.
Proof.
  unfold all_close_elements. rewrite andb_true_iff, bool_decide_eq_true, forallb_forall.
  split; intros [Hlen Hall]; (split; [exact Hlen |]).
  - intros i x y Hx Hy. apply Qle_bool_iff.
    apply (Hall (x, y)). apply list_elem_of_In, elem_of_lookup_zip_with. eauto 6.
  - intros [x y] Hin. apply list_elem_of_In, elem_of_lookup_zip_with in Hin
      as (i & x' & y' & [= -> ->] & Hx & Hy).
    apply Qle_bool_iff. exact (Hall i x' y' Hx Hy).
Qed.

(** ** The connectivity loops of the toggle verification *)

Lemma append_empty (s t : string) : s +:+ t = "" -> s = "" /\ t = "".
Proof. destruct s; simpl; [tauto | discriminate]. Qed.

Lemma connectivity_message_nonempty n g expect os i :
  connectivity_message n g expect os i <> "".
Proof.
  unfold connectivity_message. intros E. apply append_empty in E as [_ E].
  destruct expect; unfold msg_not_connected, msg_connected in E;
    repeat (apply append_empty in E as [E _]); discriminate.
Qed.

Lemma connectivity_fold_empty n g expect os l :
  foldl (connectivity_message n g expect) os l = "" <-> os = "" /\ l = [].
Proof.
  split.
  - revert os. induction l as [|x l IH]; intros os E; simpl in *; [tauto |].
    apply IH in E as [E _]. now apply connectivity_message_nonempty in E.
  - intros [-> ->]. reflexivity.
Qed.

Lemma connectivity_failures_spec grads g expect w i :
  Forall (valid_opt w) grads ->
  i ∈ connectivity_failures grads g expect w <->
  exists a, grads !! i = Some (Some a) /\ IsGradRequired a g w = (Ok (negb expect), w).
Proof.
  intros Hv. unfold connectivity_failures. rewrite list_elem_of_filter, elem_of_seq.
  unfold connectivity_failure. split.
  - intros [E _]. destruct (grads !! i) as [[a|]|]; try discriminate.
    destruct (bodies w !! GetArrayBody a) as [b|] eqn:Hb; try discriminate.
    exists a. split; [reflexivity |]. rewrite (IsGradRequired_ok _ _ g _ Hb).
    now destruct (HasArrayNode b g), expect.
  - intros (a & Ha & E). apply IsGradRequired_inv in E as (b & Hb & E & _).
    rewrite Ha, Hb, <- E. split; [now destruct expect |].
    apply lookup_lt_Some in Ha. lia.
Qed.

Lemma check_connectivity_spec grads g expect os w :
  Forall (valid_opt w) grads ->
  check_connectivity grads g expect os w =
    (Ok (foldl (connectivity_message (length grads) g expect) os
           (connectivity_failures grads g expect w)), w).
Proof.
  intros Hv. unfold check_connectivity, connectivity_failures.
  rewrite (fold_range_pure
             (fun i s => if connectivity_failure grads g expect w i
                         then connectivity_message (length grads) g expect s i else s)).
  - now rewrite foldl_filter.
  - intros i s Hi. unfold connectivity_failure.
    destruct (lookup_lt_is_Some_2 grads i ltac:(lia)) as [og Hog].
    rewrite (bind_ok _ _ _ _ _ (at_ok _ _ _ _ Hog)), Hog.
    destruct og as [a|]; [| reflexivity].
    rewrite Forall_forall in Hv.
    destruct (Hv (Some a) ltac:(eapply list_elem_of_lookup_2; eauto)) as [b Hb].
    rewrite (bind_ok _ _ _ _ _ (IsGradRequired_ok _ _ g _ Hb)), Hb.
    unfold connectivity_message. now destruct expect, (HasArrayNode b g).
Qed.

(** ** The precondition loops and the existence check of the second order check *)

Lemma differentiable_loop (mk : nat -> Message) (l : list Array) (g : GraphId) (w : World) :
  Forall (valid w) l ->
  let loop := for_range 0 (length l) (fun i =>
                a <- at_ l i ;;
                r <- IsGradRequired a g ;;
                if negb r then throw XchainerError (mk i) else ret tt) in
  (loop w = (Ok tt, w) /\ Forall (requires_grad w g) l) \/
  (exists i a b, loop w = (Throw XchainerError (mk i), w) /\
     l !! i = Some a /\ bodies w !! GetArrayBody a = Some b /\ HasArrayNode b g = false).
Proof.
  intros Hv loop. rewrite Forall_forall in Hv.
  assert (Hstep : forall i a b, l !! i = Some a -> bodies w !! GetArrayBody a = Some b ->
    (a <- at_ l i ;; r <- IsGradRequired a g ;;
     if negb r then throw XchainerError (mk i) else ret tt) w =
    if HasArrayNode b g then (Ok tt, w) else (Throw XchainerError (mk i), w)).
  { intros i a b Ha Hb. rewrite (bind_ok _ _ _ _ _ (at_ok _ _ _ _ Ha)).
    rewrite (bind_ok _ _ _ _ _ (IsGradRequired_ok _ _ g _ Hb)). now destruct (HasArrayNode b g). }
  destruct (for_range_checks
              (fun e => exists i a b, e = mk i /\ l !! i = Some a /\
                          bodies w !! GetArrayBody a = Some b /\ HasArrayNode b g = false)
              XchainerError (length l) 0
              (fun i => a <- at_ l i ;; r <- IsGradRequired a g ;;
                 if negb r then throw XchainerError (mk i) else ret tt) w)
    as [[E1 E2] | (e & E1 & (i & a & b & -> & Ha & Hb & Hn) & _)].
  - intros i Hi. destruct (lookup_lt_is_Some_2 l i ltac:(lia)) as [a Ha].
    destruct (Hv a ltac:(eapply list_elem_of_lookup_2; eauto)) as [b Hb].
    rewrite (Hstep i a b Ha Hb). destruct (HasArrayNode b g) eqn:Hn; eauto 10.
  - left. split; [exact E1 |]. rewrite Forall_forall. intros a Ha.
    apply list_elem_of_lookup in Ha as [i Ha]. pose proof (lookup_lt_Some _ _ _ Ha) as Hi.
    destruct (Hv a ltac:(eapply list_elem_of_lookup_2; eauto)) as [b Hb].
    exists b. split; [exact Hb |]. specialize (E2 i ltac:(lia)).
    rewrite (Hstep i a b Ha Hb) in E2. now destruct (HasArrayNode b g).
  - right. eauto 10.
Qed.

Lemma requires_grad_valid w g l : Forall (requires_grad w g) l -> Forall (valid w) l.
Proof. intros Hr. eapply Forall_impl; [exact Hr |]. intros a (b & Hb & _). now exists b. Qed.

Lemma differentiable_loop_ok (mk : nat -> Message) (l : list Array) (g : GraphId) (w : World) :
  Forall (requires_grad w g) l ->
  for_range 0 (length l) (fun i =>
    a <- at_ l i ;;
    r <- IsGradRequired a g ;;
    if negb r then throw XchainerError (mk i) else ret tt) w = (Ok tt, w).
Proof.
  intros Hr.
  destruct (differentiable_loop mk l g w (requires_grad_valid _ _ _ Hr))
    as [[E _] | (i & a & b & _ & Ha & Hb & Hn)]; [exact E |].
  rewrite Forall_forall in Hr.
  destruct (Hr a ltac:(eapply list_elem_of_lookup_2; eauto)) as (b' & Hb' & Hn'). congruence.
Qed.

Lemma differentiable_loop_fails (mk : nat -> Message) (l : list Array) (g : GraphId) (w : World) :
  Forall (valid w) l -> ~ Forall (requires_grad w g) l ->
  exists i, for_range 0 (length l) (fun i =>
              a <- at_ l i ;;
              r <- IsGradRequired a g ;;
              if negb r then throw XchainerError (mk i) else ret tt) w =
            (Throw XchainerError (mk i), w).
Proof.
  intros Hv Hn.
  destruct (differentiable_loop mk l g w Hv) as [[_ E] | (i & _ & _ & E & _)]; [tauto | eauto].
Qed.

Lemma not_required_not_Forall w g l :
  Exists (fun a => IsGradRequired a g w = (Ok false, w)) l -> ~ Forall (requires_grad w g) l.
Proof.
  intros Hex Hall. rewrite Exists_exists in Hex. destruct Hex as (a & Ha & E).
  rewrite Forall_forall in Hall. destruct (Hall a Ha) as (b & Hb & Hn).
  rewrite (IsGradRequired_ok _ _ g _ Hb), Hn in E. discriminate.
Qed.

Lemma foldl_missing (p : nat -> bool) (xs : list nat) (l0 : list nat) (b0 : bool) :
  foldl (fun (st : list nat * bool) i => if p i then (fst st ++ [i], true) else st) (l0, b0) xs =
  (l0 ++ filter (fun i => p i = true) xs,
   b0 || negb (bool_decide (filter (fun i => p i = true) xs = []))).
Proof.
  revert l0 b0. induction xs as [|x xs IH]; intros l0 b0; simpl.
  - now rewrite app_nil_r, orb_false_r.
  - rewrite filter_cons. destruct (p x) eqn:E.
    + rewrite decide_True by reflexivity. simpl. rewrite IH, <- app_assoc. simpl.
      now rewrite orb_true_r.
    + rewrite decide_False by discriminate. apply IH.
Qed.

Lemma check_second_order_exist_spec bgs nin nout g w :
  check_second_order_exist bgs nin nout g w =
    if bool_decide (missing_indices bgs = [])
    then (Ok tt, w)
    else (Throw GradientCheckError (MsgSecondOrderMissing (missing_indices bgs) nin nout g), w).
Proof.
  unfold check_second_order_exist.
  assert (E0 : fold_range 0 (length bgs) (fun i (st : list nat * bool) =>
                 bg <- at_ bgs i ;;
                 if negb (bool_decide (is_Some bg))
                 then ret (fst st ++ [i], true)
                 else ret st) ([], false) w =
               (Ok (missing_indices bgs, negb (bool_decide (missing_indices bgs = []))), w)).
  { rewrite (fold_range_pure
               (fun i (st : list nat * bool) =>
                  if bool_decide (bgs !! i = Some None) then (fst st ++ [i], true) else st)).
    - rewrite foldl_missing. simpl.
      assert (E : filter (fun i => bool_decide (bgs !! i = Some None) = true) (seq 0 (length bgs))
                  = missing_indices bgs).
      { unfold missing_indices. apply list_filter_iff. intros i. apply bool_decide_eq_true. }
      now rewrite E.
    - intros i st Hi. destruct (lookup_lt_is_Some_2 bgs i ltac:(lia)) as [bg Hbg].
      rewrite (bind_ok _ _ _ _ _ (at_ok _ _ _ _ Hbg)), Hbg.
      destruct bg as [a|].
      + rewrite (bool_decide_eq_true_2 (is_Some (Some a))) by eauto.
        rewrite (bool_decide_eq_false_2 (Some (Some a) = Some None)) by discriminate.
        reflexivity.
      + rewrite (bool_decide_eq_false_2 (is_Some (@None Array))) by (intros [? ?]; discriminate).
        rewrite (bool_decide_eq_true_2 (Some (@None Array) = Some None)) by reflexivity.
        reflexivity. }
  rewrite (bind_ok _ _ _ _ _ E0). simpl. now case_bool_decide.
Qed.

Lemma missing_indices_spec bgs i : i ∈ missing_indices bgs <-> bgs !! i = Some None.
Proof.
  unfold missing_indices. rewrite list_elem_of_filter, elem_of_seq. split; [tauto |].
  intros E. split; [exact E |]. apply lookup_lt_Some in E. lia.
Qed.

Lemma missing_indices_nil bgs : missing_indices bgs = [] -> Forall (fun o => is_Some o) bgs.
Proof.
  intros E. rewrite Forall_forall. intros o Ho. destruct o as [a|]; [eauto |].
  apply list_elem_of_lookup in Ho as [i Hi]. apply missing_indices_spec in Hi.
  rewrite E in Hi. now apply elem_of_nil in Hi.
Qed.

(** ** Lengths of what the loops return *)

Lemma transform_length {A B} (l : list A) (f : A -> M B) w ys w' :
  transform l f w = (Ok ys, w') -> length ys = length l.
Proof.
  revert w ys w'. induction l as [|x l IH]; intros w ys w'; simpl.
  - now intros [= <- _].
  - intros E. apply bind_inv_ok in E as (y & w1 & _ & E).
    apply bind_inv_ok in E as (zs & w2 & E & [= <- _]). simpl. f_equal. exact (IH _ _ _ E).
Qed.

Lemma DisconnectInputArrays_length inputs w views w' :
  DisconnectInputArrays inputs w = (Ok views, w') -> length views = length inputs.
Proof. apply transform_length. Qed.

Lemma BackwardGradients_length `{Collaborators} (func : Func) inputs grad_outputs g
    double_backprop w bgs w' :
  BackwardGradients func inputs grad_outputs g double_backprop w = (Ok bgs, w') ->
  length bgs = length inputs.
Proof.
  unfold BackwardGradients. intros E.
  do 7 (apply bind_inv_ok in E as (? & ? & _ & E)).
  now apply transform_length in E.
Qed.

(** ** Claims about graph isolation and backward gradient extraction *)

(** C6. [DisconnectInputArrays] returns, for valid input handles, one new
    handle per input, in order; each is a view of the buffer of its input
    (same buffer, shape and dtype), has only leaf nodes, and requires
    gradient under a graph exactly when its input has a node for that graph.
    The bodies the store held are unchanged, and so are the buffers; the
    call returns normally. *)
Theorem DisconnectInputArrays_isolates (inputs : list Array) (w : World) :
  Forall (valid w) inputs ->
  exists views w',
    DisconnectInputArrays inputs w = (Ok views, w') /\
    length views = length inputs /\
    NoDup views /\
    (forall i input view, inputs !! i = Some input -> views !! i = Some view ->
       exists b b',
         bodies w !! GetArrayBody input = Some b /\
         bodies w' !! GetArrayBody view = Some b' /\
         bodies w !! GetArrayBody view = None /\
         data b' = data b /\ shape b' = shape b /\ dtype b' = dtype b /\
         Forall (fun n => next_op_node n = None) (nodes b') /\
         forall g, IsGradRequired view g w' = (Ok (HasArrayNode b g), w')) /\
    (forall k b, bodies w !! k = Some b -> bodies w' !! k = Some b) /\
    buffers w' = buffers w.
Proof.
  intros Hv.
  destruct (DisconnectInputArrays_views inputs w Hv) as (views & w' & E & HF & Hnd & Hsub & Hbuf & _).
  exists views, w'. split; [exact E |].
  split; [symmetry; eapply Forall2_length; exact HF |].
  split; [exact Hnd |]. split; [| split; [| exact Hbuf]].
  - intros i input view Hi Hview.
    destruct (Forall2_lookup_lr _ _ _ _ _ _ HF Hi Hview)
      as (b & b' & H1 & H2 & H3 & H4 & H5 & H6 & _ & H7 & H8).
    exists b, b'. repeat (split; [assumption |]).
    intros g. rewrite (IsGradRequired_ok _ _ g _ H2). now rewrite H8.
  - intros k b Hk. eapply lookup_weaken; eauto.
Qed.

Lemma DisconnectInputArrays_isolates_witness :
  exists views w',
    DisconnectInputArrays [mkArray 0; mkArray 1] sample_world = (Ok views, w') /\
    length views = 2 /\ buffers w' = buffers sample_world.
Proof.
  destruct (DisconnectInputArrays_isolates [mkArray 0; mkArray 1] sample_world)
    as (views & w' & E & Hlen & _ & _ & _ & Hbuf).
  - repeat constructor; vm_compute; eauto.
  - exists views, w'. auto.
Defined.

(** C4. When some input of [BackwardGradients] has, under the checked graph,
    a node with a producing operation, the call raises the error of the leaf
    check and leaves the store as it was.  This holds for every forward
    function and every backward engine, whatever they would do to the store:
    neither is run. *)
Theorem BackwardGradients_rejects_non_leaf `{Collaborators} (func : Func) (inputs : list Array)
    (grad_outputs : option (list Array)) (g : GraphId) (double_backprop : DoubleBackpropOption)
    (w : World) (a : Array) (b : ArrayBody) (n : ArrayNode) :
  Forall (valid w) inputs ->
  a ∈ inputs ->
  bodies w !! GetArrayBody a = Some b ->
  GetArrayNode b g = Some n ->
  is_Some (next_op_node n) ->
  BackwardGradients func inputs grad_outputs g double_backprop w =
    (Throw GradientCheckError MsgNotLeaf, w).
Proof.
  intros Hv Ha Hb Hn Hop. apply BackwardGradients_non_leaf; [exact Hv |].
  apply Exists_exists. exists a. split; [exact Ha |]. exists b. split; [exact Hb |].
  eapply is_non_leaf_true; eauto.
Qed.

Lemma BackwardGradients_rejects_non_leaf_witness :
  BackwardGradients (H := stub grads_first_order [] (fun _ => true)) (stub_func [mkArray 1])
    [mkArray 0; mkArray 5] None "default" kEnable sample_world =
    (Throw GradientCheckError MsgNotLeaf, sample_world).
Proof.
  eapply (BackwardGradients_rejects_non_leaf (H := stub grads_first_order [] (fun _ => true))
            _ _ _ _ _ _ (mkArray 5)).
  - repeat constructor; vm_compute; eauto.
  - repeat constructor.
  - vm_compute. reflexivity.
  - vm_compute. reflexivity.
  - vm_compute. eauto.
Defined.

(** C5, as the code has it.  The aliasing check compares the bodies behind
    the handles, not the storage behind the bodies.  When the leaf check
    passes, the forward function returns, and some output is the very body
    of an input that requires gradient under the graph when the function has
    returned, [BackwardGradients] raises the error of the aliasing check for
    such a pair.  The store is the one the forward function left: no gradient
    is seeded or cleared, and the backward engine, whatever it is, is not
    run. *)
Theorem BackwardGradients_rejects_identical `{Collaborators} (func : Func) (inputs : list Array)
    (grad_outputs : option (list Array)) (g : GraphId) (double_backprop : DoubleBackpropOption)
    (w w1 : World) (outputs : list Array) (i j : nat) (a o : Array) :
  Forall (fun a => exists b, bodies w !! GetArrayBody a = Some b /\ is_non_leaf b g = false) inputs ->
  func inputs w = (Ok outputs, w1) ->
  Forall (valid w1) inputs ->
  inputs !! i = Some a ->
  outputs !! j = Some o ->
  GetArrayBody a = GetArrayBody o ->
  IsGradRequired a g w1 = (Ok true, w1) ->
  exists i' j',
    BackwardGradients func inputs grad_outputs g double_backprop w =
      (Throw GradientCheckError (MsgIdentical i' j'), w1) /\
    identical_pair inputs outputs g w1 i' j'.
Proof.
  intros Hl Hf Hv Ha Ho Hao Hr.
  apply IsGradRequired_inv in Hr as (b & Hb & Hr & _).
  apply (BackwardGradients_identical func inputs grad_outputs g double_backprop w outputs w1 i j
           Hl Hf Hv).
  exists a, o, b. auto.
Qed.

Lemma BackwardGradients_rejects_identical_witness :
  exists i' j',
    BackwardGradients (H := stub grads_first_order [] (fun _ => true))
      (stub_func [mkArray 1; mkArray 0]) [mkArray 0] None "default" kEnable sample_world =
      (Throw GradientCheckError (MsgIdentical i' j'), sample_world) /\
    identical_pair [mkArray 0] [mkArray 1; mkArray 0] "default" sample_world i' j'.
Proof.
  eapply (BackwardGradients_rejects_identical (H := stub grads_first_order [] (fun _ => true))
            _ _ _ _ _ _ _ _ 0 1 (mkArray 0) (mkArray 0)).
  - repeat constructor. eexists. split; vm_compute; reflexivity.
  - reflexivity.
  - repeat constructor; vm_compute; eauto.
  - reflexivity.
  - reflexivity.
  - reflexivity.
  - vm_compute. reflexivity.
Defined.

(** C5, as the claim has it, fails: sharing the storage is not enough.  On
    the sample store a forward function that returns a view of its input,
    an output on the same buffer behind another body, is accepted although
    the input requires gradient: the extraction runs to its end. *)
Lemma BackwardGradients_accepts_shared_storage :
  let func : Func := fun inputs => transform inputs (fun a => AsGradStopped a kView) in
  exists w1 bi bo,
    func [mkArray 0] sample_world = (Ok [mkArray 7], w1) /\
    bodies w1 !! 0 = Some bi /\ bodies w1 !! 7 = Some bo /\
    data bo = data bi /\
    IsGradRequired (mkArray 0) "default" w1 = (Ok true, w1) /\
    fst (BackwardGradients (H := stub grads_first_order [] (fun _ => true))
           func [mkArray 0] None "default" kEnable sample_world) = Ok [Some (mkArray 4)].
Proof.
  intros func.
  exists (snd (func [mkArray 0] sample_world)), (float_body 0 [leaf]), (float_body 0 []).
  repeat split; vm_compute; reflexivity.
Qed.

(** ** Claims about the first order check and the toggle verification *)

(** C1. When [CheckBackwardComputation] reaches the comparison (graph
    identifier derived, gradients extracted, their number, shapes and dtypes
    accepted, numerical gradients computed and accepted by the assertions),
    the indices it collects are exactly those whose analytic gradient exists
    and is not [AllClose] to the numerical gradient of the same index; an
    index without analytic gradient is never collected.  The check returns
    normally when no index is collected.  Otherwise it never returns
    normally: it builds one report for all the collected indices, computing
    the difference of the two gradients of each, and raises one
    [GradientCheckError] with it, in the store the differences left; should
    the subtraction or the perturbation of an index fail while the report is
    built, that exception or stop is the outcome. *)
Theorem CheckBackwardComputation_compares `{Collaborators} (func : Func)
    (inputs grad_outputs eps : list Array) (atol rtol : Q) (graph_id : option GraphId)
    (w w1 w2 w3 : World) (first : Array) (rest : list Array) (g : GraphId)
    (views : list Array) (bgs : list (option Array)) (ngs : list Array) :
  inputs = first :: rest ->
  GetArrayGraphId first graph_id w = (Ok g, w) ->
  DisconnectInputArrays inputs w = (Ok views, w1) ->
  BackwardGradients func views (Some grad_outputs) g kDisable w1 = (Ok bgs, w2) ->
  check_grad_shapes inputs bgs w2 = (Ok tt, w2) ->
  CalculateNumericalGradient func inputs grad_outputs eps w2 = (Ok ngs, w3) ->
  assert_numerical_grads inputs ngs w3 = (Ok tt, w3) ->
  let failed := failed_indices bgs ngs atol rtol w3 in
  let run := CheckBackwardComputation func inputs grad_outputs eps atol rtol graph_id w in
  (forall i, i ∈ failed <->
     exists a n, bgs !! i = Some (Some a) /\ ngs !! i = Some n /\
                 AllClose a n atol rtol w3 = false) /\
  (forall i, bgs !! i = Some None -> i ∉ failed) /\
  (failed = [] -> run = (Ok tt, w3)) /\
  (failed <> [] ->
   (forall w', run <> (Ok tt, w')) /\
   (forall entries w4, report_entries failed bgs ngs eps w3 = (Ok entries, w4) ->
      run = (Throw GradientCheckError
               (MsgNumericalError false (length inputs) failed g atol rtol entries), w4)) /\
   (forall c e w4, report_entries failed bgs ngs eps w3 = (Throw c e, w4) ->
      run = (Throw c e, w4)) /\
   (forall f w4, report_entries failed bgs ngs eps w3 = (Stop f, w4) ->
      run = (Stop f, w4))).
Proof.
  intros Hin Hg Hd Hb Hs Hn Ha failed run.
  pose proof (assert_numerical_grads_length _ _ _ _ _ Ha) as Hnlen.
  assert (Hlen : length bgs = length inputs).
  { rewrite (BackwardGradients_length _ _ _ _ _ _ _ _ Hb).
    now apply DisconnectInputArrays_length in Hd. }
  assert (Hrun : run =
                 raise_numerical_error false (length inputs) failed bgs ngs eps g atol rtol w3).
  { unfold run, CheckBackwardComputation. subst inputs.
    rewrite bool_decide_eq_false_2 by discriminate. simpl negb.
    unfold assert at 1. rewrite bind_ret. simpl front. rewrite bind_ret.
    rewrite (bind_ok _ _ _ _ _ Hg), (bind_ok _ _ _ _ _ Hd), (bind_ok _ _ _ _ _ Hb).
    rewrite bool_decide_eq_false_2 by (intros E; now apply E).
    rewrite bind_ret, (bind_ok _ _ _ _ _ Hs), (bind_ok _ _ _ _ _ Hn), (bind_ok _ _ _ _ _ Ha).
    rewrite (bind_ok _ _ _ _ _ (collect_failed_spec bgs ngs atol rtol w3 ltac:(lia))).
    reflexivity. }
  destruct (raise_numerical_error_spec false (length inputs) failed bgs ngs eps g atol rtol w3)
    as [R1 R2].
  split; [apply failed_indices_spec |]. split; [| split].
  - intros i Hi Hf. apply failed_indices_spec in Hf as (a & n & E & _). congruence.
  - intros Hf. rewrite Hrun. now apply R1.
  - intros Hf. rewrite Hrun. now apply R2.
Qed.

Lemma CheckBackwardComputation_compares_witness :
  (exists entries,
     fst (CheckBackwardComputation (H := stub grads_first_order [mkArray 2] (fun _ => true))
            (stub_func [mkArray 1]) [mkArray 0] [mkArray 1] [mkArray 2] 0%Q 0%Q None
            sample_world) =
     Throw GradientCheckError (MsgNumericalError false 1 [0] "default" 0%Q 0%Q entries)) /\
  fst (CheckBackwardComputation (H := stub grads_first_order [mkArray 4] (fun _ => true))
         (stub_func [mkArray 1]) [mkArray 0] [mkArray 1] [mkArray 2] 0%Q 0%Q None
         sample_world) = Ok tt.
Proof.
  pose (f := stub_func [mkArray 1]).
  split.
  - pose (E := stub grads_first_order [mkArray 2] (fun _ => true)).
    pose (r1 := DisconnectInputArrays [mkArray 0] sample_world).
    pose (r2 := BackwardGradients (H := E) f (result_of [] r1) (Some [mkArray 1]) "default"
                  kDisable (snd r1)).
    pose (r3 := CalculateNumericalGradient (Collaborators := E) f [mkArray 0] [mkArray 1]
                  [mkArray 2] (snd r2)).
    pose (r4 := report_entries (H := E) [0] (result_of [] r2) (result_of [] r3) [mkArray 2]
                  (snd r3)).
    destruct (CheckBackwardComputation_compares (H := E) f [mkArray 0] [mkArray 1] [mkArray 2]
                0%Q 0%Q None sample_world (snd r1) (snd r2) (snd r3) (mkArray 0) [] "default"
                (result_of [] r1) (result_of [] r2) (result_of [] r3)) as (_ & _ & _ & Hf).
    + reflexivity.
    + vm_compute. reflexivity.
    + vm_compute. reflexivity.
    + vm_compute. reflexivity.
    + vm_compute. reflexivity.
    + vm_compute. reflexivity.
    + vm_compute. reflexivity.
    + assert (Hfailed : failed_indices (H := E) (result_of [] r2) (result_of [] r3) 0%Q 0%Q
                          (snd r3) = [0]) by (vm_compute; reflexivity).
      rewrite Hfailed in Hf. destruct Hf as (_ & Hf & _); [discriminate |].
      exists (result_of [] r4). fold E f.
      rewrite (Hf (result_of [] r4) (snd r4)); [reflexivity | vm_compute; reflexivity].
  - pose (E := stub grads_first_order [mkArray 4] (fun _ => true)).
    pose (r1 := DisconnectInputArrays [mkArray 0] sample_world).
    pose (r2 := BackwardGradients (H := E) f (result_of [] r1) (Some [mkArray 1]) "default"
                  kDisable (snd r1)).
    pose (r3 := CalculateNumericalGradient (Collaborators := E) f [mkArray 0] [mkArray 1]
                  [mkArray 2] (snd r2)).
    destruct (CheckBackwardComputation_compares (H := E) f [mkArray 0] [mkArray 1] [mkArray 2]
                0%Q 0%Q None sample_world (snd r1) (snd r2) (snd r3) (mkArray 0) [] "default"
                (result_of [] r1) (result_of [] r2) (result_of [] r3)) as (_ & _ & Hp & _).
    + reflexivity.
    + vm_compute. reflexivity.
    + vm_compute. reflexivity.
    + vm_compute. reflexivity.
    + vm_compute. reflexivity.
    + vm_compute. reflexivity.
    + vm_compute. reflexivity.
    + fold E f. rewrite Hp; [reflexivity | vm_compute; reflexivity].
Defined.

(** C2. When both runs of the toggle verification return their gradients
    (each on its own isolated copies of the inputs, through the squaring
    wrapper, first with double backprop disabled, then enabled), the failures
    of the first run are exactly the produced gradients that require gradient
    under the graph, those of the second run exactly the produced gradients
    that do not.  The messages of both runs are appended to one text, and one
    [GradientCheckError] with that text is raised exactly when there is a
    failure in either run. *)
Theorem CheckDoubleBackpropOption_accumulates `{Collaborators} (func : Func)
    (inputs : list Array) (g : GraphId) (w w1 w2 w3 w4 : World)
    (views1 views2 : list Array) (grads1 grads2 : list (option Array)) :
  DisconnectInputArrays inputs w = (Ok views1, w1) ->
  BackwardGradients (nonlinear_func func) views1 None g kDisable w1 = (Ok grads1, w2) ->
  DisconnectInputArrays inputs w2 = (Ok views2, w3) ->
  BackwardGradients (nonlinear_func func) views2 None g kEnable w3 = (Ok grads2, w4) ->
  Forall (valid_opt w2) grads1 ->
  Forall (valid_opt w4) grads2 ->
  let failures1 := connectivity_failures grads1 g false w2 in
  let failures2 := connectivity_failures grads2 g true w4 in
  let text := foldl (connectivity_message (length grads2) g true)
                (foldl (connectivity_message (length grads1) g false) "" failures1) failures2 in
  (forall i, i ∈ failures1 <->
     exists a, grads1 !! i = Some (Some a) /\ IsGradRequired a g w2 = (Ok true, w2)) /\
  (forall i, i ∈ failures2 <->
     exists a, grads2 !! i = Some (Some a) /\ IsGradRequired a g w4 = (Ok false, w4)) /\
  (failures1 = [] /\ failures2 = [] ->
   CheckDoubleBackpropOption func inputs g w = (Ok tt, w4)) /\
  (failures1 <> [] \/ failures2 <> [] ->
   CheckDoubleBackpropOption func inputs g w = (Throw GradientCheckError (MsgText text), w4)).
Proof.
  intros Hd1 Hb1 Hd2 Hb2 Hv1 Hv2 failures1 failures2 text.
  assert (Hrun : CheckDoubleBackpropOption func inputs g w =
                 if negb (bool_decide (text = ""))
                 then (Throw GradientCheckError (MsgText text), w4) else (Ok tt, w4)).
  { unfold CheckDoubleBackpropOption.
    rewrite (bind_ok _ _ _ _ _ Hd1), (bind_ok _ _ _ _ _ Hb1).
    rewrite (bind_ok _ _ _ _ _ (check_connectivity_spec grads1 g false "" w2 Hv1)).
    rewrite (bind_ok _ _ _ _ _ Hd2), (bind_ok _ _ _ _ _ Hb2).
    rewrite (bind_ok _ _ _ _ _ (check_connectivity_spec grads2 g true _ w4 Hv2)).
    fold failures1 failures2 text. now destruct (bool_decide (text = "")). }
  assert (Hempty : text = "" <-> failures1 = [] /\ failures2 = []).
  { unfold text. rewrite !connectivity_fold_empty. tauto. }
  split; [intros i; apply (connectivity_failures_spec grads1 g false w2 i Hv1) |].
  split; [intros i; apply (connectivity_failures_spec grads2 g true w4 i Hv2) |].
  split.
  - intros Hf. rewrite Hrun, bool_decide_eq_true_2 by now apply Hempty. reflexivity.
  - intros Hf. rewrite Hrun, bool_decide_eq_false_2; [reflexivity |].
    intros E. apply Hempty in E as [E1 E2]. tauto.
Qed.

Lemma CheckDoubleBackpropOption_accumulates_witness :
  fst (CheckDoubleBackpropOption (H := stub (fun _ _ => Some (mkArray 4)) [] (fun _ => true))
         (stub_func [mkArray 1]) [mkArray 0; mkArray 0] "default" sample_world) =
  Throw GradientCheckError
    (MsgText ("Gradient 0 / 2 is connected to the graph 'default' even when double-backprop is disabled."
              +:+ "Gradient 1 / 2 is connected to the graph 'default' even when double-backprop is disabled.")) /\
  fst (CheckDoubleBackpropOption (H := stub grads_first_order [] (fun _ => true))
         (stub_func [mkArray 1]) [mkArray 0; mkArray 0] "default" sample_world) = Ok tt.
Proof.
  pose (f := stub_func [mkArray 1]).
  split.
  - pose (E := stub (fun _ _ => Some (mkArray 4)) [] (fun _ => true)).
    pose (r1 := DisconnectInputArrays [mkArray 0; mkArray 0] sample_world).
    pose (r2 := BackwardGradients (H := E) (nonlinear_func (H := E) f) (result_of [] r1) None
                  "default" kDisable (snd r1)).
    pose (r3 := DisconnectInputArrays [mkArray 0; mkArray 0] (snd r2)).
    pose (r4 := BackwardGradients (H := E) (nonlinear_func (H := E) f) (result_of [] r3) None
                  "default" kEnable (snd r3)).
    destruct (CheckDoubleBackpropOption_accumulates (H := E) f [mkArray 0; mkArray 0] "default"
                sample_world (snd r1) (snd r2) (snd r3) (snd r4)
                (result_of [] r1) (result_of [] r3) (result_of [] r2) (result_of [] r4))
      as (_ & _ & _ & Hf).
    + vm_compute. reflexivity.
    + vm_compute. reflexivity.
    + vm_compute. reflexivity.
    + vm_compute. reflexivity.
    + by_computation.
    + by_computation.
    + fold E f. rewrite Hf; [| left; vm_compute; discriminate].
      vm_compute. reflexivity.
  - pose (E := stub grads_first_order [] (fun _ => true)).
    pose (r1 := DisconnectInputArrays [mkArray 0; mkArray 0] sample_world).
    pose (r2 := BackwardGradients (H := E) (nonlinear_func (H := E) f) (result_of [] r1) None
                  "default" kDisable (snd r1)).
    pose (r3 := DisconnectInputArrays [mkArray 0; mkArray 0] (snd r2)).
    pose (r4 := BackwardGradients (H := E) (nonlinear_func (H := E) f) (result_of [] r3) None
                  "default" kEnable (snd r3)).
    destruct (CheckDoubleBackpropOption_accumulates (H := E) f [mkArray 0; mkArray 0] "default"
                sample_world (snd r1) (snd r2) (snd r3) (snd r4)
                (result_of [] r1) (result_of [] r3) (result_of [] r2) (result_of [] r4))
      as (_ & _ & Hp & _).
    + vm_compute. reflexivity.
    + vm_compute. reflexivity.
    + vm_compute. reflexivity.
    + vm_compute. reflexivity.
    + by_computation.
    + by_computation.
    + fold E f. rewrite Hp; [reflexivity | split; vm_compute; reflexivity].
Defined.

(** ** The leak assertion *)

Section LeakAssertion.
Context `{Collaborators}.

Lemma survivors_spec tracker w b :
  b ∈ survivors tracker w <-> b ∈ tracker /\ expired b w = false.
Proof. unfold survivors. rewrite list_elem_of_filter. tauto. Qed.

Lemma survivors_nil tracker w :
  survivors tracker w = [] <-> forall b, b ∈ tracker -> expired b w = true.
Proof.
  split.
  - intros E b Hb. destruct (expired b w) eqn:Hx; [reflexivity |].
    assert (Hs : b ∈ survivors tracker w) by now apply survivors_spec.
    rewrite E in Hs. now apply elem_of_nil in Hs.
  - intros Hall. destruct (survivors tracker w) as [|b l] eqn:E; [reflexivity |].
    assert (Hs : b ∈ survivors tracker w) by (rewrite E; now left).
    apply survivors_spec in Hs as [Hb Hx]. rewrite (Hall b Hb) in Hx. discriminate.
Qed.

Lemma CheckAllArrayBodiesFreed_spec tracker w :
  CheckAllArrayBodiesFreed tracker w =
    if bool_decide (survivors tracker w = [])
    then (Ok tt, w)
    else (Throw GradientCheckError (MsgLeak (survivors tracker w)), w).
Proof.
  unfold CheckAllArrayBodiesFreed, IsAllArrayBodiesFreed, gets, bind. simpl.
  now destruct (bool_decide (survivors tracker w = [])).
Qed.

(** A check inside a leak detection scope, followed by the assertion. *)
Lemma leak_checked_ok (m : M unit) w w1 :
  m (set_leak_tracker (Some []) w) = (Ok tt, w1) ->
  (r <- ArrayBodyLeakDetectionScope [] m ;; CheckAllArrayBodiesFreed (snd r)) w =
    CheckAllArrayBodiesFreed (default [] (leak_tracker w1)) (set_leak_tracker None w1).
Proof. intros E. unfold bind, ArrayBodyLeakDetectionScope. now rewrite E. Qed.

Lemma leak_checked_throw (m : M unit) w c e w1 :
  m (set_leak_tracker (Some []) w) = (Throw c e, w1) ->
  (r <- ArrayBodyLeakDetectionScope [] m ;; CheckAllArrayBodiesFreed (snd r)) w =
    (Throw c e, set_leak_tracker None w1).
Proof. intros E. unfold bind, ArrayBodyLeakDetectionScope. now rewrite E. Qed.

Lemma leak_checked_stop (m : M unit) w f w1 :
  m (set_leak_tracker (Some []) w) = (Stop f, w1) ->
  (r <- ArrayBodyLeakDetectionScope [] m ;; CheckAllArrayBodiesFreed (snd r)) w = (Stop f, w1).
Proof. intros E. unfold bind, ArrayBodyLeakDetectionScope. now rewrite E. Qed.

(** [CheckBackward] once the graph identifier is derived. *)
Lemma CheckBackward_unfold (func : Func) first rest grad_outputs eps atol rtol graph_id g w :
  GetArrayGraphId first graph_id w = (Ok g, w) ->
  CheckBackward func (first :: rest) grad_outputs eps atol rtol graph_id w =
    ((r <- ArrayBodyLeakDetectionScope []
             (CheckDoubleBackpropOption func (first :: rest) g) ;;
      CheckAllArrayBodiesFreed (snd r)) ;;
     (r <- ArrayBodyLeakDetectionScope []
             (CheckBackwardComputation func (first :: rest) grad_outputs eps atol rtol graph_id) ;;
      CheckAllArrayBodiesFreed (snd r))) w.
Proof.
  intros Hg. unfold CheckBackward.
  rewrite bool_decide_eq_false_2 by discriminate. simpl negb.
  unfold assert at 1. rewrite bind_ret. simpl front. rewrite bind_ret.
  rewrite (bind_ok _ _ _ _ _ Hg). unfold bind.
  destruct (ArrayBodyLeakDetectionScope [] _ w) as [[[]| |] ?]; reflexivity.
Qed.

End LeakAssertion.

(** ** Claims about the second order check *)

Section SecondOrder.
Context `{Collaborators}.

(** The checks of [CheckDoubleBackwardComputationImpl] that come before any
    gradient is computed. *)
Lemma Impl_preconditions (func : Func) inputs grad_outputs grad_grad_inputs eps atol rtol
    graph_id w first rest g :
  inputs = first :: rest ->
  GetArrayGraphId first graph_id w = (Ok g, w) ->
  Forall (valid w) (inputs ++ grad_outputs) ->
  length grad_grad_inputs <> length inputs \/
    Exists (fun a => IsGradRequired a g w = (Ok false, w)) (inputs ++ grad_outputs) ->
  exists e,
    CheckDoubleBackwardComputationImpl func inputs grad_outputs grad_grad_inputs eps atol rtol
      graph_id w = (Throw XchainerError e, w).
Proof.
  intros Hin Hg Hv Hbad. apply Forall_app in Hv as [Hvi Hvo].
  unfold CheckDoubleBackwardComputationImpl.
  assert (Hfront : front inputs w = (Ok first, w)) by now subst inputs.
  rewrite (bind_ok _ _ _ _ _ Hfront), (bind_ok _ _ _ _ _ Hg).
  case_bool_decide as Hlen; [eexists; reflexivity |]. rewrite bind_ret.
  destruct Hbad as [Hbad | Hbad]; [tauto |].
  unfold check_inputs_differentiable, check_grad_outputs_differentiable.
  destruct (differentiable_loop (fun i => MsgInputNotDifferentiable i (length inputs) g)
              inputs g w Hvi) as [[E Hall] | (i & _ & _ & E & _)].
  - rewrite (bind_ok _ _ _ _ _ E).
    apply Exists_app in Hbad as [Hbad | Hbad];
      [now apply not_required_not_Forall in Hbad |].
    apply not_required_not_Forall in Hbad.
    destruct (differentiable_loop_fails
                (fun i => MsgGradOutputNotDifferentiable i (length grad_outputs) g)
                grad_outputs g w Hvo Hbad) as (i & E').
    rewrite (bind_throw _ _ _ _ _ _ E'). eauto.
  - rewrite (bind_throw _ _ _ _ _ _ E). eauto.
Qed.

(** The run of [CheckDoubleBackwardComputationImpl] up to the existence check
    of the second order gradients. *)
Lemma Impl_reaches_existence_check (func : Func) inputs grad_outputs grad_grad_inputs eps
    atol rtol graph_id w w1 w2 first rest g ngs bgs :
  inputs = first :: rest ->
  GetArrayGraphId first graph_id w = (Ok g, w) ->
  length grad_grad_inputs = length inputs ->
  Forall (requires_grad w g) inputs ->
  Forall (requires_grad w g) grad_outputs ->
  CalculateNumericalGradient
    (first_order_grad_func func (length inputs) (length grad_outputs) g)
    (inputs ++ grad_outputs) grad_grad_inputs eps w = (Ok ngs, w1) ->
  length ngs = length inputs + length grad_outputs ->
  BackwardGradients (first_order_grad_func func (length inputs) (length grad_outputs) g)
    (inputs ++ grad_outputs) (Some grad_grad_inputs) g kEnable w1 = (Ok bgs, w2) ->
  length bgs = length inputs + length grad_outputs ->
  CheckDoubleBackwardComputationImpl func inputs grad_outputs grad_grad_inputs eps atol rtol
    graph_id w =
  (check_second_order_exist bgs (length inputs) (length grad_outputs) g ;;
   failed_input_indices <- collect_failed_double bgs ngs atol rtol ;;
   raise_numerical_error true (length inputs) failed_input_indices bgs ngs eps g atol rtol) w2.
Proof.
  intros Hin Hg Hlen Hri Hro Hn Hnlen Hb Hblen.
  unfold CheckDoubleBackwardComputationImpl.
  assert (Hfront : front inputs w = (Ok first, w)) by now subst inputs.
  rewrite (bind_ok _ _ _ _ _ Hfront), (bind_ok _ _ _ _ _ Hg).
  rewrite bool_decide_eq_false_2 by (intros E; now apply E). rewrite bind_ret.
  unfold check_inputs_differentiable, check_grad_outputs_differentiable.
  rewrite (bind_ok _ _ _ _ _ (differentiable_loop_ok _ inputs g w Hri)).
  rewrite (bind_ok _ _ _ _ _ (differentiable_loop_ok _ grad_outputs g w Hro)).
  rewrite (bind_ok _ _ _ _ _ Hn).
  rewrite bool_decide_eq_true_2 by exact Hnlen. unfold assert at 1. rewrite bind_ret.
  rewrite (bind_ok _ _ _ _ _ Hb).
  rewrite bool_decide_eq_true_2 by exact Hblen. unfold assert at 1. rewrite bind_ret.
  reflexivity.
Qed.

End SecondOrder.

(** C3. (1) When the second order check is called with at least one input and
    some input or some first order seed gradient does not require gradient
    under the graph, it raises an [XchainerError] and leaves the store as it
    was, for every forward function, backward engine and numerical estimator:
    no gradient is computed.  (2) When the checks pass and the second
    extraction returns its gradients for the combined vector, every index
    without a gradient is reported, and the check raises as soon as there is
    one such index: none is skipped. *)
Theorem second_order_requires_all_gradients `{Collaborators} (func : Func)
    (inputs grad_outputs grad_grad_inputs eps : list Array) (atol rtol : Q)
    (graph_id : option GraphId) (w : World) (first : Array) (rest : list Array) (g : GraphId) :
  inputs = first :: rest ->
  GetArrayGraphId first graph_id w = (Ok g, w) ->
  (Forall (valid w) (inputs ++ grad_outputs) ->
   Exists (fun a => IsGradRequired a g w = (Ok false, w)) (inputs ++ grad_outputs) ->
   exists e,
     CheckDoubleBackwardComputationImpl func inputs grad_outputs grad_grad_inputs eps atol rtol
       graph_id w = (Throw XchainerError e, w)) /\
  (forall w1 w2 ngs bgs,
     length grad_grad_inputs = length inputs ->
     Forall (requires_grad w g) inputs ->
     Forall (requires_grad w g) grad_outputs ->
     CalculateNumericalGradient
       (first_order_grad_func func (length inputs) (length grad_outputs) g)
       (inputs ++ grad_outputs) grad_grad_inputs eps w = (Ok ngs, w1) ->
     length ngs = length inputs + length grad_outputs ->
     BackwardGradients (first_order_grad_func func (length inputs) (length grad_outputs) g)
       (inputs ++ grad_outputs) (Some grad_grad_inputs) g kEnable w1 = (Ok bgs, w2) ->
     (forall i, i ∈ missing_indices bgs <-> bgs !! i = Some None) /\
     ((exists i, bgs !! i = Some None) ->
      CheckDoubleBackwardComputationImpl func inputs grad_outputs grad_grad_inputs eps atol rtol
        graph_id w =
        (Throw GradientCheckError
           (MsgSecondOrderMissing (missing_indices bgs) (length inputs) (length grad_outputs) g),
         w2))).
Proof.
  intros Hin Hg. split.
  - intros Hv Hbad. eapply Impl_preconditions; eauto.
  - intros w1 w2 ngs bgs Hlen Hri Hro Hn Hnlen Hb.
    assert (Hblen : length bgs = length inputs + length grad_outputs).
    { rewrite (BackwardGradients_length _ _ _ _ _ _ _ _ Hb). apply length_app. }
    split; [apply missing_indices_spec |]. intros (i & Hi).
    rewrite (Impl_reaches_existence_check func inputs grad_outputs grad_grad_inputs eps atol rtol
               graph_id w w1 w2 first rest g ngs bgs) by assumption.
    assert (E : check_second_order_exist bgs (length inputs) (length grad_outputs) g w2 =
                (Throw GradientCheckError
                   (MsgSecondOrderMissing (missing_indices bgs) (length inputs)
                      (length grad_outputs) g), w2)).
    { rewrite check_second_order_exist_spec, bool_decide_eq_false_2; [reflexivity |].
      intros E. apply missing_indices_spec in Hi. rewrite E in Hi. now apply elem_of_nil in Hi. }
    now rewrite (bind_throw _ _ _ _ _ _ E).
Qed.

Lemma second_order_requires_all_gradients_witness :
  (exists e,
     fst (CheckDoubleBackwardComputationImpl
            (H := stub grads_without_seed [mkArray 4; mkArray 4] (fun _ => true))
            (stub_func [mkArray 1]) [mkArray 1] [mkArray 6] [mkArray 1] [mkArray 2; mkArray 2]
            0%Q 0%Q None sample_world) = Throw XchainerError e) /\
  fst (CheckDoubleBackwardComputationImpl
         (H := stub grads_without_seed [mkArray 4; mkArray 4] (fun _ => true))
         (stub_func [mkArray 1]) [mkArray 0] [mkArray 6] [mkArray 1] [mkArray 2; mkArray 2]
         0%Q 0%Q None sample_world) =
    Throw GradientCheckError (MsgSecondOrderMissing [1] 1 1 "default").
Proof.
  pose (E := stub grads_without_seed [mkArray 4; mkArray 4] (fun _ => true)).
  pose (f := stub_func [mkArray 1]).
  split.
  - destruct (second_order_requires_all_gradients (H := E) f [mkArray 1] [mkArray 6]
                [mkArray 1] [mkArray 2; mkArray 2] 0%Q 0%Q None sample_world
                (mkArray 1) [] "default") as [P _].
    + reflexivity.
    + vm_compute. reflexivity.
    + destruct P as [e He].
      * by_computation.
      * apply Exists_cons_hd. vm_compute. reflexivity.
      * exists e. fold E f. now rewrite He.
  - destruct (second_order_requires_all_gradients (H := E) f [mkArray 0] [mkArray 6]
                [mkArray 1] [mkArray 2; mkArray 2] 0%Q 0%Q None sample_world
                (mkArray 0) [] "default") as [_ P].
    + reflexivity.
    + vm_compute. reflexivity.
    + pose (r1 := CalculateNumericalGradient (Collaborators := E)
                    (first_order_grad_func (H := E) f 1 1 "default")
                    [mkArray 0; mkArray 6] [mkArray 1] [mkArray 2; mkArray 2] sample_world).
      pose (r2 := BackwardGradients (H := E) (first_order_grad_func (H := E) f 1 1 "default")
                    [mkArray 0; mkArray 6] (Some [mkArray 1]) "default" kEnable (snd r1)).
      destruct (P (snd r1) (snd r2) (result_of [] r1) (result_of [] r2)) as [_ Q].
      * reflexivity.
      * by_computation.
      * by_computation.
      * vm_compute. reflexivity.
      * vm_compute. reflexivity.
      * vm_compute. reflexivity.
      * fold E f. rewrite Q; [vm_compute; reflexivity |].
        exists 1. vm_compute. reflexivity.
Defined.

(** ** Claims about the entry points *)

Section EntryPoints.
Context `{Collaborators}.

Lemma leak_assertion_cases tracker w :
  ((exists b, b ∈ tracker /\ expired b w = false) ->
   CheckAllArrayBodiesFreed tracker w =
     (Throw GradientCheckError (MsgLeak (survivors tracker w)), w)) /\
  ((forall b, b ∈ tracker -> expired b w = true) ->
   CheckAllArrayBodiesFreed tracker w = (Ok tt, w)).
Proof.
  rewrite CheckAllArrayBodiesFreed_spec. split.
  - intros (b & Hb & Hx). rewrite bool_decide_eq_false_2; [reflexivity |].
    intros E. rewrite survivors_nil in E. rewrite (E b Hb) in Hx. discriminate.
  - intros Hall. rewrite bool_decide_eq_true_2; [reflexivity |]. now apply survivors_nil.
Qed.

End EntryPoints.

(** C7. Both entry points run their checks inside a leak detection scope and
    assert after it.  When the checks inside the scope of
    [CheckDoubleBackwardComputation] return, the entry point raises a
    [GradientCheckError] that names the surviving bodies if some body
    recorded in the scope is not released when the scope has closed, and
    returns normally if all of them are; the same holds for each of the two
    scopes of [CheckBackward], the second one being reached when the first
    one found no survivor.  The survivors named are exactly the recorded
    bodies that are not released. *)
Theorem entry_points_assert_no_leak `{Collaborators} (func : Func)
    (inputs grad_outputs grad_grad_inputs eps : list Array) (atol rtol : Q)
    (graph_id : option GraphId) (w : World) :
  (forall w1,
     (inputs_disconnected <- DisconnectInputArrays inputs ;;
      grad_outputs_disconnected <- DisconnectInputArrays grad_outputs ;;
      CheckDoubleBackwardComputationImpl func inputs_disconnected grad_outputs_disconnected
        grad_grad_inputs eps atol rtol graph_id) (set_leak_tracker (Some []) w) = (Ok tt, w1) ->
     let recorded := default [] (leak_tracker w1) in
     let closed := set_leak_tracker None w1 in
     ((exists b, b ∈ recorded /\ expired b closed = false) ->
      CheckDoubleBackwardComputation func inputs grad_outputs grad_grad_inputs eps atol rtol
        graph_id w = (Throw GradientCheckError (MsgLeak (survivors recorded closed)), closed)) /\
     ((forall b, b ∈ recorded -> expired b closed = true) ->
      CheckDoubleBackwardComputation func inputs grad_outputs grad_grad_inputs eps atol rtol
        graph_id w = (Ok tt, closed)) /\
     (forall b, b ∈ survivors recorded closed <-> b ∈ recorded /\ expired b closed = false)) /\
  (forall first rest g w1,
     inputs = first :: rest ->
     GetArrayGraphId first graph_id w = (Ok g, w) ->
     CheckDoubleBackpropOption func inputs g (set_leak_tracker (Some []) w) = (Ok tt, w1) ->
     let recorded1 := default [] (leak_tracker w1) in
     let closed1 := set_leak_tracker None w1 in
     ((exists b, b ∈ recorded1 /\ expired b closed1 = false) ->
      CheckBackward func inputs grad_outputs eps atol rtol graph_id w =
        (Throw GradientCheckError (MsgLeak (survivors recorded1 closed1)), closed1)) /\
     ((forall b, b ∈ recorded1 -> expired b closed1 = true) ->
      forall w2,
        CheckBackwardComputation func inputs grad_outputs eps atol rtol graph_id
          (set_leak_tracker (Some []) closed1) = (Ok tt, w2) ->
        let recorded2 := default [] (leak_tracker w2) in
        let closed2 := set_leak_tracker None w2 in
        ((exists b, b ∈ recorded2 /\ expired b closed2 = false) ->
         CheckBackward func inputs grad_outputs eps atol rtol graph_id w =
           (Throw GradientCheckError (MsgLeak (survivors recorded2 closed2)), closed2)) /\
        ((forall b, b ∈ recorded2 -> expired b closed2 = true) ->
         CheckBackward func inputs grad_outputs eps atol rtol graph_id w = (Ok tt, closed2)))).
Proof.
  split.
  - intros w1 Hrun recorded closed.
    assert (E : CheckDoubleBackwardComputation func inputs grad_outputs grad_grad_inputs eps
                  atol rtol graph_id w = CheckAllArrayBodiesFreed recorded closed).
    { unfold CheckDoubleBackwardComputation. now rewrite (leak_checked_ok _ _ _ Hrun). }
    rewrite E. destruct (leak_assertion_cases recorded closed) as [L1 L2].
    split; [exact L1 |]. split; [exact L2 |]. intros b. apply survivors_spec.
  - intros first rest g w1 Hin Hg Hrun recorded1 closed1. subst inputs.
    rewrite (CheckBackward_unfold func first rest grad_outputs eps atol rtol graph_id g w Hg).
    pose proof (leak_checked_ok _ _ _ Hrun) as E1. fold recorded1 closed1 in E1.
    destruct (leak_assertion_cases recorded1 closed1) as [L1 L2]. split.
    + intros Hleak. rewrite (L1 Hleak) in E1. now rewrite (bind_throw _ _ _ _ _ _ E1).
    + intros Hfree w2 Hrun2 recorded2 closed2. rewrite (L2 Hfree) in E1.
      rewrite (bind_ok _ _ _ _ _ E1), (leak_checked_ok _ _ _ Hrun2).
      apply leak_assertion_cases.
Qed.

Lemma entry_points_assert_no_leak_witness :
  fst (CheckDoubleBackwardComputation
         (H := stub grads_first_order [mkArray 4; mkArray 4] (fun b => negb (bool_decide (b = 8))))
         (stub_func [mkArray 1]) [mkArray 0] [mkArray 6] [mkArray 1] [mkArray 2; mkArray 2]
         0%Q 0%Q None sample_world) = Throw GradientCheckError (MsgLeak [8]) /\
  fst (CheckBackward
         (H := stub grads_first_order [mkArray 3] (fun b => negb (bool_decide (b = 8))))
         (stub_func [mkArray 1]) [mkArray 0] [mkArray 1] [mkArray 2]
         0%Q 0%Q None sample_world) = Throw GradientCheckError (MsgLeak [8]) /\
  fst (CheckBackward
         (H := stub grads_first_order [mkArray 3] (fun b => true))
         (stub_func [mkArray 1]) [mkArray 0] [mkArray 1] [mkArray 2]
         0%Q 0%Q None sample_world) = Ok tt.
Proof.
  pose (f := stub_func [mkArray 1]).
  split; [| split].
  - pose (E := stub grads_first_order [mkArray 4; mkArray 4]
                 (fun b => negb (bool_decide (b = 8)))).
    destruct (entry_points_assert_no_leak (H := E) f [mkArray 0] [mkArray 6] [mkArray 1]
                [mkArray 2; mkArray 2] 0%Q 0%Q None sample_world) as [P _].
    pose (r := (inputs_disconnected <- DisconnectInputArrays [mkArray 0] ;;
                grad_outputs_disconnected <- DisconnectInputArrays [mkArray 6] ;;
                CheckDoubleBackwardComputationImpl (H := E) f inputs_disconnected
                  grad_outputs_disconnected [mkArray 1] [mkArray 2; mkArray 2] 0%Q 0%Q None)
                 (set_leak_tracker (Some []) sample_world)).
    destruct (P (snd r)) as [L _]; [vm_compute; reflexivity |].
    fold E f. rewrite L; [vm_compute; reflexivity |].
    exists 8. split; [by_computation | vm_compute; reflexivity].
  - pose (E := stub grads_first_order [mkArray 3] (fun b => negb (bool_decide (b = 8)))).
    destruct (entry_points_assert_no_leak (H := E) f [mkArray 0] [mkArray 1] []
                [mkArray 2] 0%Q 0%Q None sample_world) as [_ P].
    pose (r := CheckDoubleBackpropOption (H := E) f [mkArray 0] "default"
                 (set_leak_tracker (Some []) sample_world)).
    destruct (P (mkArray 0) [] "default" (snd r)) as [L _];
      [reflexivity | vm_compute; reflexivity | vm_compute; reflexivity |].
    fold E f. rewrite L; [vm_compute; reflexivity |].
    exists 8. split; [by_computation | vm_compute; reflexivity].
  - pose (E := stub grads_first_order [mkArray 3] (fun b => true)).
    destruct (entry_points_assert_no_leak (H := E) f [mkArray 0] [mkArray 1] []
                [mkArray 2] 0%Q 0%Q None sample_world) as [_ P].
    pose (r := CheckDoubleBackpropOption (H := E) f [mkArray 0] "default"
                 (set_leak_tracker (Some []) sample_world)).
    destruct (P (mkArray 0) [] "default" (snd r)) as [_ L];
      [reflexivity | vm_compute; reflexivity | vm_compute; reflexivity |].
    pose (r2 := CheckBackwardComputation (H := E) f [mkArray 0] [mkArray 1] [mkArray 2]
                  0%Q 0%Q None (set_leak_tracker (Some []) (set_leak_tracker None (snd r)))).
    destruct (L ltac:(reflexivity) (snd r2)) as [_ L2]; [vm_compute; reflexivity |].
    fold E f. rewrite L2; reflexivity.
Defined.

(** C9. [CheckBackward], once its graph identifier is derived, first runs the
    toggle verification inside a leak detection scope with an empty tracker
    of its own and asserts on that tracker.  An exception of the toggle
    verification, a fatal stop in it, or a survivor found by its assertion is
    the outcome of [CheckBackward], in the store that was reached then: the
    first order comparison is not run, whatever the estimator and the engine
    are.  Only when the toggle verification returns and nothing survives does
    the first order comparison run, from the store with the first scope
    closed, inside a second scope with a new empty tracker and an assertion
    of its own. *)
Theorem CheckBackward_toggle_first `{Collaborators} (func : Func)
    (inputs grad_outputs eps : list Array) (atol rtol : Q) (graph_id : option GraphId)
    (w : World) (first : Array) (rest : list Array) (g : GraphId) :
  inputs = first :: rest ->
  GetArrayGraphId first graph_id w = (Ok g, w) ->
  let toggle := CheckDoubleBackpropOption func inputs g (set_leak_tracker (Some []) w) in
  (forall c e w1, toggle = (Throw c e, w1) ->
     CheckBackward func inputs grad_outputs eps atol rtol graph_id w =
       (Throw c e, set_leak_tracker None w1)) /\
  (forall f w1, toggle = (Stop f, w1) ->
     CheckBackward func inputs grad_outputs eps atol rtol graph_id w = (Stop f, w1)) /\
  (forall w1, toggle = (Ok tt, w1) ->
     let recorded := default [] (leak_tracker w1) in
     let closed := set_leak_tracker None w1 in
     (survivors recorded closed <> [] ->
      CheckBackward func inputs grad_outputs eps atol rtol graph_id w =
        (Throw GradientCheckError (MsgLeak (survivors recorded closed)), closed)) /\
     (survivors recorded closed = [] ->
      leak_tracker closed = None /\
      CheckBackward func inputs grad_outputs eps atol rtol graph_id w =
        (r <- ArrayBodyLeakDetectionScope []
                (CheckBackwardComputation func inputs grad_outputs eps atol rtol graph_id) ;;
         CheckAllArrayBodiesFreed (snd r)) closed)).
Proof.
  intros Hin Hg toggle. subst inputs.
  rewrite (CheckBackward_unfold func first rest grad_outputs eps atol rtol graph_id g w Hg).
  split; [| split].
  - intros c e w1 Ht. now rewrite (bind_throw _ _ _ _ _ _ (leak_checked_throw _ _ _ _ _ Ht)).
  - intros f w1 Ht. now rewrite (bind_stop _ _ _ _ _ (leak_checked_stop _ _ _ _ Ht)).
  - intros w1 Ht recorded closed.
    pose proof (leak_checked_ok _ _ _ Ht) as E. fold recorded closed in E.
    rewrite CheckAllArrayBodiesFreed_spec in E. split.
    + intros Hs. rewrite bool_decide_eq_false_2 in E by exact Hs.
      now rewrite (bind_throw _ _ _ _ _ _ E).
    + intros Hs. rewrite bool_decide_eq_true_2 in E by exact Hs.
      split; [reflexivity |]. now rewrite (bind_ok _ _ _ _ _ E).
Qed.

Lemma CheckBackward_toggle_first_witness :
  fst (CheckBackward (H := stub (fun _ _ => Some (mkArray 4)) [mkArray 3] (fun _ => true))
         (stub_func [mkArray 1]) [mkArray 0] [mkArray 1] [mkArray 2] 0%Q 0%Q None sample_world) =
  Throw GradientCheckError
    (MsgText "Gradient 0 / 1 is connected to the graph 'default' even when double-backprop is disabled.").
Proof.
  pose (E := stub (fun _ _ => Some (mkArray 4)) [mkArray 3] (fun _ => true)).
  pose (f := stub_func [mkArray 1]).
  destruct (CheckBackward_toggle_first (H := E) f [mkArray 0] [mkArray 1] [mkArray 2]
              0%Q 0%Q None sample_world (mkArray 0) [] "default") as [P _].
  - reflexivity.
  - vm_compute. reflexivity.
  - pose (r := CheckDoubleBackpropOption (H := E) f [mkArray 0] "default"
                 (set_leak_tracker (Some []) sample_world)).
    fold E f.
    rewrite (P GradientCheckError
               (MsgText "Gradient 0 / 1 is connected to the graph 'default' even when double-backprop is disabled.")
               (snd r)); [reflexivity | vm_compute; reflexivity].
Defined.

(** C10, as the code has it.  With an empty input list, [CheckBackward]
    stops at its assertion and [CheckDoubleBackwardComputation] takes the
    front of an empty vector, which is undefined.  With a first input whose
    handle is valid, the graph identifier both entry points work with is the
    given one or, when none is given, the default graph of the first input,
    and deriving it succeeds: [CheckBackward] passes its assertion and is its
    two leak-checked scopes with that identifier, and
    [CheckDoubleBackwardComputation] isolates its arguments, the isolated
    inputs are not empty, the identifier is derived from the view of the first
    input, and the entry point is the leak-checked second order check on the
    views.  Nothing more is promised for a non-empty input list: the checks
    behind this step can still stop. *)
Theorem entry_points_need_an_input `{Collaborators} (func : Func)
    (grad_outputs grad_grad_inputs eps : list Array) (atol rtol : Q)
    (graph_id : option GraphId) (w : World) :
  CheckBackward func [] grad_outputs eps atol rtol graph_id w =
    (Stop (AssertionFailure "!inputs.empty()"), w) /\
  (Forall (valid w) grad_outputs ->
   exists w',
     CheckDoubleBackwardComputation func [] grad_outputs grad_grad_inputs eps atol rtol
       graph_id w = (Stop (UndefinedBehaviour "front() of an empty vector"), w')) /\
  (forall first rest b,
     bodies w !! GetArrayBody first = Some b ->
     let g := default (default_graph_id b) graph_id in
     GetArrayGraphId first graph_id w = (Ok g, w) /\
     CheckBackward func (first :: rest) grad_outputs eps atol rtol graph_id w =
       ((r <- ArrayBodyLeakDetectionScope []
               (CheckDoubleBackpropOption func (first :: rest) g) ;;
         CheckAllArrayBodiesFreed (snd r)) ;;
        (r <- ArrayBodyLeakDetectionScope []
               (CheckBackwardComputation func (first :: rest) grad_outputs eps atol rtol
                  graph_id) ;;
         CheckAllArrayBodiesFreed (snd r))) w /\
     (Forall (valid w) rest -> Forall (valid w) grad_outputs ->
      exists view views grad_views w1 w2,
        DisconnectInputArrays (first :: rest) (set_leak_tracker (Some []) w) =
          (Ok (view :: views), w1) /\
        DisconnectInputArrays grad_outputs w1 = (Ok grad_views, w2) /\
        front (view :: views) w2 = (Ok view, w2) /\
        GetArrayGraphId view graph_id w2 = (Ok g, w2) /\
        CheckDoubleBackwardComputation func (first :: rest) grad_outputs grad_grad_inputs eps
          atol rtol graph_id w =
          match CheckDoubleBackwardComputationImpl func (view :: views) grad_views
                  grad_grad_inputs eps atol rtol graph_id w2 with
          | (Ok _, w3) =>
              CheckAllArrayBodiesFreed (default [] (leak_tracker w3)) (set_leak_tracker None w3)
          | (Throw c e, w3) => (Throw c e, set_leak_tracker None w3)
          | (Stop f, w3) => (Stop f, w3)
          end)).
Proof.
  split; [reflexivity |]. split.
  - intros Hv.
    destruct (DisconnectInputArrays_views grad_outputs (set_leak_tracker (Some []) w) Hv)
      as (gviews & w1 & E & _).
    exists w1. unfold CheckDoubleBackwardComputation.
    apply bind_stop. unfold ArrayBodyLeakDetectionScope.
    change (DisconnectInputArrays []) with (@ret (list Array) []). rewrite bind_ret.
    rewrite (bind_ok _ _ _ _ _ E). reflexivity.
  - intros first rest b Hb g.
    assert (Hg : GetArrayGraphId first graph_id w = (Ok g, w)).
    { unfold GetArrayGraphId, g. destruct graph_id as [g'|]; [reflexivity |].
      now rewrite (bind_ok _ _ _ _ _ (deref_ok _ _ _ Hb)). }
    split; [exact Hg |]. split; [now apply CheckBackward_unfold |].
    intros Hvr Hvo.
    destruct (DisconnectInputArrays_views (first :: rest) (set_leak_tracker (Some []) w))
      as (views & w1 & E1 & HF & _ & S1 & _).
    { constructor; [now exists b | exact Hvr]. }
    destruct (DisconnectInputArrays_views grad_outputs w1) as (gviews & w2 & E2 & _ & _ & S2 & _).
    { eapply Forall_impl; [exact Hvo |]. intros a [ba Ha]. exists ba.
      eapply lookup_weaken; [exact Ha | exact S1]. }
    inversion HF as [|? view ? views' Hview HF' ]; subst.
    exists view, views', gviews, w1, w2.
    split; [exact E1 |]. split; [exact E2 |]. split; [reflexivity |]. split.
    + destruct Hview as (b0 & b' & Hb0 & Hb' & _ & _ & _ & _ & Hdg & _).
      simpl in Hb0. assert (b0 = b) as -> by congruence.
      unfold GetArrayGraphId, g. destruct graph_id as [g'|]; [reflexivity |].
      rewrite (bind_ok _ _ _ _ _ (deref_ok _ _ _ (lookup_weaken _ _ _ _ Hb' S2))).
      simpl. now rewrite Hdg.
    + set (impl := CheckDoubleBackwardComputationImpl func (view :: views') gviews
                     grad_grad_inputs eps atol rtol graph_id).
      assert (Hm : (inputs_disconnected <- DisconnectInputArrays (first :: rest) ;;
                    grad_outputs_disconnected <- DisconnectInputArrays grad_outputs ;;
                    CheckDoubleBackwardComputationImpl func inputs_disconnected
                      grad_outputs_disconnected grad_grad_inputs eps atol rtol graph_id)
                     (set_leak_tracker (Some []) w) = impl w2).
      { now rewrite (bind_ok _ _ _ _ _ E1), (bind_ok _ _ _ _ _ E2). }
      unfold CheckDoubleBackwardComputation.
      destruct (impl w2) as [[[]| c e | f] w3].
      * now rewrite (leak_checked_ok _ _ _ Hm).
      * now rewrite (leak_checked_throw _ _ _ _ _ Hm).
      * now rewrite (leak_checked_stop _ _ _ _ Hm).
Qed.

Lemma entry_points_need_an_input_witness :
  (exists w',
     CheckDoubleBackwardComputation (H := stub grads_first_order [] (fun _ => true))
       (stub_func [mkArray 1]) [] [mkArray 6] [] [] 0%Q 0%Q None sample_world =
       (Stop (UndefinedBehaviour "front() of an empty vector"), w')) /\
  GetArrayGraphId (mkArray 0) None sample_world = (Ok "default", sample_world).
Proof.
  destruct (entry_points_need_an_input (H := stub grads_first_order [] (fun _ => true))
              (stub_func [mkArray 1]) [mkArray 6] [] [] 0%Q 0%Q None sample_world)
    as (_ & P & Q).
  split.
  - apply P. by_computation.
  - destruct (Q (mkArray 0) [] (float_body 0 [leaf])) as (Hg & _ & R).
    + vm_compute. reflexivity.
    + destruct R as (view & views & gviews & w1 & w2 & _); [by_computation | by_computation |].
      exact Hg.
Defined.

(** The entry points are not total on a non-empty input list.  On the
    sample store, with one valid input, [CheckBackward] stops when the
    caller gives no perturbation for the input whose gradient fails the
    comparison, and [CheckDoubleBackwardComputation] stops at its assertion
    when the estimator returns one gradient for the two arrays of the
    combined vector. *)
Lemma entry_points_stop_with_an_input :
  fst (CheckBackward (H := stub grads_first_order [mkArray 2] (fun _ => true))
         (stub_func [mkArray 1]) [mkArray 0] [mkArray 1] [] 0%Q 0%Q None sample_world) =
    Stop (UndefinedBehaviour "operator[] out of range") /\
  fst (CheckDoubleBackwardComputation (H := stub grads_first_order [mkArray 4] (fun _ => true))
         (stub_func [mkArray 1]) [mkArray 0] [mkArray 6] [mkArray 1] [mkArray 2; mkArray 2]
         0%Q 0%Q None sample_world) =
    Stop (AssertionFailure "numerical_grads.size() == nin + nout").
Proof. split; vm_compute; reflexivity. Qed.

(** ** The classes of the errors *)

Section ErrorClasses.
Context `{Collaborators}.

(** The tolerance report is thrown as [GradientCheckError]; any other
    exception of this step is one of the subtraction, passed on as it is. *)
Lemma raise_numerical_error_class double nin failed bgs ngs eps g atol rtol w c e w' :
  raise_numerical_error double nin failed bgs ngs eps g atol rtol w = (Throw c e, w') ->
  c = GradientCheckError \/ report_entries failed bgs ngs eps w = (Throw c e, w').
Proof.
  unfold raise_numerical_error. case_bool_decide; simpl; [discriminate |].
  unfold bind. destruct (report_entries failed bgs ngs eps w) as [[ys| c' e' |f] w1] eqn:E.
  - intros [= <- _ _]. now left.
  - intros [= <- <- <-]. now right.
  - discriminate.
Qed.

Lemma CheckAllArrayBodiesFreed_class tracker w c e w' :
  CheckAllArrayBodiesFreed tracker w = (Throw c e, w') -> c = GradientCheckError.
Proof.
  rewrite CheckAllArrayBodiesFreed_spec. case_bool_decide; [discriminate |]. now intros [= <- _ _].
Qed.

Lemma check_second_order_exist_class bgs nin nout g w c e w' :
  check_second_order_exist bgs nin nout g w = (Throw c e, w') -> c = GradientCheckError.
Proof.
  rewrite check_second_order_exist_spec. case_bool_decide; [discriminate |]. now intros [= <- _ _].
Qed.

End ErrorClasses.

(** C8, as the code has it.  The violations that [BackwardGradients] detects
    (an input that is not a leaf, an output that is the body of an input
    that requires gradient, a number of seed gradients other than the number
    of outputs) are raised as [GradientCheckError], the class in which the
    tolerance report, the report of missing second order gradients and the
    leak report are raised (the step that throws the tolerance report throws
    nothing else, an exception of the subtraction made for the report
    apart).  The violations that the second order check
    detects itself (a number of second order seeds other than the number of
    inputs, an input or a seed gradient that does not require gradient) are
    raised as [XchainerError], which is another class. *)
Theorem precondition_error_classes `{Collaborators} (func : Func) (inputs : list Array)
    (g : GraphId) (double_backprop : DoubleBackpropOption) (w : World) :
  (Forall (valid w) inputs ->
   Exists (fun a => exists b, bodies w !! GetArrayBody a = Some b /\ is_non_leaf b g = true) inputs ->
   forall grad_outputs,
     BackwardGradients func inputs grad_outputs g double_backprop w =
       (Throw GradientCheckError MsgNotLeaf, w)) /\
  (forall outputs w1,
     Forall (fun a => exists b, bodies w !! GetArrayBody a = Some b /\ is_non_leaf b g = false)
       inputs ->
     func inputs w = (Ok outputs, w1) ->
     Forall (valid w1) inputs ->
     (forall i j grad_outputs, identical_pair inputs outputs g w1 i j ->
        exists i' j',
          BackwardGradients func inputs grad_outputs g double_backprop w =
            (Throw GradientCheckError (MsgIdentical i' j'), w1)) /\
     (forall gos, (forall i j, ~ identical_pair inputs outputs g w1 i j) ->
        length outputs <> length gos ->
        BackwardGradients func inputs (Some gos) g double_backprop w =
          (Throw GradientCheckError (MsgGradOutputsSize (length outputs) (length gos)), w1))) /\
  (forall first rest grad_outputs grad_grad_inputs eps atol rtol graph_id,
     inputs = first :: rest ->
     GetArrayGraphId first graph_id w = (Ok g, w) ->
     Forall (valid w) (inputs ++ grad_outputs) ->
     length grad_grad_inputs <> length inputs \/
       Exists (fun a => IsGradRequired a g w = (Ok false, w)) (inputs ++ grad_outputs) ->
     exists e,
       CheckDoubleBackwardComputationImpl func inputs grad_outputs grad_grad_inputs eps atol rtol
         graph_id w = (Throw XchainerError e, w)) /\
  (forall double nin failed bgs ngs eps atol rtol c e w',
     raise_numerical_error double nin failed bgs ngs eps g atol rtol w = (Throw c e, w') ->
     c = GradientCheckError \/ report_entries failed bgs ngs eps w = (Throw c e, w')) /\
  (forall bgs nin nout c e w',
     check_second_order_exist bgs nin nout g w = (Throw c e, w') -> c = GradientCheckError) /\
  (forall tracker c e w',
     CheckAllArrayBodiesFreed tracker w = (Throw c e, w') -> c = GradientCheckError) /\
  XchainerError <> GradientCheckError.
Proof.
  split; [| split; [| split; [| split; [| split; [| split]]]]].
  - intros Hv Hex grad_outputs. now apply BackwardGradients_non_leaf.
  - intros outputs w1 Hl Hf Hv. split.
    + intros i j grad_outputs Hp.
      destruct (BackwardGradients_identical func inputs grad_outputs g double_backprop w
                  outputs w1 i j Hl Hf Hv Hp) as (i' & j' & E & _).
      eauto.
    + intros gos Hn Hlen. now apply BackwardGradients_size_mismatch.
  - intros first rest grad_outputs grad_grad_inputs eps atol rtol graph_id Hin Hg Hv Hbad.
    eapply Impl_preconditions; eauto.
  - intros double nin failed bgs ngs eps atol rtol c e w'.
    apply raise_numerical_error_class.
  - intros bgs nin nout c e w'. apply check_second_order_exist_class.
  - intros tracker c e w'. apply CheckAllArrayBodiesFreed_class.
  - discriminate.
Qed.

Lemma precondition_error_classes_witness :
  BackwardGradients (H := stub grads_first_order [mkArray 2] (fun _ => true))
    (stub_func [mkArray 1]) [mkArray 0; mkArray 5] (Some []) "default" kEnable sample_world =
    (Throw GradientCheckError MsgNotLeaf, sample_world) /\
  (exists i j,
     BackwardGradients (H := stub grads_first_order [mkArray 2] (fun _ => true))
       (stub_func [mkArray 1; mkArray 0]) [mkArray 0] None "default" kEnable sample_world =
       (Throw GradientCheckError (MsgIdentical i j), sample_world)) /\
  BackwardGradients (H := stub grads_first_order [mkArray 2] (fun _ => true))
    (stub_func [mkArray 1]) [mkArray 0] (Some []) "default" kEnable sample_world =
    (Throw GradientCheckError (MsgGradOutputsSize 1 0), sample_world) /\
  (exists e,
     CheckDoubleBackwardComputationImpl (H := stub grads_first_order [mkArray 2] (fun _ => true))
       (stub_func [mkArray 1]) [mkArray 0] [mkArray 6] [] [] 0%Q 0%Q None sample_world =
       (Throw XchainerError e, sample_world)) /\
  CheckAllArrayBodiesFreed (H := stub grads_first_order [mkArray 2] (fun _ => false)) [0]
    sample_world = (Throw GradientCheckError (MsgLeak [0]), sample_world).
Proof.
  pose (E := stub grads_first_order [mkArray 2] (fun _ => true)).
  pose (f := stub_func [mkArray 1]).
  split; [| split; [| split; [| split]]].
  - destruct (precondition_error_classes (H := E) f [mkArray 0; mkArray 5] "default" kEnable
                sample_world) as (P & _).
    apply P; [by_computation |].
    apply Exists_cons_tl, Exists_cons_hd. eexists. split; vm_compute; reflexivity.
  - destruct (precondition_error_classes (H := E) (stub_func [mkArray 1; mkArray 0])
                [mkArray 0] "default" kEnable sample_world) as (_ & P & _).
    destruct (P [mkArray 1; mkArray 0] sample_world) as [Q _].
    + repeat constructor. eexists. split; vm_compute; reflexivity.
    + reflexivity.
    + by_computation.
    + apply (Q 0 1 None). exists (mkArray 0), (mkArray 0), (float_body 0 [leaf]).
      repeat split; vm_compute; reflexivity.
  - destruct (precondition_error_classes (H := E) f [mkArray 0] "default" kEnable
                sample_world) as (_ & P & _).
    destruct (P [mkArray 1] sample_world) as [_ Q].
    + repeat constructor. eexists. split; vm_compute; reflexivity.
    + reflexivity.
    + by_computation.
    + apply (Q []); [| simpl; lia].
      intros i j (a & o & b & Ha & Ho & Hao & _).
      destruct i; [| destruct i; discriminate]. destruct j; [| destruct j; discriminate].
      injection Ha as <-. injection Ho as <-. discriminate.
  - destruct (precondition_error_classes (H := E) f [mkArray 0] "default" kEnable
                sample_world) as (_ & _ & P & _).
    apply (P (mkArray 0) []); [reflexivity | vm_compute; reflexivity | by_computation |].
    left. simpl. lia.
  - pose (E' := stub grads_first_order [mkArray 2] (fun _ => false)).
    destruct (precondition_error_classes (H := E') f [mkArray 0] "default" kEnable
                sample_world) as (_ & _ & _ & _ & _ & P & _).
    assert (Hrun : CheckAllArrayBodiesFreed (H := E') [0] sample_world =
                   (Throw GradientCheckError (MsgLeak [0]), sample_world))
      by (vm_compute; reflexivity).
    pose proof (P [0] GradientCheckError (MsgLeak [0]) sample_world Hrun) as Hc.
    exact Hrun.
Defined.

(** C8, as the claim has it, fails: on the sample store the error of the
    leaf check of [BackwardGradients] (a misuse of the check) and the
    tolerance report of [CheckBackwardComputation] (a wrong gradient) are
    raised with one and the same class. *)
Lemma precondition_violation_shares_class :
  fst (BackwardGradients (H := stub grads_first_order [mkArray 2] (fun _ => true))
         (stub_func [mkArray 1]) [mkArray 0; mkArray 5] None "default" kEnable sample_world) =
    Throw GradientCheckError MsgNotLeaf /\
  fst (CheckBackwardComputation (H := stub grads_first_order [mkArray 2] (fun _ => true))
         (stub_func [mkArray 1]) [mkArray 0] [mkArray 1] [mkArray 2] 0%Q 0%Q None sample_world) =
    Throw GradientCheckError
      (MsgNumericalError false 1 [0] "default" 0%Q 0%Q
         [(0, mkArray 8, mkArray 3, mkArray 2, mkArray 2)]) /\
  error_class
    (fst (BackwardGradients (H := stub grads_first_order [mkArray 2] (fun _ => true))
            (stub_func [mkArray 1]) [mkArray 0; mkArray 5] None "default" kEnable sample_world)) =
  error_class
    (fst (CheckBackwardComputation (H := stub grads_first_order [mkArray 2] (fun _ => true))
            (stub_func [mkArray 1]) [mkArray 0] [mkArray 1] [mkArray 2] 0%Q 0%Q None
            sample_world)).
Proof. split; [| split]; vm_compute; reflexivity. Qed.

(** ** Further facts about loops *)

(** A loop of checks stops at the first check that does not return. *)
Lemma for_range_first (count from i : nat) (f : nat -> M unit) (w w' : World)
    (r : Outcome unit) :
  from <= i < from + count ->
  (forall k, from <= k < i -> f k w = (Ok tt, w)) ->
  f i w = (r, w') -> r <> Ok tt ->
  for_range from count f w = (r, w').
Proof.
  revert from. induction count as [|n IH]; intros from Hi Hk Hf Hr; [lia |]. simpl.
  destruct (decide (from = i)) as [-> | Hne].
  - unfold bind. rewrite Hf. destruct r as [[]| |]; [congruence | reflexivity | reflexivity].
  - rewrite (bind_ok _ _ _ _ _ (Hk from ltac:(lia))).
    apply IH; [lia | intros k Hk'; apply Hk; lia | exact Hf | exact Hr].
Qed.

Lemma for_range_all (count from : nat) (f : nat -> M unit) (w : World) :
  (forall k, from <= k < from + count -> f k w = (Ok tt, w)) ->
  for_range from count f w = (Ok tt, w).
Proof.
  revert from. induction count as [|n IH]; intros from Hk; [reflexivity |]. simpl.
  rewrite (bind_ok _ _ _ _ _ (Hk from ltac:(lia))). apply IH. intros k Hk'. apply Hk. lia.
Qed.

(** A [transform] whose body only reads the store leaves the store as it is,
    and its results are those of the body in that store. *)
Lemma transform_read_only {A B} (f : A -> M B) (l : list A) (w w' : World) (ys : list B) :
  (forall x w0 r w1, f x w0 = (r, w1) -> w1 = w0) ->
  transform l f w = (Ok ys, w') ->
  w' = w /\ Forall2 (fun x y => f x w = (Ok y, w)) l ys.
Proof.
  intros Hro. revert ys. induction l as [|x l IH]; intros ys; simpl.
  - intros [= <- <-]. split; [reflexivity | constructor].
  - intros E. apply bind_inv_ok in E as (y & w1 & E1 & E).
    apply bind_inv_ok in E as (zs & w2 & E2 & [= <- <-]).
    pose proof (Hro _ _ _ _ E1) as ->. destruct (IH _ E2) as [-> HF].
    split; [reflexivity | now constructor].
Qed.

Lemma IsGradRequired_read_only a g w r w' : IsGradRequired a g w = (r, w') -> w' = w.
Proof.
  unfold IsGradRequired, bind, deref. destruct (bodies w !! GetArrayBody a); now intros [= _ <-].
Qed.

Lemma GetGrad_read_only a g w r w' : GetGrad a g w = (r, w') -> w' = w.
Proof.
  unfold GetGrad, bind, deref. destruct (bodies w !! GetArrayBody a) as [b|]; [| now intros [= _ <-]].
  destruct (GetArrayNode b g); now intros [= _ <-].
Qed.

Lemma grad_slot_no_node b g : HasArrayNode b g = false -> grad_slot b g = None.
Proof.
  unfold HasArrayNode, grad_slot. intros E. apply bool_decide_eq_false in E.
  destruct (GetArrayNode b g); [destruct E; eauto | reflexivity].
Qed.

(** What the last loop of [BackwardGradients] reads for one input. *)
Lemma harvest_step a g w r w' :
  (r <- IsGradRequired a g ;; if negb r then ret None else GetGrad a g) w = (r, w') ->
  w' = w /\
  forall y, r = Ok y ->
    exists b, bodies w !! GetArrayBody a = Some b /\ y = grad_slot b g.
Proof.
  destruct (bodies w !! GetArrayBody a) as [b|] eqn:Hb.
  - rewrite (bind_ok _ _ _ _ _ (IsGradRequired_ok _ _ g _ Hb)).
    destruct (HasArrayNode b g) eqn:Hn; simpl.
    + unfold GetGrad. rewrite (bind_ok _ _ _ _ _ (deref_ok _ _ _ Hb)).
      unfold grad_slot. destruct (GetArrayNode b g) as [n|] eqn:Hg.
      * intros [= <- <-]. split; [reflexivity |]. intros y [= <-]. exists b.
        now rewrite Hg.
      * intros [= <- <-]. split; [reflexivity | discriminate].
    + intros [= <- <-]. split; [reflexivity |]. intros y [= <-]. exists b.
      split; [reflexivity |]. symmetry. now apply grad_slot_no_node.
  - unfold bind, IsGradRequired, bind, deref. rewrite Hb.
    intros [= <- <-]. split; [reflexivity | discriminate].
Qed.

(** ** More on [BackwardGradients] *)

(** X1. Whenever [BackwardGradients] returns, it returns one entry per input,
    in the order of the inputs, and the entry of an input is the gradient
    slot of its body under the graph in the store that the backward pass
    left: no value for an input without a node under the graph or with an
    empty slot. *)
Theorem BackwardGradients_reads_slots `{Collaborators} (func : Func) (inputs : list Array)
    (grad_outputs : option (list Array)) (g : GraphId) (double_backprop : DoubleBackpropOption)
    (w w' : World) (bgs : list (option Array)) :
  BackwardGradients func inputs grad_outputs g double_backprop w = (Ok bgs, w') ->
  length bgs = length inputs /\
  forall i a, inputs !! i = Some a ->
    exists b, bodies w' !! GetArrayBody a = Some b /\ bgs !! i = Some (grad_slot b g).
Proof.
  unfold BackwardGradients. intros E.
  do 7 (apply bind_inv_ok in E as (? & ? & _ & E)).
  apply transform_read_only in E as [-> HF].
  2:{ intros a w0 r w1 Hs. now apply harvest_step in Hs as [-> _]. }
  split; [symmetry; eapply Forall2_length; exact HF |].
  intros i a Ha. destruct (Forall2_lookup_l _ _ _ _ _ HF Ha) as (y & Hy & Hs).
  apply harvest_step in Hs as [_ Hs]. destruct (Hs y eq_refl) as (b & Hb & ->). eauto.
Qed.

Lemma BackwardGradients_reads_slots_witness :
  fst (BackwardGradients (H := stub grads_first_order [] (fun _ => true)) (stub_func [mkArray 2])
         [mkArray 0; mkArray 1] None "default" kEnable sample_world) =
  Ok [Some (mkArray 4); None].
Proof.
  pose (E := stub grads_first_order [] (fun _ => true)).
  pose (r := BackwardGradients (H := E) (stub_func [mkArray 2]) [mkArray 0; mkArray 1] None
               "default" kEnable sample_world).
  destruct (BackwardGradients_reads_slots (H := E) (stub_func [mkArray 2])
              [mkArray 0; mkArray 1] None "default" kEnable sample_world (snd r)
              (result_of [] r)) as [Hlen _]; [vm_compute; reflexivity |].
  vm_compute. reflexivity.
Defined.

(** One body of the inner loop of the aliasing check, for indices in range. *)
Lemma identical_inner_cases (inputs outputs : list Array) (g : GraphId) (w : World) (i j : nat) :
  Forall (valid w) inputs -> i < length inputs -> j < length outputs ->
  ((input <- at_ inputs i ;;
    output <- at_ outputs j ;;
    if bool_decide (GetArrayBody input = GetArrayBody output)
    then r <- IsGradRequired input g ;;
         if r then throw GradientCheckError (MsgIdentical i j) else ret tt
    else ret tt) w = (Ok tt, w) /\ ~ identical_pair inputs outputs g w i j) \/
  ((input <- at_ inputs i ;;
    output <- at_ outputs j ;;
    if bool_decide (GetArrayBody input = GetArrayBody output)
    then r <- IsGradRequired input g ;;
         if r then throw GradientCheckError (MsgIdentical i j) else ret tt
    else ret tt) w = (Throw GradientCheckError (MsgIdentical i j), w) /\
   identical_pair inputs outputs g w i j).
Proof.
  intros Hv Hi Hj. rewrite Forall_forall in Hv.
  destruct (lookup_lt_is_Some_2 inputs i Hi) as [a Ha].
  destruct (lookup_lt_is_Some_2 outputs j Hj) as [o Ho].
  destruct (Hv a ltac:(eapply list_elem_of_lookup_2; eauto)) as [b Hb].
  rewrite (identical_step inputs outputs g w i j a o b Ha Ho Hb).
  destruct (bool_decide (GetArrayBody a = GetArrayBody o) && HasArrayNode b g) eqn:E.
  - right. split; [reflexivity |]. apply andb_true_iff in E as [E1 E2].
    apply bool_decide_eq_true in E1. exists a, o, b. tauto.
  - left. split; [reflexivity |]. intros (a' & o' & b' & Ha' & Ho' & E1 & Hb' & E2).
    assert (a' = a) as -> by congruence. assert (o' = o) as -> by congruence.
    assert (b' = b) as -> by congruence.
    rewrite E2, bool_decide_eq_true_2 in E by exact E1. discriminate.
Qed.

Lemma identical_pair_bounds inputs outputs g w i j :
  identical_pair inputs outputs g w i j -> i < length inputs /\ j < length outputs.
Proof.
  intros (a & o & b & Ha & Ho & _). split; eapply lookup_lt_Some; eauto.
Qed.

Lemma check_identical_first (inputs outputs : list Array) (g : GraphId) (w : World) (i j : nat) :
  Forall (valid w) inputs ->
  identical_pair inputs outputs g w i j ->
  (forall i' j', identical_pair inputs outputs g w i' j' -> i < i' \/ (i = i' /\ j <= j')) ->
  check_identical inputs outputs g w = (Throw GradientCheckError (MsgIdentical i j), w).
Proof.
  intros Hv Hp Hmin. destruct (identical_pair_bounds _ _ _ _ _ _ Hp) as [Hi Hj].
  unfold check_identical.
  apply (for_range_first (length inputs) 0 i); [lia | | | discriminate].
  - intros k Hk. apply for_range_all. intros j' Hj'.
    destruct (identical_inner_cases inputs outputs g w k j' Hv ltac:(lia) ltac:(lia))
      as [[E _] | [_ Hp']]; [exact E |].
    apply Hmin in Hp'. lia.
  - apply (for_range_first (length outputs) 0 j); [lia | | | discriminate].
    + intros k Hk.
      destruct (identical_inner_cases inputs outputs g w i k Hv Hi ltac:(lia))
        as [[E _] | [_ Hp']]; [exact E |].
      apply Hmin in Hp'. lia.
    + destruct (identical_inner_cases inputs outputs g w i j Hv Hi Hj)
        as [[_ Hn] | [E _]]; [tauto | exact E].
Qed.

(** X2. When the leaf check passes and the forward function returns, the
    aliasing check of [BackwardGradients] goes through the inputs in order
    and, for each input, through the outputs in order: the error names the
    first pair, in that order, of an input that requires gradient and an
    output on the same body. *)
Theorem BackwardGradients_names_first_identical_pair `{Collaborators} (func : Func)
    (inputs : list Array) (grad_outputs : option (list Array)) (g : GraphId)
    (double_backprop : DoubleBackpropOption) (w w1 : World) (outputs : list Array) (i j : nat) :
  Forall (fun a => exists b, bodies w !! GetArrayBody a = Some b /\ is_non_leaf b g = false) inputs ->
  func inputs w = (Ok outputs, w1) ->
  Forall (valid w1) inputs ->
  identical_pair inputs outputs g w1 i j ->
  (forall i' j', identical_pair inputs outputs g w1 i' j' -> i < i' \/ (i = i' /\ j <= j')) ->
  BackwardGradients func inputs grad_outputs g double_backprop w =
    (Throw GradientCheckError (MsgIdentical i j), w1).
Proof.
  intros Hl Hf Hv Hp Hmin. unfold BackwardGradients.
  rewrite (bind_ok _ _ _ _ _ (check_leaves_leaves inputs g w Hl)), (bind_ok _ _ _ _ _ Hf).
  now rewrite (bind_throw _ _ _ _ _ _ (check_identical_first inputs outputs g w1 i j Hv Hp Hmin)).
Qed.

Lemma BackwardGradients_names_first_identical_pair_witness :
  BackwardGradients (H := stub grads_first_order [] (fun _ => true))
    (stub_func [mkArray 1; mkArray 4; mkArray 0; mkArray 0]) [mkArray 1; mkArray 0; mkArray 4]
    None "default" kEnable sample_world =
  (Throw GradientCheckError (MsgIdentical 1 2), sample_world).
Proof.
  apply (BackwardGradients_names_first_identical_pair
           (H := stub grads_first_order [] (fun _ => true))
           (stub_func [mkArray 1; mkArray 4; mkArray 0; mkArray 0])
           [mkArray 1; mkArray 0; mkArray 4] None "default" kEnable sample_world sample_world
           [mkArray 1; mkArray 4; mkArray 0; mkArray 0] 1 2).
  - repeat constructor; eexists; split; vm_compute; reflexivity.
  - reflexivity.
  - by_computation.
  - exists (mkArray 0), (mkArray 0), (float_body 0 [leaf]).
    repeat split; vm_compute; reflexivity.
  - intros i' j' (a & o & b & Ha & Ho & Hao & Hb & Hn).
    destruct i' as [|[|[|i']]]; [| | | discriminate]; injection Ha as <-.
    + exfalso. revert Hb Hn. vm_compute. intros [= <-]. discriminate.
    + right. split; [reflexivity |].
      destruct j' as [|[|j']]; [| | lia]; injection Ho as <-; discriminate.
    + left. lia.
Defined.

(** ** More on the second order check *)

Lemma differentiable_loop_first (mk : nat -> Message) (l : list Array) (g : GraphId) (w : World)
    (i : nat) (a : Array) :
  l !! i = Some a ->
  IsGradRequired a g w = (Ok false, w) ->
  (forall k a', k < i -> l !! k = Some a' -> IsGradRequired a' g w = (Ok true, w)) ->
  for_range 0 (length l) (fun i =>
    a <- at_ l i ;;
    r <- IsGradRequired a g ;;
    if negb r then throw XchainerError (mk i) else ret tt) w =
  (Throw XchainerError (mk i), w).
Proof.
  intros Ha Hr Hbefore. pose proof (lookup_lt_Some _ _ _ Ha) as Hi.
  apply (for_range_first (length l) 0 i); [lia | | | discriminate].
  - intros k Hk. destruct (lookup_lt_is_Some_2 l k ltac:(lia)) as [a' Ha'].
    rewrite (bind_ok _ _ _ _ _ (at_ok _ _ _ _ Ha')).
    now rewrite (bind_ok _ _ _ _ _ (Hbefore k a' ltac:(lia) Ha')).
  - rewrite (bind_ok _ _ _ _ _ (at_ok _ _ _ _ Ha)). now rewrite (bind_ok _ _ _ _ _ Hr).
Qed.

Lemma differentiable_loop_all (mk : nat -> Message) (l : list Array) (g : GraphId) (w : World) :
  Forall (fun a => IsGradRequired a g w = (Ok true, w)) l ->
  for_range 0 (length l) (fun i =>
    a <- at_ l i ;;
    r <- IsGradRequired a g ;;
    if negb r then throw XchainerError (mk i) else ret tt) w = (Ok tt, w).
Proof.
  intros Hall. rewrite Forall_forall in Hall. apply for_range_all. intros k Hk.
  destruct (lookup_lt_is_Some_2 l k ltac:(lia)) as [a' Ha'].
  rewrite (bind_ok _ _ _ _ _ (at_ok _ _ _ _ Ha')).
  now rewrite (bind_ok _ _ _ _ _ (Hall a' ltac:(eapply list_elem_of_lookup_2; eauto))).
Qed.

(** X3. The checks of the second order check come in a fixed order, each
    with the store untouched: a number of second order seeds other than the
    number of inputs is reported first, whatever the arrays are; then the
    first input, in order, that does not require gradient under the graph;
    then, when every input requires gradient, the first seed gradient that
    does not. *)
Theorem second_order_precondition_order `{Collaborators} (func : Func)
    (inputs grad_outputs grad_grad_inputs eps : list Array) (atol rtol : Q)
    (graph_id : option GraphId) (w : World) (first : Array) (rest : list Array) (g : GraphId) :
  inputs = first :: rest ->
  GetArrayGraphId first graph_id w = (Ok g, w) ->
  (length grad_grad_inputs <> length inputs ->
   CheckDoubleBackwardComputationImpl func inputs grad_outputs grad_grad_inputs eps atol rtol
     graph_id w = (Throw XchainerError MsgGradGradInputsCount, w)) /\
  (forall i a,
     length grad_grad_inputs = length inputs ->
     inputs !! i = Some a ->
     IsGradRequired a g w = (Ok false, w) ->
     (forall k a', k < i -> inputs !! k = Some a' -> IsGradRequired a' g w = (Ok true, w)) ->
     CheckDoubleBackwardComputationImpl func inputs grad_outputs grad_grad_inputs eps atol rtol
       graph_id w = (Throw XchainerError (MsgInputNotDifferentiable i (length inputs) g), w)) /\
  (forall i a,
     length grad_grad_inputs = length inputs ->
     Forall (fun a => IsGradRequired a g w = (Ok true, w)) inputs ->
     grad_outputs !! i = Some a ->
     IsGradRequired a g w = (Ok false, w) ->
     (forall k a', k < i -> grad_outputs !! k = Some a' ->
        IsGradRequired a' g w = (Ok true, w)) ->
     CheckDoubleBackwardComputationImpl func inputs grad_outputs grad_grad_inputs eps atol rtol
       graph_id w =
       (Throw XchainerError (MsgGradOutputNotDifferentiable i (length grad_outputs) g), w)).
Proof.
  intros Hin Hg.
  assert (Hfront : front inputs w = (Ok first, w)) by now subst inputs.
  split; [| split].
  - intros Hlen. unfold CheckDoubleBackwardComputationImpl.
    rewrite (bind_ok _ _ _ _ _ Hfront), (bind_ok _ _ _ _ _ Hg).
    now rewrite bool_decide_eq_true_2 by exact Hlen.
  - intros i a Hlen Ha Hr Hbefore. unfold CheckDoubleBackwardComputationImpl.
    rewrite (bind_ok _ _ _ _ _ Hfront), (bind_ok _ _ _ _ _ Hg).
    rewrite bool_decide_eq_false_2 by (intros E; now apply E). rewrite bind_ret.
    unfold check_inputs_differentiable.
    now rewrite (bind_throw _ _ _ _ _ _ (differentiable_loop_first _ inputs g w i a Ha Hr Hbefore)).
  - intros i a Hlen Hall Ha Hr Hbefore. unfold CheckDoubleBackwardComputationImpl.
    rewrite (bind_ok _ _ _ _ _ Hfront), (bind_ok _ _ _ _ _ Hg).
    rewrite bool_decide_eq_false_2 by (intros E; now apply E). rewrite bind_ret.
    unfold check_inputs_differentiable, check_grad_outputs_differentiable.
    rewrite (bind_ok _ _ _ _ _ (differentiable_loop_all _ inputs g w Hall)).
    now rewrite (bind_throw _ _ _ _ _ _
                   (differentiable_loop_first _ grad_outputs g w i a Ha Hr Hbefore)).
Qed.

Lemma second_order_precondition_order_witness :
  CheckDoubleBackwardComputationImpl (H := stub grads_first_order [] (fun _ => true))
    (stub_func [mkArray 1]) [mkArray 0; mkArray 1] [mkArray 2] [] [] 0%Q 0%Q None sample_world =
    (Throw XchainerError MsgGradGradInputsCount, sample_world) /\
  CheckDoubleBackwardComputationImpl (H := stub grads_first_order [] (fun _ => true))
    (stub_func [mkArray 1]) [mkArray 0; mkArray 1] [mkArray 2] [mkArray 1; mkArray 1] []
    0%Q 0%Q None sample_world =
    (Throw XchainerError (MsgInputNotDifferentiable 1 2 "default"), sample_world) /\
  CheckDoubleBackwardComputationImpl (H := stub grads_first_order [] (fun _ => true))
    (stub_func [mkArray 1]) [mkArray 0; mkArray 4] [mkArray 6; mkArray 2]
    [mkArray 1; mkArray 1] [] 0%Q 0%Q None sample_world =
    (Throw XchainerError (MsgGradOutputNotDifferentiable 1 2 "default"), sample_world).
Proof.
  pose (E := stub grads_first_order [] (fun _ => true)).
  pose (f := stub_func [mkArray 1]).
  split; [| split].
  - destruct (second_order_precondition_order (H := E) f [mkArray 0; mkArray 1] [mkArray 2] []
                [] 0%Q 0%Q None sample_world (mkArray 0) [mkArray 1] "default")
      as (P & _); [reflexivity | vm_compute; reflexivity |].
    apply P. simpl. lia.
  - destruct (second_order_precondition_order (H := E) f [mkArray 0; mkArray 1] [mkArray 2]
                [mkArray 1; mkArray 1] [] 0%Q 0%Q None sample_world (mkArray 0) [mkArray 1]
                "default") as (_ & P & _); [reflexivity | vm_compute; reflexivity |].
    apply (P 1 (mkArray 1)); [reflexivity | reflexivity | vm_compute; reflexivity |].
    intros k a' Hk Ha'. destruct k; [| lia]. injection Ha' as <-. vm_compute. reflexivity.
  - destruct (second_order_precondition_order (H := E) f [mkArray 0; mkArray 4]
                [mkArray 6; mkArray 2] [mkArray 1; mkArray 1] [] 0%Q 0%Q None sample_world
                (mkArray 0) [mkArray 4] "default") as (_ & _ & P);
      [reflexivity | vm_compute; reflexivity |].
    apply (P 1 (mkArray 2)); [reflexivity | | reflexivity | vm_compute; reflexivity |].
    + repeat constructor; vm_compute; reflexivity.
    + intros k a' Hk Ha'. destruct k; [| lia]. injection Ha' as <-. vm_compute. reflexivity.
Defined.

(** ** More on the first order check *)

Section FirstOrderRun.
Context `{Collaborators}.

(** [CheckBackwardComputation] once the analytic gradients are extracted. *)
Lemma CheckBackwardComputation_after_extraction (func : Func) inputs grad_outputs eps atol rtol
    graph_id w w1 w2 first rest g views bgs :
  inputs = first :: rest ->
  GetArrayGraphId first graph_id w = (Ok g, w) ->
  DisconnectInputArrays inputs w = (Ok views, w1) ->
  BackwardGradients func views (Some grad_outputs) g kDisable w1 = (Ok bgs, w2) ->
  length bgs = length inputs /\
  CheckBackwardComputation func inputs grad_outputs eps atol rtol graph_id w =
    (check_grad_shapes inputs bgs ;;
     numerical_grads <- CalculateNumericalGradient func inputs grad_outputs eps ;;
     assert_numerical_grads inputs numerical_grads ;;
     failed_input_indices <- collect_failed bgs numerical_grads atol rtol ;;
     raise_numerical_error false (length inputs) failed_input_indices bgs numerical_grads eps g
       atol rtol) w2.
Proof.
  intros Hin Hg Hd Hb.
  assert (Hlen : length bgs = length inputs).
  { rewrite (BackwardGradients_length _ _ _ _ _ _ _ _ Hb).
    now apply DisconnectInputArrays_length in Hd. }
  split; [exact Hlen |].
  unfold CheckBackwardComputation. subst inputs.
  rewrite bool_decide_eq_false_2 by discriminate. simpl negb.
  unfold assert at 1. rewrite bind_ret. simpl front. rewrite bind_ret.
  rewrite (bind_ok _ _ _ _ _ Hg), (bind_ok _ _ _ _ _ Hd), (bind_ok _ _ _ _ _ Hb).
  rewrite bool_decide_eq_false_2 by (intros E; now apply E).
  now rewrite bind_ret.
Qed.

End FirstOrderRun.

(** One body of the loop that validates shapes and dtypes. *)
Lemma shape_step (inputs : list Array) (bgs : list (option Array)) (w : World) (i : nat)
    bg input gb ib :
  bgs !! i = Some (Some bg) -> inputs !! i = Some input ->
  bodies w !! GetArrayBody bg = Some gb -> bodies w !! GetArrayBody input = Some ib ->
  (bg <- at_ bgs i ;;
   match bg with
   | None => ret tt
   | Some backward_grad =>
       input <- at_ inputs i ;;
       gb <- deref backward_grad ;;
       ib <- deref input ;;
       if bool_decide (shape gb ≠ shape ib)
       then throw GradientCheckError (MsgShapeMismatch i (length inputs) (shape gb) (shape ib))
       else if bool_decide (dtype gb ≠ dtype ib)
       then throw GradientCheckError (MsgDtypeMismatch i (length inputs) (dtype gb) (dtype ib))
       else ret tt
   end) w =
  if bool_decide (shape gb ≠ shape ib)
  then (Throw GradientCheckError (MsgShapeMismatch i (length inputs) (shape gb) (shape ib)), w)
  else if bool_decide (dtype gb ≠ dtype ib)
  then (Throw GradientCheckError (MsgDtypeMismatch i (length inputs) (dtype gb) (dtype ib)), w)
  else (Ok tt, w).
Proof.
  intros Hbg Hin Hgb Hib.
  rewrite (bind_ok _ _ _ _ _ (at_ok _ _ _ _ Hbg)), (bind_ok _ _ _ _ _ (at_ok _ _ _ _ Hin)).
  rewrite (bind_ok _ _ _ _ _ (deref_ok _ _ _ Hgb)), (bind_ok _ _ _ _ _ (deref_ok _ _ _ Hib)).
  now repeat case_bool_decide.
Qed.

Lemma shape_step_agree (inputs : list Array) (bgs : list (option Array)) (w : World) (i k : nat) :
  length bgs = length inputs -> Forall (valid_opt w) bgs -> Forall (valid w) inputs ->
  shapes_agree_before inputs bgs w i -> k < i -> k < length inputs ->
  (bg <- at_ bgs k ;;
   match bg with
   | None => ret tt
   | Some backward_grad =>
       input <- at_ inputs k ;;
       gb <- deref backward_grad ;;
       ib <- deref input ;;
       if bool_decide (shape gb ≠ shape ib)
       then throw GradientCheckError (MsgShapeMismatch k (length inputs) (shape gb) (shape ib))
       else if bool_decide (dtype gb ≠ dtype ib)
       then throw GradientCheckError (MsgDtypeMismatch k (length inputs) (dtype gb) (dtype ib))
       else ret tt
   end) w = (Ok tt, w).
Proof.
  intros Hlen Hvg Hvi Hagree Hk Hkl. rewrite Forall_forall in Hvg. rewrite Forall_forall in Hvi.
  destruct (lookup_lt_is_Some_2 bgs k ltac:(lia)) as [obg Hobg].
  destruct obg as [bg|]; [| now rewrite (bind_ok _ _ _ _ _ (at_ok _ _ _ _ Hobg))].
  destruct (lookup_lt_is_Some_2 inputs k Hkl) as [input Hinput].
  destruct (Hvg (Some bg) ltac:(eapply list_elem_of_lookup_2; eauto)) as [gb Hgb].
  destruct (Hvi input ltac:(eapply list_elem_of_lookup_2; eauto)) as [ib Hib].
  rewrite (shape_step inputs bgs w k bg input gb ib Hobg Hinput Hgb Hib).
  destruct (Hagree k bg input gb ib Hk Hobg Hinput Hgb Hib) as [Es Ed].
  rewrite (bool_decide_eq_false_2 (shape gb ≠ shape ib)) by (intros E; now apply E).
  now rewrite (bool_decide_eq_false_2 (dtype gb ≠ dtype ib)) by (intros E; now apply E).
Qed.

(** X4. After the extraction, [CheckBackwardComputation] validates the
    gradients in the order of the inputs, passing over the inputs without
    gradient: at the first gradient whose shape or dtype is not that of its
    original input it raises a [GradientCheckError] that names the index, the
    shape being tested before the dtype; when all agree it goes on to the
    numerical estimator.  The error leaves the store as the extraction left
    it: the estimator is not run. *)
Theorem CheckBackwardComputation_validates_shapes `{Collaborators} (func : Func)
    (inputs grad_outputs eps : list Array) (atol rtol : Q) (graph_id : option GraphId)
    (w w1 w2 : World) (first : Array) (rest : list Array) (g : GraphId)
    (views : list Array) (bgs : list (option Array)) :
  inputs = first :: rest ->
  GetArrayGraphId first graph_id w = (Ok g, w) ->
  DisconnectInputArrays inputs w = (Ok views, w1) ->
  BackwardGradients func views (Some grad_outputs) g kDisable w1 = (Ok bgs, w2) ->
  Forall (valid_opt w2) bgs ->
  Forall (valid w2) inputs ->
  (forall i bg input gb ib,
     bgs !! i = Some (Some bg) -> inputs !! i = Some input ->
     bodies w2 !! GetArrayBody bg = Some gb -> bodies w2 !! GetArrayBody input = Some ib ->
     shapes_agree_before inputs bgs w2 i ->
     (shape gb <> shape ib ->
      CheckBackwardComputation func inputs grad_outputs eps atol rtol graph_id w =
        (Throw GradientCheckError
           (MsgShapeMismatch i (length inputs) (shape gb) (shape ib)), w2)) /\
     (shape gb = shape ib -> dtype gb <> dtype ib ->
      CheckBackwardComputation func inputs grad_outputs eps atol rtol graph_id w =
        (Throw GradientCheckError
           (MsgDtypeMismatch i (length inputs) (dtype gb) (dtype ib)), w2))) /\
  (shapes_agree_before inputs bgs w2 (length inputs) ->
   CheckBackwardComputation func inputs grad_outputs eps atol rtol graph_id w =
     (numerical_grads <- CalculateNumericalGradient func inputs grad_outputs eps ;;
      assert_numerical_grads inputs numerical_grads ;;
      failed_input_indices <- collect_failed bgs numerical_grads atol rtol ;;
      raise_numerical_error false (length inputs) failed_input_indices bgs numerical_grads eps g
        atol rtol) w2).
Proof.
  intros Hin Hg Hd Hb Hvg Hvi.
  destruct (CheckBackwardComputation_after_extraction func inputs grad_outputs eps atol rtol
              graph_id w w1 w2 first rest g views bgs Hin Hg Hd Hb) as [Hlen Hrun].
  rewrite Hrun. split.
  - intros i bg input gb ib Hbg Hinput Hgb Hib Hagree.
    pose proof (lookup_lt_Some _ _ _ Hinput) as Hi.
    assert (Hfirst : forall r, r <> Ok tt ->
      (if bool_decide (shape gb ≠ shape ib)
       then (Throw GradientCheckError
               (MsgShapeMismatch i (length inputs) (shape gb) (shape ib)), w2)
       else if bool_decide (dtype gb ≠ dtype ib)
       then (Throw GradientCheckError
               (MsgDtypeMismatch i (length inputs) (dtype gb) (dtype ib)), w2)
       else (Ok tt, w2)) = (r, w2) ->
      check_grad_shapes inputs bgs w2 = (r, w2)).
    { intros r Hr Hstep. unfold check_grad_shapes.
      apply (for_range_first (length inputs) 0 i); [lia | | | exact Hr].
      - intros k Hk. apply (shape_step_agree inputs bgs w2 i k); auto; lia.
      - now rewrite (shape_step inputs bgs w2 i bg input gb ib Hbg Hinput Hgb Hib). }
    split.
    + intros Hs. apply bind_throw, Hfirst; [discriminate |].
      now rewrite bool_decide_eq_true_2 by exact Hs.
    + intros Hs Hdt. apply bind_throw, Hfirst; [discriminate |].
      rewrite bool_decide_eq_false_2 by (intros E; now apply E).
      now rewrite bool_decide_eq_true_2 by exact Hdt.
  - intros Hagree.
    assert (Hok : check_grad_shapes inputs bgs w2 = (Ok tt, w2)).
    { unfold check_grad_shapes. apply for_range_all.
      intros k Hk. apply (shape_step_agree inputs bgs w2 (length inputs) k); auto; lia. }
    now rewrite (bind_ok _ _ _ _ _ Hok).
Qed.

Lemma CheckBackwardComputation_validates_shapes_witness :
  fst (CheckBackwardComputation (H := stub grads_first_order [mkArray 2] (fun _ => true))
         (stub_func [mkArray 1]) [mkArray 0] [mkArray 1] [mkArray 2] 0%Q 0%Q None shape_world) =
    Throw GradientCheckError (MsgShapeMismatch 0 1 [3] [2]) /\
  fst (CheckBackwardComputation (H := stub grads_first_order [mkArray 2] (fun _ => true))
         (stub_func [mkArray 1]) [mkArray 0] [mkArray 1] [mkArray 2] 0%Q 0%Q None dtype_world) =
    Throw GradientCheckError (MsgDtypeMismatch 0 1 8 7).
Proof.
  pose (E := stub grads_first_order [mkArray 2] (fun _ => true)).
  pose (f := stub_func [mkArray 1]).
  split.
  - pose (r1 := DisconnectInputArrays [mkArray 0] shape_world).
    pose (r2 := BackwardGradients (H := E) f (result_of [] r1) (Some [mkArray 1]) "default"
                  kDisable (snd r1)).
    destruct (CheckBackwardComputation_validates_shapes (H := E) f [mkArray 0] [mkArray 1]
                [mkArray 2] 0%Q 0%Q None shape_world (snd r1) (snd r2) (mkArray 0) [] "default"
                (result_of [] r1) (result_of [] r2)) as [P _].
    + reflexivity.
    + vm_compute. reflexivity.
    + vm_compute. reflexivity.
    + vm_compute. reflexivity.
    + by_computation.
    + by_computation.
    + destruct (P 0 (mkArray 3) (mkArray 0) (mkArrayBody 3 [3] 7 "default" [])
                  (mkArrayBody 0 [2] 7 "default"
                     [mkArrayNode "default" None (Some (mkArray 3))])) as [Q _].
      * vm_compute. reflexivity.
      * reflexivity.
      * vm_compute. reflexivity.
      * vm_compute. reflexivity.
      * intros k ? ? ? ? Hk. lia.
      * fold E f. rewrite Q; [reflexivity | discriminate].
  - pose (r1 := DisconnectInputArrays [mkArray 0] dtype_world).
    pose (r2 := BackwardGradients (H := E) f (result_of [] r1) (Some [mkArray 1]) "default"
                  kDisable (snd r1)).
    destruct (CheckBackwardComputation_validates_shapes (H := E) f [mkArray 0] [mkArray 1]
                [mkArray 2] 0%Q 0%Q None dtype_world (snd r1) (snd r2) (mkArray 0) [] "default"
                (result_of [] r1) (result_of [] r2)) as [P _].
    + reflexivity.
    + vm_compute. reflexivity.
    + vm_compute. reflexivity.
    + vm_compute. reflexivity.
    + by_computation.
    + by_computation.
    + destruct (P 0 (mkArray 3) (mkArray 0) (mkArrayBody 3 [2] 8 "default" [])
                  (mkArrayBody 0 [2] 7 "default"
                     [mkArrayNode "default" None (Some (mkArray 3))])) as [_ Q].
      * vm_compute. reflexivity.
      * reflexivity.
      * vm_compute. reflexivity.
      * vm_compute. reflexivity.
      * intros k ? ? ? ? Hk. lia.
      * fold E f. rewrite Q; [reflexivity | reflexivity | discriminate].
Defined.

(** X5. The answer of the numerical estimator is checked by assertions, not
    by exceptions: when the estimator returns a number of gradients other
    than the number of inputs, [CheckBackwardComputation] stops at the
    assertion on the sizes, in the store the estimator left; no error of the
    check is raised and nothing is compared. *)
Theorem CheckBackwardComputation_asserts_estimator `{Collaborators} (func : Func)
    (inputs grad_outputs eps : list Array) (atol rtol : Q) (graph_id : option GraphId)
    (w w1 w2 w3 : World) (first : Array) (rest : list Array) (g : GraphId)
    (views : list Array) (bgs : list (option Array)) (ngs : list Array) :
  inputs = first :: rest ->
  GetArrayGraphId first graph_id w = (Ok g, w) ->
  DisconnectInputArrays inputs w = (Ok views, w1) ->
  BackwardGradients func views (Some grad_outputs) g kDisable w1 = (Ok bgs, w2) ->
  check_grad_shapes inputs bgs w2 = (Ok tt, w2) ->
  CalculateNumericalGradient func inputs grad_outputs eps w2 = (Ok ngs, w3) ->
  length ngs <> length inputs ->
  CheckBackwardComputation func inputs grad_outputs eps atol rtol graph_id w =
    (Stop (AssertionFailure "numerical_grads.size() == inputs.size()"), w3).
Proof.
  intros Hin Hg Hd Hb Hs Hn Hlen.
  destruct (CheckBackwardComputation_after_extraction func inputs grad_outputs eps atol rtol
              graph_id w w1 w2 first rest g views bgs Hin Hg Hd Hb) as [_ Hrun].
  rewrite Hrun, (bind_ok _ _ _ _ _ Hs), (bind_ok _ _ _ _ _ Hn).
  apply bind_stop. unfold assert_numerical_grads. apply bind_stop.
  now rewrite bool_decide_eq_false_2 by exact Hlen.
Qed.

Lemma CheckBackwardComputation_asserts_estimator_witness :
  fst (CheckBackwardComputation (H := stub grads_first_order [] (fun _ => true))
         (stub_func [mkArray 1]) [mkArray 0] [mkArray 1] [mkArray 2] 0%Q 0%Q None sample_world) =
  Stop (AssertionFailure "numerical_grads.size() == inputs.size()").
Proof.
  pose (E := stub grads_first_order [] (fun _ => true)).
  pose (f := stub_func [mkArray 1]).
  pose (r1 := DisconnectInputArrays [mkArray 0] sample_world).
  pose (r2 := BackwardGradients (H := E) f (result_of [] r1) (Some [mkArray 1]) "default"
                kDisable (snd r1)).
  fold E f.
  rewrite (CheckBackwardComputation_asserts_estimator (H := E) f [mkArray 0] [mkArray 1]
             [mkArray 2] 0%Q 0%Q None sample_world (snd r1) (snd r2) (snd r2) (mkArray 0) []
             "default" (result_of [] r1) (result_of [] r2) []).
  - reflexivity.
  - reflexivity.
  - vm_compute. reflexivity.
  - vm_compute. reflexivity.
  - vm_compute. reflexivity.
  - vm_compute. reflexivity.
  - vm_compute. reflexivity.
  - simpl. lia.
Defined.

(** ** The order of the report *)

Lemma filter_seq_increasing (P : nat -> Prop) `{!forall x, Decision (P x)} (n a p q i j : nat) :
  filter P (seq a n) !! p = Some i ->
  filter P (seq a n) !! q = Some j ->
  p < q -> i < j.
Proof.
  revert a p q. induction n as [|n IH]; intros a p q; simpl;
    [intros Hp; now rewrite filter_nil in Hp |].
  rewrite filter_cons. destruct (decide (P a)) as [Ha | Ha]; [| apply IH].
  destruct p as [|p]; destruct q as [|q]; simpl; try lia.
  - intros [= <-] Hj _. apply list_elem_of_lookup_2, list_elem_of_filter in Hj as [_ Hj].
    apply elem_of_seq in Hj. lia.
  - intros Hi Hj Hpq. apply (IH (S a) p q); [exact Hi | exact Hj | lia].
Qed.

(** X6. The report of [CheckBackwardComputation], once it is built, lists
    the failing indices in increasing order, each once, and carries for each
    of them, in the same order, a difference that the subtraction returned
    for the analytic and the numerical gradient of that very index, these
    two gradients and the perturbation of the index.  The error is raised in
    the store that the subtractions left. *)
Theorem CheckBackwardComputation_report_order `{Collaborators} (func : Func)
    (inputs grad_outputs eps : list Array) (atol rtol : Q) (graph_id : option GraphId)
    (w w1 w2 w3 w4 : World) (first : Array) (rest : list Array) (g : GraphId)
    (views : list Array) (bgs : list (option Array)) (ngs : list Array)
    (entries : list (nat * Array * Array * Array * Array)) :
  inputs = first :: rest ->
  GetArrayGraphId first graph_id w = (Ok g, w) ->
  DisconnectInputArrays inputs w = (Ok views, w1) ->
  BackwardGradients func views (Some grad_outputs) g kDisable w1 = (Ok bgs, w2) ->
  check_grad_shapes inputs bgs w2 = (Ok tt, w2) ->
  CalculateNumericalGradient func inputs grad_outputs eps w2 = (Ok ngs, w3) ->
  assert_numerical_grads inputs ngs w3 = (Ok tt, w3) ->
  failed_indices bgs ngs atol rtol w3 <> [] ->
  report_entries (failed_indices bgs ngs atol rtol w3) bgs ngs eps w3 = (Ok entries, w4) ->
  let failed := failed_indices bgs ngs atol rtol w3 in
  CheckBackwardComputation func inputs grad_outputs eps atol rtol graph_id w =
    (Throw GradientCheckError
       (MsgNumericalError false (length inputs) failed g atol rtol entries), w4) /\
  (forall p q i j, failed !! p = Some i -> failed !! q = Some j -> p < q -> i < j) /\
  length entries = length failed /\
  (forall p i, failed !! p = Some i ->
     exists d a n e wa wb, entries !! p = Some (i, d, a, n, e) /\
       bgs !! i = Some (Some a) /\ ngs !! i = Some n /\ eps !! i = Some e /\
       Subtract a n wa = (Ok d, wb)).
Proof.
  intros Hin Hg Hd Hb Hs Hn Ha Hf Hr failed.
  destruct (CheckBackwardComputation_after_extraction func inputs grad_outputs eps atol rtol
              graph_id w w1 w2 first rest g views bgs Hin Hg Hd Hb) as [Hlen Hrun].
  pose proof (assert_numerical_grads_length _ _ _ _ _ Ha) as Hnlen.
  destruct (raise_numerical_error_spec false (length inputs) failed bgs ngs eps g atol rtol w3)
    as [_ R].
  destruct (R Hf) as (_ & E & _).
  pose proof (report_entries_inv _ _ _ _ _ _ _ Hr) as HF.
  split; [| split; [| split]].
  - rewrite Hrun, (bind_ok _ _ _ _ _ Hs), (bind_ok _ _ _ _ _ Hn), (bind_ok _ _ _ _ _ Ha).
    rewrite (bind_ok _ _ _ _ _ (collect_failed_spec bgs ngs atol rtol w3 ltac:(lia))).
    now apply E.
  - intros p q i j. unfold failed, failed_indices. apply filter_seq_increasing.
  - symmetry. eapply Forall2_length. exact HF.
  - intros p i Hp.
    destruct (Forall2_lookup_l _ _ _ _ _ HF Hp)
      as (en & Hen & d & a & n & ep & wa & wb & -> & ?).
    exists d, a, n, ep, wa, wb. tauto.
Qed.

Lemma CheckBackwardComputation_report_order_witness :
  exists entries,
    fst (CheckBackwardComputation (H := stub grads_first_order [mkArray 2; mkArray 3; mkArray 2]
                                          (fun _ => true))
           (stub_func [mkArray 1]) [mkArray 0; mkArray 4; mkArray 6] [mkArray 1]
           [mkArray 2; mkArray 2; mkArray 2] 0%Q 0%Q None sample_world) =
      Throw GradientCheckError (MsgNumericalError false 3 [0; 2] "default" 0%Q 0%Q entries) /\
    length entries = 2.
Proof.
  pose (E := stub grads_first_order [mkArray 2; mkArray 3; mkArray 2] (fun _ => true)).
  pose (f := stub_func [mkArray 1]).
  pose (ins := [mkArray 0; mkArray 4; mkArray 6]).
  pose (r1 := DisconnectInputArrays ins sample_world).
  pose (r2 := BackwardGradients (H := E) f (result_of [] r1) (Some [mkArray 1]) "default"
                kDisable (snd r1)).
  pose (r4 := report_entries (H := E) [0; 2] (result_of [] r2)
                [mkArray 2; mkArray 3; mkArray 2] [mkArray 2; mkArray 2; mkArray 2] (snd r2)).
  assert (Hfailed : failed_indices (H := E) (result_of [] r2) [mkArray 2; mkArray 3; mkArray 2]
                      0%Q 0%Q (snd r2) = [0; 2]) by (vm_compute; reflexivity).
  destruct (CheckBackwardComputation_report_order (H := E) f ins [mkArray 1]
              [mkArray 2; mkArray 2; mkArray 2] 0%Q 0%Q None sample_world (snd r1) (snd r2)
              (snd r2) (snd r4) (mkArray 0) [mkArray 4; mkArray 6] "default"
              (result_of [] r1) (result_of [] r2) [mkArray 2; mkArray 3; mkArray 2]
              (result_of [] r4))
    as (Hrun & _ & Hlen & _).
  - reflexivity.
  - vm_compute. reflexivity.
  - vm_compute. reflexivity.
  - vm_compute. reflexivity.
  - vm_compute. reflexivity.
  - vm_compute. reflexivity.
  - vm_compute. reflexivity.
  - rewrite Hfailed. discriminate.
  - rewrite Hfailed. vm_compute. reflexivity.
  - exists (result_of [] r4). fold E f ins. rewrite Hrun, Hlen, Hfailed. split; reflexivity.
Defined.

(** ** More on the second order run *)

Lemma is_Some_no_missing (bgs : list (option Array)) :
  Forall (fun o => is_Some o) bgs -> missing_indices bgs = [].
Proof.
  intros Hall. destruct (missing_indices bgs) as [|i l] eqn:E; [reflexivity |].
  assert (Hi : i ∈ missing_indices bgs) by (rewrite E; now left).
  apply missing_indices_spec in Hi. rewrite Forall_forall in Hall.
  destruct (Hall None ltac:(eapply list_elem_of_lookup_2; eauto)) as [? ?]. discriminate.
Qed.

(** X7. When the second order check has all its second order gradients, it
    compares each of them, none being passed over, with the numerical
    gradient of the same index of the combined vector: the indices it
    collects are exactly those whose gradient is not [AllClose].  It returns
    normally when there is none.  Otherwise it never returns normally: it
    builds one report for all of them, computing the difference of the two
    gradients of each, and raises one [GradientCheckError] with it, in the
    store the differences left; an exception or a stop while the report is
    built is the outcome. *)
Theorem second_order_compares `{Collaborators} (func : Func)
    (inputs grad_outputs grad_grad_inputs eps : list Array) (atol rtol : Q)
    (graph_id : option GraphId) (w w1 w2 : World) (first : Array) (rest : list Array)
    (g : GraphId) (ngs : list Array) (bgs : list (option Array)) :
  inputs = first :: rest ->
  GetArrayGraphId first graph_id w = (Ok g, w) ->
  length grad_grad_inputs = length inputs ->
  Forall (requires_grad w g) inputs ->
  Forall (requires_grad w g) grad_outputs ->
  CalculateNumericalGradient
    (first_order_grad_func func (length inputs) (length grad_outputs) g)
    (inputs ++ grad_outputs) grad_grad_inputs eps w = (Ok ngs, w1) ->
  length ngs = length inputs + length grad_outputs ->
  BackwardGradients (first_order_grad_func func (length inputs) (length grad_outputs) g)
    (inputs ++ grad_outputs) (Some grad_grad_inputs) g kEnable w1 = (Ok bgs, w2) ->
  Forall (fun o => is_Some o) bgs ->
  let failed := failed_indices bgs ngs atol rtol w2 in
  let run :=
    CheckDoubleBackwardComputationImpl func inputs grad_outputs grad_grad_inputs eps atol rtol
      graph_id w in
  (forall i, i ∈ failed <->
     exists a n, bgs !! i = Some (Some a) /\ ngs !! i = Some n /\
                 AllClose a n atol rtol w2 = false) /\
  (failed = [] -> run = (Ok tt, w2)) /\
  (failed <> [] ->
   (forall w', run <> (Ok tt, w')) /\
   (forall entries w3, report_entries failed bgs ngs eps w2 = (Ok entries, w3) ->
      run = (Throw GradientCheckError
               (MsgNumericalError true (length inputs) failed g atol rtol entries), w3) /\
      Forall2 (fun i en => exists d a n p wa wb,
                 en = (i, d, a, n, p) /\ bgs !! i = Some (Some a) /\
                 ngs !! i = Some n /\ eps !! i = Some p /\ Subtract a n wa = (Ok d, wb))
        failed entries) /\
   (forall c e w3, report_entries failed bgs ngs eps w2 = (Throw c e, w3) ->
      run = (Throw c e, w3)) /\
   (forall f w3, report_entries failed bgs ngs eps w2 = (Stop f, w3) ->
      run = (Stop f, w3))).
Proof.
  intros Hin Hg Hlen Hri Hro Hn Hnlen Hb Hall failed run.
  assert (Hblen : length bgs = length inputs + length grad_outputs).
  { rewrite (BackwardGradients_length _ _ _ _ _ _ _ _ Hb). apply length_app. }
  assert (Hrun : run =
                 raise_numerical_error true (length inputs) failed bgs ngs eps g atol rtol w2).
  { unfold run.
    rewrite (Impl_reaches_existence_check func inputs grad_outputs grad_grad_inputs eps atol rtol
               graph_id w w1 w2 first rest g ngs bgs) by assumption.
    assert (E : check_second_order_exist bgs (length inputs) (length grad_outputs) g w2 =
                (Ok tt, w2)).
    { rewrite check_second_order_exist_spec.
      now rewrite bool_decide_eq_true_2 by now apply is_Some_no_missing. }
    rewrite (bind_ok _ _ _ _ _ E).
    now rewrite (bind_ok _ _ _ _ _
                   (collect_failed_double_spec bgs ngs atol rtol w2 ltac:(lia) Hall)). }
  destruct (raise_numerical_error_spec true (length inputs) failed bgs ngs eps g atol rtol w2)
    as [R1 R2].
  split; [apply failed_indices_spec |]. split.
  - intros Hf. rewrite Hrun. now apply R1.
  - intros Hf. destruct (R2 Hf) as (R3 & R4 & R5 & R6). rewrite Hrun.
    split; [exact R3 |]. split; [| split; assumption].
    intros entries w3 Hr. split; [now apply R4 | now apply report_entries_inv in Hr].
Qed.

Lemma second_order_compares_witness :
  fst (CheckDoubleBackwardComputationImpl
         (H := stub grads_first_order [mkArray 4; mkArray 4] (fun _ => true))
         (stub_func [mkArray 1]) [mkArray 0] [mkArray 6] [mkArray 1] [mkArray 2; mkArray 2]
         0%Q 0%Q None sample_world) = Ok tt /\
  exists entries,
    fst (CheckDoubleBackwardComputationImpl
           (H := stub grads_first_order [mkArray 4; mkArray 2] (fun _ => true))
           (stub_func [mkArray 1]) [mkArray 0] [mkArray 6] [mkArray 1] [mkArray 2; mkArray 2]
           0%Q 0%Q None sample_world) =
    Throw GradientCheckError (MsgNumericalError true 1 [1] "default" 0%Q 0%Q entries).
Proof.
  pose (f := stub_func [mkArray 1]).
  split.
  - pose (E := stub grads_first_order [mkArray 4; mkArray 4] (fun _ => true)).
    pose (r2 := BackwardGradients (H := E) (first_order_grad_func (H := E) f 1 1 "default")
                  [mkArray 0; mkArray 6] (Some [mkArray 1]) "default" kEnable sample_world).
    destruct (second_order_compares (H := E) f [mkArray 0] [mkArray 6] [mkArray 1]
                [mkArray 2; mkArray 2] 0%Q 0%Q None sample_world sample_world (snd r2)
                (mkArray 0) [] "default" [mkArray 4; mkArray 4] (result_of [] r2))
      as (_ & P & _).
    + reflexivity.
    + vm_compute. reflexivity.
    + reflexivity.
    + by_computation.
    + by_computation.
    + reflexivity.
    + reflexivity.
    + vm_compute. reflexivity.
    + vm_compute. repeat constructor; eauto.
    + fold E f. rewrite P; [reflexivity | vm_compute; reflexivity].
  - pose (E := stub grads_first_order [mkArray 4; mkArray 2] (fun _ => true)).
    pose (r2 := BackwardGradients (H := E) (first_order_grad_func (H := E) f 1 1 "default")
                  [mkArray 0; mkArray 6] (Some [mkArray 1]) "default" kEnable sample_world).
    pose (r3 := report_entries (H := E) [1] (result_of [] r2) [mkArray 4; mkArray 2]
                  [mkArray 2; mkArray 2] (snd r2)).
    destruct (second_order_compares (H := E) f [mkArray 0] [mkArray 6] [mkArray 1]
                [mkArray 2; mkArray 2] 0%Q 0%Q None sample_world sample_world (snd r2)
                (mkArray 0) [] "default" [mkArray 4; mkArray 2] (result_of [] r2))
      as (_ & _ & P).
    + reflexivity.
    + vm_compute. reflexivity.
    + reflexivity.
    + by_computation.
    + by_computation.
    + reflexivity.
    + reflexivity.
    + vm_compute. reflexivity.
    + vm_compute. repeat constructor; eauto.
    + assert (Hfailed : failed_indices (H := E) (result_of [] r2) [mkArray 4; mkArray 2]
                          0%Q 0%Q (snd r2) = [1]) by (vm_compute; reflexivity).
      rewrite Hfailed in P. destruct P as (_ & P & _); [discriminate |].
      destruct (P (result_of [] r3) (snd r3)) as [Hrun _]; [vm_compute; reflexivity |].
      exists (result_of [] r3). fold E f. now rewrite Hrun.
Defined.

(** ** The derived first order function *)

(** The combined vector is split at the number of inputs: what the second
    order check merges is what the derived function separates. *)
Lemma first_order_grad_func_split `{Collaborators} (func : Func)
    (inputs grad_outputs : list Array) (nout : nat) (g : GraphId) (w : World) :
  first_order_grad_func func (length inputs) nout g (inputs ++ grad_outputs) w =
  ForceBackpropModeScope g (
    for_each inputs (fun input => RequireGrad input g) ;;
    optional_backward_grads <- BackwardGradients func inputs (Some grad_outputs) g kEnable ;;
    (if bool_decide (length optional_backward_grads ≠ length inputs)
     then throw GradientCheckError
            (MsgFirstOrderCount (length optional_backward_grads) (length inputs))
     else ret tt) ;;
    for_range 0 (length inputs) (fun i =>
      g <- at_ optional_backward_grads i ;;
      if negb (bool_decide (is_Some g))
      then throw GradientCheckError (MsgFirstOrderMissing i (length inputs))
      else ret tt) ;;
    for_range 0 (length inputs) (fun i =>
      og <- at_ optional_backward_grads i ;;
      a <- value og ;;
      r <- IsGradRequired a g ;;
      if negb r
      then throw GradientCheckError (MsgFirstOrderNotDifferentiable i (length inputs) g)
      else ret tt) ;;
    backward_grads <- transform optional_backward_grads value ;;
    assert (bool_decide (length backward_grads = length inputs)) "backward_grads.size() == nin" ;;
    ret backward_grads) w.
Proof.
  unfold first_order_grad_func.
  rewrite bool_decide_eq_false_2 by (rewrite length_app; lia). rewrite bind_ret.
  now rewrite take_app_length, drop_app_length.
Qed.

Lemma existence_loop_first (obg : list (option Array)) (n i : nat) (w : World) :
  length obg = n ->
  obg !! i = Some None ->
  (forall k, k < i -> obg !! k <> Some None) ->
  for_range 0 n (fun i =>
    g <- at_ obg i ;;
    if negb (bool_decide (is_Some g))
    then throw GradientCheckError (MsgFirstOrderMissing i n)
    else ret tt) w = (Throw GradientCheckError (MsgFirstOrderMissing i n), w).
Proof.
  intros Hlen Hi Hbefore. pose proof (lookup_lt_Some _ _ _ Hi) as Hlt.
  apply (for_range_first n 0 i); [lia | | | discriminate].
  - intros k Hk. destruct (lookup_lt_is_Some_2 obg k ltac:(lia)) as [[a|] Ha].
    + rewrite (bind_ok _ _ _ _ _ (at_ok _ _ _ _ Ha)).
      now rewrite bool_decide_eq_true_2 by eauto.
    + now destruct (Hbefore k ltac:(lia)).
  - rewrite (bind_ok _ _ _ _ _ (at_ok _ _ _ _ Hi)).
    rewrite bool_decide_eq_false_2; [reflexivity |]. intros [? ?]; discriminate.
Qed.

Lemma existence_loop_all (grads : list Array) (n : nat) (w : World) :
  length grads = n ->
  for_range 0 n (fun i =>
    g <- at_ (Some <$> grads) i ;;
    if negb (bool_decide (is_Some g))
    then throw GradientCheckError (MsgFirstOrderMissing i n)
    else ret tt) w = (Ok tt, w).
Proof.
  intros Hlen. apply for_range_all. intros k Hk.
  destruct (lookup_lt_is_Some_2 grads k ltac:(lia)) as [a Ha].
  assert (Ha' : (Some <$> grads) !! k = Some (Some a)) by now rewrite list_lookup_fmap, Ha.
  rewrite (bind_ok _ _ _ _ _ (at_ok _ _ _ _ Ha')).
  now rewrite bool_decide_eq_true_2 by eauto.
Qed.

Lemma first_order_differentiable_first (grads : list Array) (n i : nat) (a : Array)
    (g : GraphId) (w : World) :
  length grads = n ->
  grads !! i = Some a ->
  IsGradRequired a g w = (Ok false, w) ->
  (forall k a', k < i -> grads !! k = Some a' -> IsGradRequired a' g w = (Ok true, w)) ->
  for_range 0 n (fun i =>
    og <- at_ (Some <$> grads) i ;;
    a <- value og ;;
    r <- IsGradRequired a g ;;
    if negb r
    then throw GradientCheckError (MsgFirstOrderNotDifferentiable i n g)
    else ret tt) w = (Throw GradientCheckError (MsgFirstOrderNotDifferentiable i n g), w).
Proof.
  intros Hlen Hi Hr Hbefore. pose proof (lookup_lt_Some _ _ _ Hi) as Hlt.
  assert (Hat : forall k a', grads !! k = Some a' ->
            at_ (Some <$> grads) k w = (Ok (Some a'), w)).
  { intros k a' Ha'. apply at_ok. now rewrite list_lookup_fmap, Ha'. }
  apply (for_range_first n 0 i); [lia | | | discriminate].
  - intros k Hk. destruct (lookup_lt_is_Some_2 grads k ltac:(lia)) as [a' Ha'].
    rewrite (bind_ok _ _ _ _ _ (Hat _ _ Ha')).
    change (value (Some a')) with (ret (A := Array) a'). rewrite bind_ret.
    now rewrite (bind_ok _ _ _ _ _ (Hbefore k a' ltac:(lia) Ha')).
  - rewrite (bind_ok _ _ _ _ _ (Hat _ _ Hi)).
    change (value (Some a)) with (ret (A := Array) a). rewrite bind_ret.
    now rewrite (bind_ok _ _ _ _ _ Hr).
Qed.

Lemma first_order_differentiable_all (grads : list Array) (n : nat) (g : GraphId) (w : World) :
  length grads = n ->
  Forall (fun a => IsGradRequired a g w = (Ok true, w)) grads ->
  for_range 0 n (fun i =>
    og <- at_ (Some <$> grads) i ;;
    a <- value og ;;
    r <- IsGradRequired a g ;;
    if negb r
    then throw GradientCheckError (MsgFirstOrderNotDifferentiable i n g)
    else ret tt) w = (Ok tt, w).
Proof.
  intros Hlen Hall. rewrite Forall_forall in Hall. apply for_range_all. intros k Hk.
  destruct (lookup_lt_is_Some_2 grads k ltac:(lia)) as [a Ha].
  assert (Ha' : (Some <$> grads) !! k = Some (Some a)) by now rewrite list_lookup_fmap, Ha.
  rewrite (bind_ok _ _ _ _ _ (at_ok _ _ _ _ Ha')).
  change (value (Some a)) with (ret (A := Array) a). rewrite bind_ret.
  now rewrite (bind_ok _ _ _ _ _ (Hall a ltac:(eapply list_elem_of_lookup_2; eauto))).
Qed.

Lemma transform_value {A} (l : list A) (w : World) :
  transform (Some <$> l) value w = (Ok l, w).
Proof.
  induction l as [|x l IH]; simpl; [reflexivity |].
  change (value (Some x)) with (ret (A := A) x). rewrite bind_ret.
  now rewrite (bind_ok _ _ _ _ _ IH).
Qed.

(** X8. The function whose gradients the second order check compares, run on
    the vector inputs ++ grad_outputs that the check builds: it separates the
    vector again into the inputs, on which it requires gradient, and the seed
    gradients, with which it extracts the first order gradients.  With the
    gradients extracted, the first input, in order, without a gradient is
    reported; when every input has one, the first gradient that is not
    itself differentiable under the graph is reported; otherwise the
    gradients are returned unwrapped, in the order of the inputs.  On each of
    these paths the forced backprop mode is dropped again. *)
Theorem first_order_grad_func_outcomes `{Collaborators} (func : Func)
    (inputs grad_outputs : list Array) (nout : nat) (g : GraphId) (w w1 w2 : World)
    (obg : list (option Array)) :
  for_each inputs (fun input => RequireGrad input g)
    (set_backprop_mode_stack (cons (g, true)) w) = (Ok tt, w1) ->
  BackwardGradients func inputs (Some grad_outputs) g kEnable w1 = (Ok obg, w2) ->
  let run := first_order_grad_func func (length inputs) nout g (inputs ++ grad_outputs) w in
  let left := set_backprop_mode_stack tail w2 in
  (forall i, obg !! i = Some None -> (forall k, k < i -> obg !! k <> Some None) ->
     run = (Throw GradientCheckError (MsgFirstOrderMissing i (length inputs)), left)) /\
  (forall grads i a, obg = Some <$> grads -> grads !! i = Some a ->
     IsGradRequired a g w2 = (Ok false, w2) ->
     (forall k a', k < i -> grads !! k = Some a' -> IsGradRequired a' g w2 = (Ok true, w2)) ->
     run = (Throw GradientCheckError (MsgFirstOrderNotDifferentiable i (length inputs) g),
            left)) /\
  (forall grads, obg = Some <$> grads ->
     Forall (fun a => IsGradRequired a g w2 = (Ok true, w2)) grads ->
     run = (Ok grads, left)).
Proof.
  intros Hreq Hb run left.
  pose proof (BackwardGradients_length _ _ _ _ _ _ _ _ Hb) as Hlen.
  unfold run. split; [| split].
  - intros i Hi Hbefore. rewrite first_order_grad_func_split.
    unfold ForceBackpropModeScope, scoped.
    rewrite (bind_ok _ _ _ _ _ Hreq), (bind_ok _ _ _ _ _ Hb).
    rewrite bool_decide_eq_false_2 by (intros Hne; now apply Hne). rewrite bind_ret.
    now rewrite (bind_throw _ _ _ _ _ _ (existence_loop_first obg _ i w2 Hlen Hi Hbefore)).
  - intros grads i a -> Hi Hr Hbefore. rewrite length_fmap in Hlen.
    rewrite first_order_grad_func_split.
    unfold ForceBackpropModeScope, scoped.
    rewrite (bind_ok _ _ _ _ _ Hreq), (bind_ok _ _ _ _ _ Hb).
    rewrite bool_decide_eq_false_2 by (rewrite length_fmap; intros Hne; now apply Hne).
    rewrite bind_ret.
    rewrite (bind_ok _ _ _ _ _ (existence_loop_all grads _ w2 Hlen)).
    now rewrite (bind_throw _ _ _ _ _ _
                   (first_order_differentiable_first grads _ i a g w2 Hlen Hi Hr Hbefore)).
  - intros grads -> Hall. rewrite length_fmap in Hlen.
    rewrite first_order_grad_func_split.
    unfold ForceBackpropModeScope, scoped.
    rewrite (bind_ok _ _ _ _ _ Hreq), (bind_ok _ _ _ _ _ Hb).
    rewrite bool_decide_eq_false_2 by (rewrite length_fmap; intros Hne; now apply Hne).
    rewrite bind_ret.
    rewrite (bind_ok _ _ _ _ _ (existence_loop_all grads _ w2 Hlen)).
    rewrite (bind_ok _ _ _ _ _ (first_order_differentiable_all grads _ g w2 Hlen Hall)).
    rewrite (bind_ok _ _ _ _ _ (transform_value grads w2)).
    unfold assert. now rewrite bool_decide_eq_true_2 by exact Hlen.
Qed.

Lemma first_order_grad_func_outcomes_witness :
  fst (first_order_grad_func (H := stub (fun _ _ => None) [] (fun _ => true))
         (stub_func [mkArray 1]) 1 1 "default" [mkArray 0; mkArray 6] sample_world) =
    Throw GradientCheckError (MsgFirstOrderMissing 0 1) /\
  fst (first_order_grad_func (H := stub (fun _ _ => Some (mkArray 3)) [] (fun _ => true))
         (stub_func [mkArray 1]) 1 1 "default" [mkArray 0; mkArray 6] sample_world) =
    Throw GradientCheckError (MsgFirstOrderNotDifferentiable 0 1 "default") /\
  fst (first_order_grad_func (H := stub grads_first_order [] (fun _ => true))
         (stub_func [mkArray 1]) 1 1 "default" [mkArray 0; mkArray 6] sample_world) =
    Ok [mkArray 4].
Proof.
  pose (f := stub_func [mkArray 1]).
  pose (r1 := for_each [mkArray 0] (fun input => RequireGrad input "default")
                (set_backprop_mode_stack (cons ("default", true)) sample_world)).
  split; [| split].
  - pose (E := stub (fun _ _ => None) [] (fun _ => true)).
    pose (r2 := BackwardGradients (H := E) f [mkArray 0] (Some [mkArray 6]) "default" kEnable
                  (snd r1)).
    destruct (first_order_grad_func_outcomes (H := E) f [mkArray 0] [mkArray 6] 1 "default"
                sample_world (snd r1) (snd r2) (result_of [] r2)) as (P & _ & _).
    + vm_compute. reflexivity.
    + vm_compute. reflexivity.
    + fold E f. change ([mkArray 0; mkArray 6]) with ([mkArray 0] ++ [mkArray 6]).
      change 1 with (length [mkArray 0]) at 1.
      rewrite (P 0); [reflexivity | vm_compute; reflexivity | intros k Hk; lia].
  - pose (E := stub (fun _ _ => Some (mkArray 3)) [] (fun _ => true)).
    pose (r2 := BackwardGradients (H := E) f [mkArray 0] (Some [mkArray 6]) "default" kEnable
                  (snd r1)).
    destruct (first_order_grad_func_outcomes (H := E) f [mkArray 0] [mkArray 6] 1 "default"
                sample_world (snd r1) (snd r2) (result_of [] r2)) as (_ & P & _).
    + vm_compute. reflexivity.
    + vm_compute. reflexivity.
    + fold E f. change ([mkArray 0; mkArray 6]) with ([mkArray 0] ++ [mkArray 6]).
      change 1 with (length [mkArray 0]) at 1.
      rewrite (P [mkArray 3] 0 (mkArray 3));
        [reflexivity | vm_compute; reflexivity | reflexivity | vm_compute; reflexivity
        | intros k a' Hk; lia].
  - pose (E := stub grads_first_order [] (fun _ => true)).
    pose (r2 := BackwardGradients (H := E) f [mkArray 0] (Some [mkArray 6]) "default" kEnable
                  (snd r1)).
    destruct (first_order_grad_func_outcomes (H := E) f [mkArray 0] [mkArray 6] 1 "default"
                sample_world (snd r1) (snd r2) (result_of [] r2)) as (_ & _ & P).
    + vm_compute. reflexivity.
    + vm_compute. reflexivity.
    + fold E f. change ([mkArray 0; mkArray 6]) with ([mkArray 0] ++ [mkArray 6]).
      change 1 with (length [mkArray 0]) at 1.
      rewrite (P [mkArray 4]); [reflexivity | vm_compute; reflexivity |].
      constructor; [vm_compute; reflexivity | constructor].
Defined.

(** ** Clearing the input gradients and calling the engine *)

Lemma find_fmap_same {A} (p : A -> bool) (f : A -> A) (l : list A) :
  (forall x, p (f x) = p x) -> find p (f <$> l) = f <$> find p l.
Proof.
  intros Hp. induction l as [|x l IH]; simpl; [reflexivity |].
  rewrite Hp. now destruct (p x).
Qed.

Lemma set_node_grad_graph_id g v n : graph_id (set_node_grad g v n) = graph_id n.
Proof. unfold set_node_grad. now destruct (bool_decide (graph_id n = g)). Qed.

Lemma GetArrayNode_update g g' v b :
  GetArrayNode (set_nodes (set_node_grad g v <$> nodes b) b) g' =
  set_node_grad g v <$> GetArrayNode b g'.
Proof.
  unfold GetArrayNode. simpl. apply find_fmap_same.
  intros n. now rewrite set_node_grad_graph_id.
Qed.

Lemma HasArrayNode_update g g' v b :
  HasArrayNode (set_nodes (set_node_grad g v <$> nodes b) b) g' = HasArrayNode b g'.
Proof.
  unfold HasArrayNode. rewrite GetArrayNode_update. now destruct (GetArrayNode b g').
Qed.

Lemma grad_slot_update g v b :
  HasArrayNode b g = true ->
  grad_slot (set_nodes (set_node_grad g v <$> nodes b) b) g = v.
Proof.
  unfold HasArrayNode, grad_slot. intros Hn. apply bool_decide_eq_true in Hn as [n E].
  rewrite GetArrayNode_update, E. simpl.
  apply find_some in E as [_ E]. apply bool_decide_eq_true in E.
  unfold set_node_grad. now rewrite bool_decide_eq_true_2 by exact E.
Qed.

Lemma HasArrayNode_clear g g' b : HasArrayNode (clear_grad_body g b) g' = HasArrayNode b g'.
Proof. apply HasArrayNode_update. Qed.

Lemma grad_slot_clear g b : grad_slot (clear_grad_body g b) g = None.
Proof.
  destruct (HasArrayNode b g) eqn:Hn; [now apply grad_slot_update |].
  apply grad_slot_no_node. now rewrite HasArrayNode_clear.
Qed.

(** One step of the clearing loop. *)
Lemma clear_step (a : Array) (g : GraphId) (b : ArrayBody) (w : World) :
  bodies w !! GetArrayBody a = Some b ->
  (r <- IsGradRequired a g ;; if r then ClearGrad a g else ret tt) w =
  (Ok tt, if HasArrayNode b g
          then set_bodies (insert (GetArrayBody a) (clear_grad_body g b)) w
          else w).
Proof.
  intros Hb. rewrite (bind_ok _ _ _ _ _ (IsGradRequired_ok _ _ g _ Hb)).
  destruct (HasArrayNode b g) eqn:Hn; [| reflexivity].
  unfold ClearGrad, update_grad. rewrite (bind_ok _ _ _ _ _ (deref_ok _ _ _ Hb)). now rewrite Hn.
Qed.

(** The clearing loop: it returns, every input is left with an empty
    gradient slot under the graph, every body keeps its nodes' graphs, and
    only bodies of inputs are written. *)
Lemma clear_input_grads_spec (inputs : list Array) (g : GraphId) (w : World) :
  Forall (valid w) inputs ->
  exists w',
    clear_input_grads inputs g w = (Ok tt, w') /\
    (forall id b, bodies w !! id = Some b ->
       exists b', bodies w' !! id = Some b' /\
         (grad_slot b g = None -> grad_slot b' g = None) /\
         (forall g', HasArrayNode b' g' = HasArrayNode b g')) /\
    (forall a, a ∈ inputs ->
       exists b, bodies w' !! GetArrayBody a = Some b /\ grad_slot b g = None) /\
    (forall id, id ∉ GetArrayBody <$> inputs -> bodies w' !! id = bodies w !! id) /\
    buffers w' = buffers w /\ leak_tracker w' = leak_tracker w /\
    backprop_mode_stack w' = backprop_mode_stack w.
Proof.
  revert w. induction inputs as [|a inputs IH]; intros w Hv.
  - exists w. split; [reflexivity |]. split; [eauto 10 |]. split; [| easy].
    intros a Ha. now apply elem_of_nil in Ha.
  - apply Forall_cons in Hv as [[b Hb] Hv].
    set (w1 := if HasArrayNode b g
               then set_bodies (insert (GetArrayBody a) (clear_grad_body g b)) w else w).
    assert (Hkeep : forall id b0, bodies w !! id = Some b0 ->
              exists b1, bodies w1 !! id = Some b1 /\
                (grad_slot b0 g = None -> grad_slot b1 g = None) /\
                (forall g', HasArrayNode b1 g' = HasArrayNode b0 g')).
    { intros id b0 Hb0. unfold w1. destruct (HasArrayNode b g); [| eauto].
      simpl. destruct (decide (id = GetArrayBody a)) as [-> | Hne].
      - rewrite lookup_insert_eq. assert (b0 = b) as -> by congruence.
        exists (clear_grad_body g b). split; [reflexivity |]. split.
        + intros _. apply grad_slot_clear.
        + intros g'. apply HasArrayNode_clear.
      - rewrite lookup_insert_ne by congruence. eauto. }
    assert (Ha1 : exists b1, bodies w1 !! GetArrayBody a = Some b1 /\ grad_slot b1 g = None).
    { unfold w1. destruct (HasArrayNode b g) eqn:Hn.
      - simpl. rewrite lookup_insert_eq. eexists. split; [reflexivity | apply grad_slot_clear].
      - exists b. split; [exact Hb | now apply grad_slot_no_node]. }
    assert (Hother : forall id, id <> GetArrayBody a -> bodies w1 !! id = bodies w !! id).
    { intros id Hne. unfold w1. destruct (HasArrayNode b g); [| reflexivity].
      simpl. now rewrite lookup_insert_ne by congruence. }
    assert (Hrest : buffers w1 = buffers w /\ leak_tracker w1 = leak_tracker w /\
                    backprop_mode_stack w1 = backprop_mode_stack w).
    { unfold w1. now destruct (HasArrayNode b g). }
    assert (Hv1 : Forall (valid w1) inputs).
    { eapply Forall_impl; [exact Hv |]. intros x [bx Hx].
      destruct (Hkeep _ _ Hx) as (b1 & Hb1 & _). now exists b1. }
    destruct (IH w1 Hv1) as (w' & E & Hk & Hi & Ho & Hb' & Ht & Hs).
    exists w'. split.
    { unfold clear_input_grads. simpl.
      rewrite (bind_ok _ _ _ _ _ (clear_step a g b w Hb)). exact E. }
    split; [| split; [| split]].
    + intros id b0 Hb0. destruct (Hkeep _ _ Hb0) as (b1 & Hb1 & Hg1 & Hn1).
      destruct (Hk _ _ Hb1) as (b2 & Hb2 & Hg2 & Hn2).
      exists b2. split; [exact Hb2 |]. split; [tauto |]. intros g'. now rewrite Hn2.
    + intros x Hx. apply elem_of_cons in Hx as [-> | Hx]; [| now apply Hi].
      destruct Ha1 as (b1 & Hb1 & Hg1). destruct (Hk _ _ Hb1) as (b2 & Hb2 & Hg2 & _).
      exists b2. split; [exact Hb2 | now apply Hg2].
    + intros id Hid. rewrite fmap_cons, not_elem_of_cons in Hid. destruct Hid as [Hne Hid].
      now rewrite (Ho _ Hid), (Hother _ Hne).
    + destruct Hrest as (R1 & R2 & R3). rewrite Hb', Ht, Hs. easy.
Qed.

(** [copy_if] with [IsGradRequired] selects, in order, the arrays whose body
    has a node under the graph. *)
Lemma copy_if_requires_grad (l : list Array) (g : GraphId) (w : World) :
  Forall (valid w) l ->
  copy_if l (fun a => IsGradRequired a g) w = (Ok (filter (requires_grad w g) l), w).
Proof.
  induction 1 as [|a l [b Hb] _ IH]; simpl; [reflexivity |].
  rewrite (bind_ok _ _ _ _ _ (IsGradRequired_ok _ _ g _ Hb)), (bind_ok _ _ _ _ _ IH).
  rewrite filter_cons. destruct (HasArrayNode b g) eqn:Hn.
  - rewrite decide_True; [reflexivity | now exists b].
  - rewrite decide_False; [reflexivity |]. intros (b' & Hb' & Hn'). congruence.
Qed.

(** X9. What [BackwardGradients] hands to the engine.  Once the outputs are
    seeded, and before [Backward] runs, every input has an empty gradient
    slot under the graph, so that a gradient left by an earlier pass cannot
    be returned for this one; no body other than those of the inputs is
    written by the clearing; and [Backward] is called with the outputs that
    require gradient under the graph in that store, in their order, and
    with no other array. *)
Theorem BackwardGradients_engine_call `{Collaborators} (func : Func)
    (inputs outputs : list Array) (grad_outputs : option (list Array)) (g : GraphId)
    (double_backprop : DoubleBackpropOption) (w w1 w2 : World) :
  check_leaves inputs g w = (Ok tt, w) ->
  func inputs w = (Ok outputs, w1) ->
  check_identical inputs outputs g w1 = (Ok tt, w1) ->
  seed_outputs outputs grad_outputs g w1 = (Ok tt, w2) ->
  Forall (valid w2) inputs ->
  Forall (valid w2) outputs ->
  exists w3,
    (forall a, a ∈ inputs ->
       exists b, bodies w3 !! GetArrayBody a = Some b /\ grad_slot b g = None) /\
    (forall id, id ∉ GetArrayBody <$> inputs -> bodies w3 !! id = bodies w2 !! id) /\
    BackwardGradients func inputs grad_outputs g double_backprop w =
      (Backward (filter (requires_grad w3 g) outputs) g double_backprop ;;
       transform inputs (fun input =>
         r <- IsGradRequired input g ;;
         if negb r then ret None else GetGrad input g)) w3.
Proof.
  intros Hl Hf Hi Hs Hvi Hvo.
  destruct (clear_input_grads_spec inputs g w2 Hvi) as (w3 & E & Hk & Hc & Ho & _).
  exists w3. split; [exact Hc |]. split; [exact Ho |].
  unfold BackwardGradients.
  rewrite (bind_ok _ _ _ _ _ Hl), (bind_ok _ _ _ _ _ Hf), (bind_ok _ _ _ _ _ Hi),
    (bind_ok _ _ _ _ _ Hs), (bind_ok _ _ _ _ _ E).
  assert (Hvo3 : Forall (valid w3) outputs).
  { eapply Forall_impl; [exact Hvo |]. intros x [bx Hx].
    destruct (Hk _ _ Hx) as (b' & Hb' & _). now exists b'. }
  now rewrite (bind_ok _ _ _ _ _ (copy_if_requires_grad outputs g w3 Hvo3)).
Qed.

Lemma BackwardGradients_engine_call_witness :
  exists w3,
    (exists b, bodies stale_world !! 0 = Some b /\ grad_slot b "default" = Some (mkArray 3)) /\
    (exists b, bodies w3 !! 0 = Some b /\ grad_slot b "default" = None) /\
    BackwardGradients (H := stub grads_first_order [] (fun _ => true))
      (stub_func [mkArray 1; mkArray 5]) [mkArray 0] None "default" kDisable stale_world =
      (Backward (Collaborators := stub grads_first_order [] (fun _ => true))
         [mkArray 5] "default" kDisable ;;
       transform [mkArray 0] (fun input =>
         r <- IsGradRequired input "default" ;;
         if negb r then ret None else GetGrad input "default")) w3.
Proof.
  pose (E := stub grads_first_order [] (fun _ => true)).
  destruct (BackwardGradients_engine_call (H := E) (stub_func [mkArray 1; mkArray 5])
              [mkArray 0] [mkArray 1; mkArray 5] None "default" kDisable
              stale_world stale_world stale_world) as (w3 & Hc & Ho & Hrun).
  - vm_compute. reflexivity.
  - reflexivity.
  - vm_compute. reflexivity.
  - reflexivity.
  - by_computation.
  - by_computation.
  - exists w3. split; [eexists; split; vm_compute; reflexivity |].
    split; [apply (Hc (mkArray 0)); now left |].
    fold E. rewrite Hrun.
    assert (Hf : filter (requires_grad w3 "default") [mkArray 1; mkArray 5] = [mkArray 5]).
    { rewrite !filter_cons, filter_nil.
      assert (H1 : bodies w3 !! 1 = bodies stale_world !! 1)
        by (apply Ho; vm_compute; intros Hx; apply elem_of_cons in Hx as [Hx | Hx];
            [discriminate | now apply elem_of_nil in Hx]).
      assert (H5 : bodies w3 !! 5 = bodies stale_world !! 5)
        by (apply Ho; vm_compute; intros Hx; apply elem_of_cons in Hx as [Hx | Hx];
            [discriminate | now apply elem_of_nil in Hx]).
      rewrite decide_False, decide_True; [reflexivity | |].
      - eexists. split; [simpl; rewrite H5; vm_compute; reflexivity | vm_compute; reflexivity].
      - intros (b & Hb & Hn). simpl in Hb. rewrite H1 in Hb. vm_compute in Hb.
        injection Hb as <-. vm_compute in Hn. discriminate. }
    now rewrite Hf.
Defined.

(** ** Seeding the outputs *)

(** One step of the seeding loop. *)
Lemma seed_step (outputs gos : list Array) (g : GraphId) (i : nat) (o s : Array)
    (b : ArrayBody) (w : World) :
  outputs !! i = Some o -> gos !! i = Some s -> bodies w !! GetArrayBody o = Some b ->
  (output <- at_ outputs i ;;
   r <- IsGradRequired output g ;;
   if r then g0 <- at_ gos i ;; SetGrad output g0 g else ret tt) w =
  (Ok tt, if HasArrayNode b g
          then set_bodies (insert (GetArrayBody o)
                 (set_nodes (set_node_grad g (Some s) <$> nodes b) b)) w
          else w).
Proof.
  intros Ho Hs Hb. rewrite (bind_ok _ _ _ _ _ (at_ok _ _ _ _ Ho)).
  rewrite (bind_ok _ _ _ _ _ (IsGradRequired_ok _ _ g _ Hb)).
  destruct (HasArrayNode b g) eqn:Hn; [| reflexivity].
  rewrite (bind_ok _ _ _ _ _ (at_ok _ _ _ _ Hs)).
  unfold SetGrad, update_grad. rewrite (bind_ok _ _ _ _ _ (deref_ok _ _ _ Hb)). now rewrite Hn.
Qed.

Lemma seed_loop (outputs gos : list Array) (g : GraphId) (count from : nat) (w : World) :
  from + count <= length outputs -> from + count <= length gos ->
  Forall (valid w) outputs ->
  exists w',
    for_range from count (fun i =>
      output <- at_ outputs i ;;
      r <- IsGradRequired output g ;;
      if r then g0 <- at_ gos i ;; SetGrad output g0 g else ret tt) w = (Ok tt, w') /\
    (forall id b, bodies w !! id = Some b ->
       exists b', bodies w' !! id = Some b' /\
         forall g', HasArrayNode b' g' = HasArrayNode b g') /\
    (forall id,
       (forall j o, from <= j < from + count -> outputs !! j = Some o ->
          requires_grad w g o -> GetArrayBody o <> id) ->
       bodies w' !! id = bodies w !! id) /\
    (forall i o s, from <= i < from + count ->
       outputs !! i = Some o -> gos !! i = Some s -> requires_grad w g o ->
       (forall j o', i < j < from + count -> outputs !! j = Some o' ->
          GetArrayBody o' <> GetArrayBody o) ->
       exists b', bodies w' !! GetArrayBody o = Some b' /\ grad_slot b' g = Some s).
Proof.
  revert from w. induction count as [|n IH]; intros from w Ho Hg Hv.
  - exists w. split; [reflexivity |]. split; [eauto |]. split; [reflexivity |].
    intros i o s Hi. lia.
  - destruct (lookup_lt_is_Some_2 outputs from ltac:(lia)) as [o0 Ho0].
    destruct (lookup_lt_is_Some_2 gos from ltac:(lia)) as [s0 Hs0].
    pose proof Hv as Hv'. rewrite Forall_forall in Hv'.
    destruct (Hv' o0 ltac:(eapply list_elem_of_lookup_2; eauto)) as [b0 Hb0].
    set (w1 := if HasArrayNode b0 g
               then set_bodies (insert (GetArrayBody o0)
                      (set_nodes (set_node_grad g (Some s0) <$> nodes b0) b0)) w
               else w).
    assert (Hkeep : forall id b, bodies w !! id = Some b ->
              exists b1, bodies w1 !! id = Some b1 /\
                forall g', HasArrayNode b1 g' = HasArrayNode b g').
    { intros id b Hb. unfold w1. destruct (HasArrayNode b0 g); [| eauto].
      simpl. destruct (decide (id = GetArrayBody o0)) as [-> | Hne].
      - rewrite lookup_insert_eq. assert (b = b0) as -> by congruence.
        eexists. split; [reflexivity |]. intros g'. apply HasArrayNode_update.
      - rewrite lookup_insert_ne by congruence. eauto. }
    assert (Hreq : forall o, requires_grad w g o -> requires_grad w1 g o).
    { intros o (b & Hb & Hn). destruct (Hkeep _ _ Hb) as (b1 & Hb1 & Hn1).
      exists b1. split; [exact Hb1 | now rewrite Hn1]. }
    assert (Hreq' : forall o, requires_grad w1 g o -> requires_grad w g o).
    { intros o (b1 & Hb1 & Hn1). unfold w1 in Hb1.
      destruct (HasArrayNode b0 g) eqn:Hn0; [| now exists b1].
      simpl in Hb1. destruct (decide (GetArrayBody o = GetArrayBody o0)) as [E | Hne].
      - rewrite E, lookup_insert_eq in Hb1. injection Hb1 as <-.
        exists b0. split; [now rewrite E | exact Hn0].
      - rewrite lookup_insert_ne in Hb1 by congruence. now exists b1. }
    assert (Hv1 : Forall (valid w1) outputs).
    { eapply Forall_impl; [exact Hv |]. intros x [bx Hx].
      destruct (Hkeep _ _ Hx) as (b1 & Hb1 & _). now exists b1. }
    destruct (IH (S from) w1 ltac:(lia) ltac:(lia) Hv1) as (w' & E & Hk & Hu & Hset).
    exists w'. split.
    { simpl. rewrite (bind_ok _ _ _ _ _ (seed_step outputs gos g from o0 s0 b0 w Ho0 Hs0 Hb0)).
      exact E. }
    split; [| split].
    + intros id b Hb. destruct (Hkeep _ _ Hb) as (b1 & Hb1 & Hn1).
      destruct (Hk _ _ Hb1) as (b2 & Hb2 & Hn2).
      exists b2. split; [exact Hb2 |]. intros g'. now rewrite Hn2.
    + intros id Hid. rewrite Hu.
      * unfold w1. destruct (HasArrayNode b0 g) eqn:Hn0; [| reflexivity].
        simpl. rewrite lookup_insert_ne; [reflexivity |].
        apply (Hid from o0); [lia | exact Ho0 | now exists b0].
      * intros j o Hj Hoj Hr. apply (Hid j o); [lia | exact Hoj | now apply Hreq'].
    + intros i o s Hi Hoi Hsi Hr Hlast.
      destruct (decide (i = from)) as [-> | Hne].
      * assert (o = o0) as -> by congruence. assert (s = s0) as -> by congruence.
        destruct Hr as (b & Hb & Hn). assert (b = b0) as -> by congruence.
        rewrite Hu.
        -- unfold w1. rewrite Hn. simpl. rewrite lookup_insert_eq.
           eexists. split; [reflexivity | now apply grad_slot_update].
        -- intros j o' Hj Hoj _. apply (Hlast j o'); [lia | exact Hoj].
      * apply (Hset i o s); [lia | exact Hoi | exact Hsi | now apply Hreq |].
        intros j o' Hj. apply Hlast. lia.
Qed.

(** X10. Seeding the outputs with explicit seed gradients.  A number of seeds
    other than the number of outputs is an error of the gradient check that
    names both numbers, and nothing is written.  Otherwise every output that
    requires gradient under the graph carries afterwards the seed of its own
    index (of its last index, if the function returned it twice); no body
    other than those of such outputs is written, and no body gains or loses a
    graph. *)
Theorem seed_outputs_sets_seeds (outputs gos : list Array) (g : GraphId) (w : World) :
  Forall (valid w) outputs ->
  (length outputs <> length gos ->
   seed_outputs outputs (Some gos) g w =
     (Throw GradientCheckError (MsgGradOutputsSize (length outputs) (length gos)), w)) /\
  (length outputs = length gos ->
   exists w',
     seed_outputs outputs (Some gos) g w = (Ok tt, w') /\
     (forall i o s, outputs !! i = Some o -> gos !! i = Some s -> requires_grad w g o ->
        (forall j o', i < j -> outputs !! j = Some o' -> GetArrayBody o' <> GetArrayBody o) ->
        exists b', bodies w' !! GetArrayBody o = Some b' /\ grad_slot b' g = Some s) /\
     (forall id, (forall o, o ∈ outputs -> requires_grad w g o -> GetArrayBody o <> id) ->
        bodies w' !! id = bodies w !! id) /\
     (forall a g', requires_grad w g' a <-> requires_grad w' g' a)).
Proof.
  intros Hv. split.
  - intros Hne. unfold seed_outputs. now rewrite bool_decide_eq_true_2 by exact Hne.
  - intros Hlen.
    destruct (seed_loop outputs gos g (length outputs) 0 w ltac:(lia) ltac:(lia) Hv)
      as (w' & E & Hk & Hu & Hset).
    exists w'. split.
    { unfold seed_outputs. rewrite bool_decide_eq_false_2 by (intros Hne; now apply Hne).
      exact E. }
    split; [| split].
    + intros i o s Ho Hs Hr Hlast. pose proof (lookup_lt_Some _ _ _ Ho).
      apply (Hset i o s); [lia | exact Ho | exact Hs | exact Hr |].
      intros j o' Hj. apply Hlast. lia.
    + intros id Hid. apply Hu. intros j o _ Ho. apply Hid.
      eapply list_elem_of_lookup_2; eauto.
    + intros a g'. split.
      * intros (b & Hb & Hn). destruct (Hk _ _ Hb) as (b' & Hb' & Hn').
        exists b'. split; [exact Hb' | now rewrite Hn'].
      * intros (b' & Hb' & Hn'). destruct (bodies w !! GetArrayBody a) as [b|] eqn:Hb.
        -- destruct (Hk _ _ Hb) as (b2 & Hb2 & Hn2). assert (b2 = b') as -> by congruence.
           exists b. split; [exact Hb | now rewrite <- Hn2].
        -- rewrite Hu in Hb'; [congruence |].
           intros j o _ _ (bo & Hbo & _) Heq. rewrite Heq in Hbo. congruence.
Qed.

Lemma seed_outputs_sets_seeds_witness :
  fst (seed_outputs [mkArray 5; mkArray 1] (Some [mkArray 6]) "default" sample_world) =
    Throw GradientCheckError (MsgGradOutputsSize 2 1) /\
  exists w',
    seed_outputs [mkArray 5; mkArray 1] (Some [mkArray 6; mkArray 4]) "default" sample_world =
      (Ok tt, w') /\
    (exists b', bodies w' !! 5 = Some b' /\ grad_slot b' "default" = Some (mkArray 6)) /\
    bodies w' !! 1 = bodies sample_world !! 1.
Proof.
  assert (Hv : Forall (valid sample_world) [mkArray 5; mkArray 1]) by by_computation.
  split.
  - destruct (seed_outputs_sets_seeds [mkArray 5; mkArray 1] [mkArray 6] "default"
                sample_world Hv) as [P _].
    rewrite P; [reflexivity | simpl; lia].
  - destruct (seed_outputs_sets_seeds [mkArray 5; mkArray 1] [mkArray 6; mkArray 4] "default"
                sample_world Hv) as [_ P].
    destruct (P eq_refl) as (w' & E & Hset & Hu & _).
    exists w'. split; [exact E |]. split.
    + apply (Hset 0 (mkArray 5) (mkArray 6)); [reflexivity | reflexivity | by_computation |].
      intros [|[|j]] o' Hj Ho'; [lia | | discriminate].
      injection Ho' as <-. discriminate.
    + apply Hu. intros o Ho Hr Heq.
      apply elem_of_cons in Ho as [-> | Ho]; [discriminate |].
      apply elem_of_cons in Ho as [-> | Ho]; [| now apply elem_of_nil in Ho].
      destruct Hr as (b & Hb & Hn). vm_compute in Hb. injection Hb as <-.
      vm_compute in Hn. discriminate.
Defined.

(** ** The bodies that [DisconnectInputArrays] creates *)

Lemma require_all_blank gs ns :
  Forall (fun n => grad n = None) ns -> Forall (fun n => grad n = None) (require_all gs ns).
Proof.
  revert ns. induction gs as [|h gs IH]; intros ns Hns; simpl; [exact Hns |].
  apply IH. unfold require_grad_nodes. case_bool_decide; [exact Hns |].
  apply Forall_app. split; [exact Hns | now repeat constructor].
Qed.

Lemma require_all_NoDup gs ns :
  NoDup (graph_id <$> ns) -> NoDup (graph_id <$> require_all gs ns).
Proof.
  revert ns. induction gs as [|h gs IH]; intros ns Hns; simpl; [exact Hns |].
  apply IH. unfold require_grad_nodes. case_bool_decide as Hh; [exact Hns |].
  rewrite fmap_app. apply NoDup_app. split; [exact Hns |]. split.
  - intros x Hx Hx'. simpl in Hx'. apply list_elem_of_singleton in Hx'. now subst x.
  - simpl. apply NoDup_singleton.
Qed.

Lemma blank_grad_slot (b : ArrayBody) (g : GraphId) :
  Forall (fun n => grad n = None) (nodes b) -> grad_slot b g = None.
Proof.
  intros Hb. unfold grad_slot, GetArrayNode.
  destruct (find _ (nodes b)) as [n|] eqn:E; [| reflexivity].
  apply find_some in E as [Hn _]. rewrite Forall_forall in Hb.
  apply Hb. now apply list_elem_of_In.
Qed.

Lemma view_bodies_weaken (w w1 w' : World) (inputs views : list Array) :
  bodies w ⊆ bodies w1 -> Forall (valid w) inputs ->
  Forall2 (fun input view => exists b,
             bodies w1 !! GetArrayBody input = Some b /\
             bodies w' !! GetArrayBody view =
               Some (mkArrayBody (data b) (shape b) (dtype b) (default_graph_id b)
                       (require_all (graph_id <$> nodes b) []))) inputs views ->
  Forall2 (fun input view => exists b,
             bodies w !! GetArrayBody input = Some b /\
             bodies w' !! GetArrayBody view =
               Some (mkArrayBody (data b) (shape b) (dtype b) (default_graph_id b)
                       (require_all (graph_id <$> nodes b) []))) inputs views.
Proof.
  intros Hsub Hv HF. induction HF as [|x v l l' (bx & Hx & Hx') HF IHF]; [constructor |].
  apply Forall_cons in Hv as [[bx0 Hx0] Hv].
  constructor; [| now apply IHF].
  exists bx0. split; [exact Hx0 |].
  pose proof (lookup_weaken _ _ _ _ Hx0 Hsub) as Hx1.
  assert (bx = bx0) as -> by congruence. exact Hx'.
Qed.

(** The body of the view of an input whose body is [b]. *)
Lemma DisconnectInputArrays_bodies (inputs : list Array) (w : World) :
  Forall (valid w) inputs ->
  exists views w',
    DisconnectInputArrays inputs w = (Ok views, w') /\
    Forall2 (fun input view => exists b,
               bodies w !! GetArrayBody input = Some b /\
               bodies w' !! GetArrayBody view =
                 Some (mkArrayBody (data b) (shape b) (dtype b) (default_graph_id b)
                         (require_all (graph_id <$> nodes b) []))) inputs views /\
    leak_tracker w' = (fun t => t ++ (GetArrayBody <$> views)) <$> leak_tracker w /\
    bodies w ⊆ bodies w' /\
    backprop_mode_stack w' = backprop_mode_stack w.
Proof.
  revert w. induction inputs as [|a inputs IH]; intros w Hv.
  - exists [], w. split; [reflexivity |]. split; [constructor |]. split; [| easy].
    simpl. destruct (leak_tracker w); simpl; [now rewrite app_nil_r | reflexivity].
  - apply Forall_cons in Hv as [[b Hb] Hv].
    destruct (disconnect_one a b w Hb) as (w1 & E1 & Hnew & Hb1 & _ & Ht1 & Hs1).
    set (id := fresh (dom (bodies w))) in *.
    assert (Hsub1 : bodies w ⊆ bodies w1) by (rewrite Hb1; now apply insert_subseteq).
    assert (Hv1 : Forall (valid w1) inputs).
    { eapply Forall_impl; [exact Hv |]. intros x [bx Hx]. exists bx.
      eapply lookup_weaken; eauto. }
    destruct (IH w1 Hv1) as (views & w' & E & HF & Ht & Hsub & Hs).
    exists (mkArray id :: views), w'. split.
    { unfold DisconnectInputArrays in *. simpl.
      rewrite (bind_ok _ _ _ _ _ E1), (bind_ok _ _ _ _ _ E). reflexivity. }
    split; [| split; [| split]].
    + constructor.
      * exists b. split; [exact Hb |]. eapply lookup_weaken; [| exact Hsub].
        rewrite Hb1. simpl. apply lookup_insert_eq.
      * eapply view_bodies_weaken; eauto.
    + rewrite Ht, Ht1. destruct (leak_tracker w); simpl; [| reflexivity].
      now rewrite <- app_assoc.
    + now transitivity (bodies w1).
    + now rewrite Hs, Hs1.
Qed.

(** X11. The views that [DisconnectInputArrays] returns are blank copies of
    the graph structure: the body of a view has at most one node per graph
    and every gradient slot of it is empty, whatever gradients the input
    carries, and the default graph of a view is that of its input.  Each new
    body is recorded, in the order of the inputs, by the leak detection scope
    that is active, and by none when none is active; the backprop mode stack
    is left as it was. *)
Theorem DisconnectInputArrays_blank_views (inputs : list Array) (w : World) :
  Forall (valid w) inputs ->
  exists views w',
    DisconnectInputArrays inputs w = (Ok views, w') /\
    (forall i input view, inputs !! i = Some input -> views !! i = Some view ->
       exists b b',
         bodies w !! GetArrayBody input = Some b /\
         bodies w' !! GetArrayBody view = Some b' /\
         NoDup (graph_id <$> nodes b') /\
         (forall g, grad_slot b' g = None) /\
         default_graph_id b' = default_graph_id b) /\
    leak_tracker w' = (fun t => t ++ (GetArrayBody <$> views)) <$> leak_tracker w /\
    backprop_mode_stack w' = backprop_mode_stack w.
Proof.
  intros Hv.
  destruct (DisconnectInputArrays_bodies inputs w Hv) as (views & w' & E & HF & Ht & _ & Hs).
  exists views, w'. split; [exact E |]. split; [| now split].
  intros i input view Hi Hview.
  destruct (Forall2_lookup_lr _ _ _ _ _ _ HF Hi Hview) as (b & Hb & Hb').
  exists b. eexists. split; [exact Hb |]. split; [exact Hb' |]. simpl.
  split; [apply require_all_NoDup; constructor |]. split; [| reflexivity].
  intros g. apply blank_grad_slot. simpl. apply require_all_blank. constructor.
Qed.

Lemma DisconnectInputArrays_blank_views_witness :
  exists views w',
    DisconnectInputArrays [mkArray 0; mkArray 5] (set_leak_tracker (Some [9]) stale_world) =
      (Ok views, w') /\
    leak_tracker w' = Some ([9] ++ (GetArrayBody <$> views)) /\
    length views = 2 /\
    (exists b, bodies stale_world !! 0 = Some b /\ grad_slot b "default" = Some (mkArray 3)) /\
    (forall view, views !! 0 = Some view ->
       exists b', bodies w' !! GetArrayBody view = Some b' /\ grad_slot b' "default" = None).
Proof.
  assert (Hv : Forall (valid (set_leak_tracker (Some [9]) stale_world)) [mkArray 0; mkArray 5])
    by by_computation.
  destruct (DisconnectInputArrays_blank_views [mkArray 0; mkArray 5]
              (set_leak_tracker (Some [9]) stale_world) Hv) as (views & w' & E & Hb & Ht & _).
  exists views, w'. split; [exact E |]. split; [exact Ht |].
  split; [exact (DisconnectInputArrays_length _ _ _ _ E) |].
  split; [eexists; split; vm_compute; reflexivity |].
  intros view Hview.
  destruct (Hb 0 (mkArray 0) view eq_refl Hview) as (b & b' & _ & Hb' & _ & Hg & _).
  exists b'. split; [exact Hb' | apply Hg].
Defined.

(** ** The second order entry point on arrays that are not differentiable *)

Lemma Forall2_Exists {A B} (R : A -> B -> Prop) (P : A -> Prop) (Q : B -> Prop)
    (l : list A) (l' : list B) :
  (forall x y, R x y -> P x -> Q y) ->
  Forall2 R l l' -> Exists P l -> Exists Q l'.
Proof.
  intros HR HF. induction HF as [|x y l l' Hxy HF IH]; intros Hex.
  - now apply Exists_nil in Hex.
  - apply Exists_cons in Hex as [Hx | Hex]; [left; eauto | right; eauto].
Qed.

(** A view does not require gradient where its input does not, also in a
    later store that keeps the body of the view. *)
Lemma view_not_required (w0 w w1 w2 : World) (g : GraphId) (input view : Array) :
  bodies w0 ⊆ bodies w -> bodies w1 ⊆ bodies w2 ->
  valid w0 input ->
  disconnected_view w w1 input view ->
  ~ requires_grad w0 g input ->
  IsGradRequired view g w2 = (Ok false, w2).
Proof.
  intros S0 S1 [b0 Hb0] (b & b' & Hb & Hb' & _ & _ & _ & _ & _ & _ & Hn) Hnot.
  pose proof (lookup_weaken _ _ _ _ Hb0 S0) as Hb0'. assert (b = b0) as -> by congruence.
  rewrite (IsGradRequired_ok _ _ g _ (lookup_weaken _ _ _ _ Hb' S1)), Hn.
  destruct (HasArrayNode b0 g) eqn:E; [| reflexivity].
  destruct Hnot. now exists b0.
Qed.

(** X12. [CheckDoubleBackwardComputation] on arrays that cannot be checked.
    The inputs and the seed gradients are isolated first; the views keep the
    graphs of their originals, so when an original input or seed gradient
    does not require gradient under the graph of the check, or the number of
    second order seeds is not the number of inputs, the entry point raises
    an [XchainerError]: in the store that the two isolations left, with the
    leak detection scope closed and without the leak assertion, whatever
    the forward function, the engine and the estimator are. *)
Theorem CheckDoubleBackwardComputation_rejects_originals `{Collaborators} (func : Func)
    (inputs grad_outputs grad_grad_inputs eps : list Array) (atol rtol : Q)
    (graph_id : option GraphId) (w : World) (first : Array) (rest : list Array)
    (b : ArrayBody) :
  inputs = first :: rest ->
  Forall (valid w) (inputs ++ grad_outputs) ->
  bodies w !! GetArrayBody first = Some b ->
  let g := default (default_graph_id b) graph_id in
  length grad_grad_inputs <> length inputs \/
    Exists (fun a => ~ requires_grad w g a) (inputs ++ grad_outputs) ->
  exists views grad_views w1 w2 e,
    DisconnectInputArrays inputs (set_leak_tracker (Some []) w) = (Ok views, w1) /\
    DisconnectInputArrays grad_outputs w1 = (Ok grad_views, w2) /\
    CheckDoubleBackwardComputation func inputs grad_outputs grad_grad_inputs eps atol rtol
      graph_id w = (Throw XchainerError e, set_leak_tracker None w2).
Proof.
  intros Hin Hv Hb g Hbad. apply Forall_app in Hv as [Hvi Hvo].
  destruct (DisconnectInputArrays_views inputs (set_leak_tracker (Some []) w) Hvi)
    as (views & w1 & E1 & HF1 & _ & S1 & _).
  assert (Hvo1 : Forall (valid w1) grad_outputs).
  { eapply Forall_impl; [exact Hvo |]. intros a [ba Ha]. exists ba.
    eapply lookup_weaken; [exact Ha | exact S1]. }
  destruct (DisconnectInputArrays_views grad_outputs w1 Hvo1)
    as (gviews & w2 & E2 & HF2 & _ & S2 & _).
  exists views, gviews, w1, w2.
  pose proof (Forall2_length _ _ _ HF1) as Hlen1.
  subst inputs. inversion HF1 as [|? view ? views' Hview HF1']; subst.
  assert (Hg : GetArrayGraphId view graph_id w2 = (Ok g, w2)).
  { destruct Hview as (b0 & b' & Hb0 & Hb' & _ & _ & _ & _ & Hdg & _).
    simpl in Hb0. assert (b0 = b) as -> by congruence.
    unfold GetArrayGraphId, g. destruct graph_id as [g'|]; [reflexivity |].
    rewrite (bind_ok _ _ _ _ _ (deref_ok _ _ _ (lookup_weaken _ _ _ _ Hb' S2))).
    simpl. now rewrite Hdg. }
  assert (Hvalid : Forall (valid w2) ((view :: views') ++ gviews)).
  { apply Forall_app. split; [| exact (disconnected_views_valid _ _ _ _ HF2)].
    eapply Forall_impl; [exact (disconnected_views_valid _ _ _ _ HF1) |].
    intros a [ba Ha]. exists ba. eapply lookup_weaken; [exact Ha | exact S2]. }
  assert (Hbad2 : length grad_grad_inputs <> length (view :: views') \/
            Exists (fun a => IsGradRequired a g w2 = (Ok false, w2))
              ((view :: views') ++ gviews)).
  { destruct Hbad as [Hbad | Hbad]; [left; now rewrite <- Hlen1 | right].
    apply Exists_app in Hbad as [Hbad | Hbad]; apply Exists_app; [left | right].
    - eapply (Forall2_Exists
                (fun a v => valid w a /\
                   disconnected_view (set_leak_tracker (Some []) w) w1 a v));
        [| | exact Hbad].
      + intros x y [Hx Hxy] Hnot.
        now apply (view_not_required w (set_leak_tracker (Some []) w) w1 w2 g x y).
      + clear -Hvi HF1. induction HF1; [constructor |].
        apply Forall_cons in Hvi as [? ?]. constructor; [now split | now apply IHHF1].
    - eapply (Forall2_Exists (fun a v => valid w a /\ disconnected_view w1 w2 a v));
        [| | exact Hbad].
      + intros x y [Hx Hxy] Hnot.
        now apply (view_not_required w w1 w2 w2 g x y).
      + clear -Hvo HF2. induction HF2; [constructor |].
        apply Forall_cons in Hvo as [? ?]. constructor; [now split | now apply IHHF2]. }
  destruct (Impl_preconditions func (view :: views') gviews grad_grad_inputs eps atol rtol
              graph_id w2 view views' g eq_refl Hg Hvalid Hbad2) as [e He].
  exists e. split; [exact E1 |]. split; [exact E2 |].
  unfold CheckDoubleBackwardComputation. apply leak_checked_throw.
  now rewrite (bind_ok _ _ _ _ _ E1), (bind_ok _ _ _ _ _ E2).
Qed.

Lemma CheckDoubleBackwardComputation_rejects_originals_witness :
  exists e,
    fst (CheckDoubleBackwardComputation (H := stub grads_first_order [] (fun _ => true))
           (stub_func [mkArray 1]) [mkArray 0; mkArray 1] [mkArray 6] [mkArray 1; mkArray 1]
           [mkArray 2; mkArray 2; mkArray 2] 0%Q 0%Q None sample_world) =
    Throw XchainerError e.
Proof.
  destruct (CheckDoubleBackwardComputation_rejects_originals
              (H := stub grads_first_order [] (fun _ => true))
              (stub_func [mkArray 1]) [mkArray 0; mkArray 1] [mkArray 6] [mkArray 1; mkArray 1]
              [mkArray 2; mkArray 2; mkArray 2] 0%Q 0%Q None sample_world
              (mkArray 0) [mkArray 1] (float_body 0 [leaf]))
    as (views & gviews & w1 & w2 & e & _ & _ & E).
  - reflexivity.
  - by_computation.
  - vm_compute. reflexivity.
  - right. by_computation.
  - exists e. now rewrite E.
Defined.

(** ** Exceptions inside the toggle verification *)

(** X13. The toggle verification accumulates only what its own two loops
    find.  An exception of the gradient extraction ends it at once: when the
    extraction of the run without double backprop throws, the run with double
    backprop is not made; when the extraction of the second run throws, that
    exception is the outcome, and the failures that the first run recorded are
    not reported. *)
Theorem CheckDoubleBackpropOption_extraction_throws `{Collaborators} (func : Func)
    (inputs : list Array) (g : GraphId) (w w1 : World) (views1 : list Array) :
  DisconnectInputArrays inputs w = (Ok views1, w1) ->
  (forall c e w2,
     BackwardGradients (nonlinear_func func) views1 None g kDisable w1 = (Throw c e, w2) ->
     CheckDoubleBackpropOption func inputs g w = (Throw c e, w2)) /\
  (forall grads1 w2 views2 w3 c e w4,
     BackwardGradients (nonlinear_func func) views1 None g kDisable w1 = (Ok grads1, w2) ->
     Forall (valid_opt w2) grads1 ->
     DisconnectInputArrays inputs w2 = (Ok views2, w3) ->
     BackwardGradients (nonlinear_func func) views2 None g kEnable w3 = (Throw c e, w4) ->
     CheckDoubleBackpropOption func inputs g w = (Throw c e, w4)).
Proof.
  intros Hd1. unfold CheckDoubleBackpropOption. split.
  - intros c e w2 Hb1. now rewrite (bind_ok _ _ _ _ _ Hd1), (bind_throw _ _ _ _ _ _ Hb1).
  - intros grads1 w2 views2 w3 c e w4 Hb1 Hv1 Hd2 Hb2.
    rewrite (bind_ok _ _ _ _ _ Hd1), (bind_ok _ _ _ _ _ Hb1).
    rewrite (bind_ok _ _ _ _ _ (check_connectivity_spec grads1 g false "" w2 Hv1)).
    now rewrite (bind_ok _ _ _ _ _ Hd2), (bind_throw _ _ _ _ _ _ Hb2).
Qed.

Lemma CheckDoubleBackpropOption_extraction_throws_witness :
  fst (CheckDoubleBackpropOption (H := stub grads_first_order [] (fun _ => true))
         (fun _ => throw XchainerError (MsgText "forward")) [mkArray 0] "default"
         sample_world) =
    Throw XchainerError (MsgText "forward").
Proof.
  pose (E := stub grads_first_order [] (fun _ => true)).
  pose (f := (fun _ => throw XchainerError (MsgText "forward")) : Func).
  pose (r1 := DisconnectInputArrays [mkArray 0] sample_world).
  destruct (CheckDoubleBackpropOption_extraction_throws (H := E) f
              [mkArray 0] "default" sample_world (snd r1) (result_of [] r1)) as [P _].
  - vm_compute. reflexivity.
  - pose (r2 := BackwardGradients (H := E) (nonlinear_func (H := E) f)
                  (result_of [] r1) None "default" kDisable (snd r1)).
    fold E f. rewrite (P XchainerError (MsgText "forward") (snd r2)); [reflexivity |].
    vm_compute. reflexivity.
Defined.

(** ** The assertion on the second order estimator *)

(** X14. In the second order check the answer of the numerical estimator is
    guarded by an assertion: when the preconditions hold and the estimator
    returns a number of gradients other than the number of inputs plus the
    number of seed gradients, the check stops at that assertion in the store
    the estimator left; the second order gradients are not extracted and no
    error of the check is raised. *)
Theorem second_order_asserts_estimator `{Collaborators} (func : Func)
    (inputs grad_outputs grad_grad_inputs eps : list Array) (atol rtol : Q)
    (graph_id : option GraphId) (w w1 : World) (first : Array) (rest : list Array)
    (g : GraphId) (ngs : list Array) :
  inputs = first :: rest ->
  GetArrayGraphId first graph_id w = (Ok g, w) ->
  length grad_grad_inputs = length inputs ->
  Forall (requires_grad w g) inputs ->
  Forall (requires_grad w g) grad_outputs ->
  CalculateNumericalGradient
    (first_order_grad_func func (length inputs) (length grad_outputs) g)
    (inputs ++ grad_outputs) grad_grad_inputs eps w = (Ok ngs, w1) ->
  length ngs <> length inputs + length grad_outputs ->
  CheckDoubleBackwardComputationImpl func inputs grad_outputs grad_grad_inputs eps atol rtol
    graph_id w = (Stop (AssertionFailure "numerical_grads.size() == nin + nout"), w1).
Proof.
  intros Hin Hg Hlen Hri Hro Hn Hnlen.
  unfold CheckDoubleBackwardComputationImpl.
  assert (Hfront : front inputs w = (Ok first, w)) by now subst inputs.
  rewrite (bind_ok _ _ _ _ _ Hfront), (bind_ok _ _ _ _ _ Hg).
  rewrite bool_decide_eq_false_2 by (intros E; now apply E). rewrite bind_ret.
  unfold check_inputs_differentiable, check_grad_outputs_differentiable.
  rewrite (bind_ok _ _ _ _ _ (differentiable_loop_ok _ inputs g w Hri)).
  rewrite (bind_ok _ _ _ _ _ (differentiable_loop_ok _ grad_outputs g w Hro)).
  rewrite (bind_ok _ _ _ _ _ Hn).
  now rewrite bool_decide_eq_false_2 by exact Hnlen.
Qed.

Lemma second_order_asserts_estimator_witness :
  CheckDoubleBackwardComputationImpl
    (H := stub grads_first_order [mkArray 4] (fun _ => true))
    (stub_func [mkArray 1]) [mkArray 0] [mkArray 6] [mkArray 1] [mkArray 2; mkArray 2]
    0%Q 0%Q None sample_world =
  (Stop (AssertionFailure "numerical_grads.size() == nin + nout"), sample_world).
Proof.
  apply (second_order_asserts_estimator
           (H := stub grads_first_order [mkArray 4] (fun _ => true))
           (stub_func [mkArray 1]) [mkArray 0] [mkArray 6] [mkArray 1] [mkArray 2; mkArray 2]
           0%Q 0%Q None sample_world sample_world (mkArray 0) [] "default" [mkArray 4]).
  - reflexivity.
  - vm_compute. reflexivity.
  - reflexivity.
  - by_computation.
  - by_computation.
  - reflexivity.
  - simpl. lia.
Defined.

(** ** The leak detection scope is closed on every path that returns or throws *)

Lemma leak_checked_closed `{Collaborators} (m : M unit) (w : World) :
  let r := (r <- ArrayBodyLeakDetectionScope [] m ;; CheckAllArrayBodiesFreed (snd r)) w in
  (exists f, fst r = Stop f) \/ leak_tracker (snd r) = None.
Proof.
  destruct (m (set_leak_tracker (Some []) w)) as [[[]| c e | f] w1] eqn:E; simpl.
  - rewrite (leak_checked_ok _ _ _ E), CheckAllArrayBodiesFreed_spec.
    right. now case_bool_decide.
  - rewrite (leak_checked_throw _ _ _ _ _ E). now right.
  - rewrite (leak_checked_stop _ _ _ _ E). left. now exists f.
Qed.

(** X15. Neither entry point leaves a leak tracker installed behind it:
    whenever [CheckBackward] or [CheckDoubleBackwardComputation] returns or
    throws, be it an exception of the forward function, of the engine or of
    the estimator, a failure of the check or the leak report itself, the
    store it leaves has no active tracker.  Only a fatal stop (an assertion
    or undefined behaviour) ends the program with the scope open. *)
Theorem entry_points_close_leak_scope `{Collaborators} (func : Func)
    (inputs grad_outputs grad_grad_inputs eps : list Array) (atol rtol : Q)
    (graph_id : option GraphId) (w : World) :
  let first_order := CheckBackward func inputs grad_outputs eps atol rtol graph_id w in
  let second_order :=
    CheckDoubleBackwardComputation func inputs grad_outputs grad_grad_inputs eps atol rtol
      graph_id w in
  ((exists f, fst first_order = Stop f) \/ leak_tracker (snd first_order) = None) /\
  ((exists f, fst second_order = Stop f) \/ leak_tracker (snd second_order) = None).
Proof.
  split; [| apply leak_checked_closed].
  destruct inputs as [|first rest]; [left; now eexists |].
  destruct (GetArrayGraphId first graph_id w) as [[g| c e | f] w0] eqn:Hg.
  - assert (w0 = w) as ->.
    { unfold GetArrayGraphId in Hg. destruct graph_id; [now injection Hg |].
      unfold bind, deref in Hg. destruct (bodies w !! GetArrayBody first); now injection Hg. }
    rewrite (CheckBackward_unfold func first rest grad_outputs eps atol rtol graph_id g w Hg).
    pose proof (leak_checked_closed (CheckDoubleBackpropOption func (first :: rest) g) w) as H1.
    simpl in H1.
    destruct ((r <- ArrayBodyLeakDetectionScope []
                      (CheckDoubleBackpropOption func (first :: rest) g) ;;
               CheckAllArrayBodiesFreed (snd r)) w) as [[[]| c e | f] w1] eqn:E1.
    + rewrite (bind_ok _ _ _ _ _ E1). apply leak_checked_closed.
    + rewrite (bind_throw _ _ _ _ _ _ E1). exact H1.
    + rewrite (bind_stop _ _ _ _ _ E1). exact H1.
  - unfold GetArrayGraphId in Hg. destruct graph_id; [discriminate |].
    unfold bind, deref in Hg. destruct (bodies w !! GetArrayBody first); discriminate.
  - left. exists f. unfold CheckBackward.
    rewrite bool_decide_eq_false_2 by discriminate. simpl negb.
    unfold assert at 1. rewrite bind_ret. simpl front. rewrite bind_ret.
    now rewrite (bind_stop _ _ _ _ _ Hg).
Qed.
